(* ===================================================================== *)
(* Sliding-window file transfer over datagrams:                           *)
(* wire codec, sender, receiver and network mediator.                     *)
(*                                                                        *)
(* The development follows sliding-window/py-med/{shared,client,server,   *)
(* net}.py, the variant with the mediator as a process of its own, and    *)
(* the codec and the sender of sliding-window/py/{shared,client}.py, the  *)
(* variant without mediator (module Py).                                  *)
(* ===================================================================== *)

From Stdlib Require Import ZArith QArith Lia Bool.
From Stdlib Require Import Init.Byte.
From stdpp Require Import base option list strings gmap.

Local Open Scope Z_scope.

(* --------------------------------------------------------------------- *)
(* Python exceptions the modelled code can raise.                         *)
(* --------------------------------------------------------------------- *)

Inductive exn : Type :=
| ValueError        (* Packet.unpack: "Packet too short"; write on a closed file *)
| StructError       (* struct.pack: a field outside its format's range *)
| TimeoutError      (* perform_handshake: "Handshake failed" *)
| AttributeError    (* method call on None *)
| LookupError.      (* list index / dict key out of range *)

Inductive result (A : Type) : Type :=
| Ok (a : A)
| Raise (e : exn).
Arguments Ok {A} a.
Arguments Raise {A} e.

(* --------------------------------------------------------------------- *)
(* shared.py: protocol constants                                          *)
(* --------------------------------------------------------------------- *)

(* struct.calcsize("!HHIIHH") = 2+2+4+4+2+2 *)
Definition HEADER_SIZE : nat := 16.
Definition SERVER_BUFFER_SIZE : nat := 1024.
Definition MAX_PAYLOAD_SIZE : nat := SERVER_BUFFER_SIZE - HEADER_SIZE.
Definition WINDOW_SIZE : nat := 5.

Definition FLAG_SYN : Z := 1.
Definition FLAG_ACK : Z := 2.
Definition FLAG_FIN : Z := 4.

(* --------------------------------------------------------------------- *)
(* Bytes and big-endian fields (struct's "!H" and "!I")                   *)
(* --------------------------------------------------------------------- *)

Definition Z_of_byte (b : byte) : Z := Z.of_N (Byte.to_N b).

Definition byte_of_Z (z : Z) : byte :=
  match Byte.of_N (Z.to_N (z mod 256)) with
  | Some b => b
  | None => x00
  end.

(* "!H": two bytes, most significant first *)
Definition be16 (z : Z) : list byte :=
  [byte_of_Z (Z.shiftr z 8); byte_of_Z z].

(* "!I": four bytes, most significant first *)
Definition be32 (z : Z) : list byte :=
  [byte_of_Z (Z.shiftr z 24); byte_of_Z (Z.shiftr z 16);
   byte_of_Z (Z.shiftr z 8); byte_of_Z z].

(* big-endian value of a byte string *)
Definition be_decode (bs : list byte) : Z :=
  fold_left (fun acc b => acc * 256 + Z_of_byte b) bs 0.

Definition fits16 (z : Z) : bool := (0 <=? z) && (z <? 2^16).
Definition fits32 (z : Z) : bool := (0 <=? z) && (z <? 2^32).

(* --------------------------------------------------------------------- *)
(* shared.py: class Packet                                                *)
(* --------------------------------------------------------------------- *)

Record Packet : Type := mkPacket {
  src_port : Z;
  dst_port : Z;
  seq : Z;
  ack : Z;
  flags : Z;
  window : Z;
  data : list byte
}.

(* struct.pack(HEADER_FORMAT, ...): raises struct.error when an argument is
   outside the range of its field. *)
Definition struct_pack (p : Packet) : result (list byte) :=
  if fits16 (src_port p) && fits16 (dst_port p) && fits32 (seq p)
     && fits32 (ack p) && fits16 (flags p) && fits16 (window p)
  then Ok (be16 (src_port p) ++ be16 (dst_port p) ++ be32 (seq p)
           ++ be32 (ack p) ++ be16 (flags p) ++ be16 (window p))
  else Raise StructError.

(* Packet.pack *)
Definition pack (p : Packet) : result (list byte) :=
  match struct_pack p with
  | Ok header => Ok (header ++ data p)
  | Raise e => Raise e
  end.

(* buffer[i:j] *)
Definition slice (i j : nat) (buffer : list byte) : list byte :=
  take (j - i) (drop i buffer).

(* Packet.unpack *)
Definition unpack (buffer : list byte) : result Packet :=
  if (length buffer <? HEADER_SIZE)%nat then Raise ValueError
  else
    let header_data := take HEADER_SIZE buffer in
    Ok {| src_port := be_decode (slice 0 2 header_data);
          dst_port := be_decode (slice 2 4 header_data);
          seq      := be_decode (slice 4 8 header_data);
          ack      := be_decode (slice 8 12 header_data);
          flags    := be_decode (slice 12 14 header_data);
          window   := be_decode (slice 14 16 header_data);
          data     := drop HEADER_SIZE buffer |}.

(* A packet whose header fields fit their wire widths. *)
Definition in_range (p : Packet) : Prop :=
  0 <= src_port p < 2^16 /\ 0 <= dst_port p < 2^16 /\
  0 <= seq p < 2^32 /\ 0 <= ack p < 2^32 /\
  0 <= flags p < 2^16 /\ 0 <= window p < 2^16.


(* --------------------------------------------------------------------- *)
(* A state-and-exception monad: a raised exception keeps the state that   *)
(* had been reached, as Python does with mutated objects.                 *)
(* --------------------------------------------------------------------- *)

Definition M (S A : Type) : Type := S -> result A * S.

#[global] Instance M_ret {S} : MRet (M S) := fun A a s => (Ok a, s).
#[global] Instance M_bind {S} : MBind (M S) := fun A B f m s =>
  match m s with
  | (Ok a, s') => f a s'
  | (Raise e, s') => (Raise e, s')
  end.

Definition raise {S A} (e : exn) : M S A := fun s => (Raise e, s).
Definition get_state {S} : M S S := fun s => (Ok s, s).
Definition modify {S} (f : S -> S) : M S unit := fun s => (Ok tt, f s).
Definition lift_result {S A} (r : result A) : M S A := fun s => (r, s).

(* Python truthiness of  x & mask  *)
Definition has_flag (x mask : Z) : bool := negb (Z.land x mask =? 0).

(* sock.recvfrom(SERVER_BUFFER_SIZE): a longer datagram is cut to the
   buffer size. *)
Definition recvfrom (datagram : list byte) : list byte :=
  take SERVER_BUFFER_SIZE datagram.

(* ===================================================================== *)
(* py-med/server.py                                                       *)
(* ===================================================================== *)

Module Server.

(* A Python file object opened on data/<client_id>.in *)
Record file : Type := mkFile { path : Z; closed : bool }.

(* self.clients[client_id] *)
Record conn : Type := mkConn {
  expected_seq : Z;
  current_file : option file
}.

(* The Server object with the two parts of the world it acts on: the
   files under data/ (keyed by client id) and the datagrams it handed to
   sock.sendto, oldest first. *)
Record t : Type := mkServer {
  port : Z;
  clients : gmap Z conn;
  disk : gmap Z (list byte);
  wire : list (list byte)
}.

Definition set_clients (f : gmap Z conn -> gmap Z conn) (s : t) : t :=
  {| port := port s; clients := f (clients s); disk := disk s; wire := wire s |}.
Definition set_disk (f : gmap Z (list byte) -> gmap Z (list byte)) (s : t) : t :=
  {| port := port s; clients := clients s; disk := f (disk s); wire := wire s |}.
Definition set_wire (f : list (list byte) -> list (list byte)) (s : t) : t :=
  {| port := port s; clients := clients s; disk := disk s; wire := f (wire s) |}.

(* send_to_net: pkt.pack() may raise struct.error; sock.sendto itself is
   taken to succeed. *)
Definition send_to_net (pkt : Packet) : M t unit :=
  d ← lift_result (pack pkt);
  modify (set_wire (fun w => w ++ [d])).

(* open(filename, "wb") stored into self.clients[client_id]["current_file"] *)
Definition open_wb (client_id : Z) : M t unit :=
  modify (set_disk (insert client_id []));;
  modify (set_clients (alter (fun st =>
    {| expected_seq := expected_seq st;
       current_file := Some {| path := client_id; closed := false |} |}) client_id)).

(* state["current_file"].write(pkt.data); state["current_file"].flush() *)
Definition write_flush (f : option file) (payload : list byte) : M t unit :=
  match f with
  | None => raise AttributeError
  | Some fh =>
      if closed fh then raise ValueError
      else modify (set_disk (fun d =>
             <[path fh := (default [] (d !! path fh)) ++ payload]> d))
  end.

Definition syn_ack_pkt (self : t) (client_id : Z) (ack_num : Z) : Packet :=
  {| src_port := port self; dst_port := client_id; seq := 0; ack := ack_num;
     flags := Z.lor FLAG_SYN FLAG_ACK; window := 1024; data := [] |}.

Definition handle_syn (client_id : Z) (pkt : Packet) : M t unit :=
  modify (set_clients (insert client_id
    {| expected_seq := seq pkt + 1; current_file := None |}));;
  let ack_num := seq pkt + 1 in
  self ← get_state;
  send_to_net (syn_ack_pkt self client_id ack_num);;
  open_wb client_id.

Definition ack_pkt (self : t) (client_id : Z) (ack_num : Z) : Packet :=
  {| src_port := port self; dst_port := client_id; seq := 0;
     ack := ack_num; flags := FLAG_ACK; window := 1024; data := [] |}.

Definition handle_data (client_id : Z) (pkt : Packet) : M t unit :=
  self ← get_state;
  match clients self !! client_id with
  | None => mret tt
  | Some state =>
      let expected := expected_seq state in
      if seq pkt =? expected then
        let data_len := Z.of_nat (length (data pkt)) in
        if 0 <? data_len then
          write_flush (current_file state) (data pkt);;
          modify (set_clients (alter (fun st =>
            {| expected_seq := expected_seq st + data_len;
               current_file := current_file st |}) client_id));;
          send_to_net (ack_pkt self client_id (expected + data_len))
        else mret tt
      else if seq pkt <? expected then
        send_to_net (ack_pkt self client_id expected)
      else
        send_to_net (ack_pkt self client_id expected)
  end.

(* state["current_file"].close() when the entry holds a file object *)
Definition close_file (client_id : Z) : M t unit :=
  modify (set_clients (alter (fun st =>
    {| expected_seq := expected_seq st;
       current_file := match current_file st with
                       | Some fh => Some {| path := path fh; closed := true |}
                       | None => None
                       end |}) client_id)).

Definition handle_fin (client_id : Z) (pkt : Packet) : M t unit :=
  self ← get_state;
  match clients self !! client_id with
  | None => mret tt
  | Some state =>
      close_file client_id;;
      send_to_net (ack_pkt self client_id (seq pkt + 1));;
      modify (set_clients (delete client_id))
  end.

Definition process_packet (buffer : list byte) : M t unit :=
  match unpack buffer with
  | Raise _ => mret tt
  | Ok pkt =>
      let client_id := src_port pkt in
      if has_flag (flags pkt) FLAG_SYN then handle_syn client_id pkt
      else if has_flag (flags pkt) FLAG_FIN then handle_fin client_id pkt
      else handle_data client_id pkt
  end.

(* register_with_net *)
Definition register_with_net : M t unit :=
  self ← get_state;
  send_to_net {| src_port := port self; dst_port := 0; seq := 0; ack := 0;
                 flags := 0; window := 1024; data := [] |}.

(* One turn of the loop in run(): receive a datagram, process it, and go
   on after any exception ("except Exception as e: print"). *)
Definition run_step (datagram : list byte) (s : t) : t :=
  snd (process_packet (recvfrom datagram) s).

(* The loop of run() over the datagrams it receives, in order. *)
Definition run_steps (datagrams : list (list byte)) (s : t) : t :=
  fold_left (fun s d => run_step d s) datagrams s.

(* Every file object held in self.clients was opened by handle_syn on the
   file of its own client id. *)
Definition files_ok (s : t) : Prop :=
  forall client_id st fh,
    clients s !! client_id = Some st -> current_file st = Some fh ->
    path fh = client_id.

(* The datagram decodes to a packet with the SYN flag and source port
   client_id: process_packet hands it to handle_syn for that client. *)
Definition syn_from (client_id : Z) (datagram : list byte) : Prop :=
  exists pkt, unpack (recvfrom datagram) = Ok pkt /\ src_port pkt = client_id /\
              has_flag (flags pkt) FLAG_SYN = true.

End Server.

(* ===================================================================== *)
(* py-med/client.py                                                       *)
(* ===================================================================== *)

(* x < y on clock readings; time.time() is read as an exact rational. *)
Definition Qlt_bool (x y : Q) : bool := negb (Qle_bool y x).

Module Client.

Definition TIMEOUT : Q := 1 # 2.

(* The Client object with the world it acts on: the content of
   self.filename (None when the file does not exist) and the datagrams it
   handed to sock.sendto, oldest first. *)
Record t : Type := mkClient {
  port : Z;
  server_port : Z;
  file : option (list byte);
  wire : list (list byte)
}.

Definition set_wire (f : list (list byte) -> list (list byte)) (c : t) : t :=
  {| port := port c; server_port := server_port c; file := file c;
     wire := f (wire c) |}.

Definition send_to_net (pkt : Packet) : M t unit :=
  d ← lift_result (pack pkt);
  modify (set_wire (fun w => w ++ [d])).

(* wait_for_packet: rx is the datagram that arrived before the timeout,
   if one did; any exception while decoding gives None. *)
Definition wait_for_packet (rx : option (list byte)) : option Packet :=
  match rx with
  | None => None
  | Some datagram =>
      match unpack (recvfrom datagram) with
      | Ok pkt => Some pkt
      | Raise _ => None
      end
  end.

(* ------------------------- perform_handshake ----------------------- *)

Definition handshake_seq : Z := 100.

Definition syn_pkt (self : t) : Packet :=
  {| src_port := port self; dst_port := server_port self;
     seq := handshake_seq; ack := 0; flags := FLAG_SYN; window := 1024;
     data := [] |}.

(* resp and (resp.flags & (FLAG_SYN | FLAG_ACK)) and resp.ack == seq + 1 *)
Definition handshake_accepts (resp : option Packet) : bool :=
  match resp with
  | None => false
  | Some r => has_flag (flags r) (Z.lor FLAG_SYN FLAG_ACK)
              && (ack r =? handshake_seq + 1)
  end.

(* The loop of perform_handshake over what the environment supplies in
   each turn: the clock at the loop test and the outcome of the wait.
   Some a: returned a; None: still looping when the events run out. *)
Fixpoint handshake_loop (start_time : Q) (env : list (Q * option (list byte)))
  : M t (option Z) :=
  match env with
  | [] => mret None
  | (now, rx) :: env' =>
      if Qlt_bool (now - start_time) 10 then
        self ← get_state;
        send_to_net (syn_pkt self);;
        let resp := wait_for_packet rx in
        if handshake_accepts resp
        then mret (ack <$> resp)
        else handshake_loop start_time env'
      else raise TimeoutError
  end.

Definition perform_handshake (start_time : Q)
    (env : list (Q * option (list byte))) : M t (option Z) :=
  handshake_loop start_time env.

(* ------------------------- read_file_chunks ------------------------ *)

Fixpoint read_loop (fuel : nat) (f : list byte) : list (list byte) :=
  match fuel with
  | O => []
  | S fuel' =>
      let chunk := take MAX_PAYLOAD_SIZE f in
      match chunk with
      | [] => []
      | _ :: _ => chunk :: read_loop fuel' (drop MAX_PAYLOAD_SIZE f)
      end
  end.

(* None: FileNotFoundError was caught *)
Definition read_file_chunks (self : t) : option (list (list byte)) :=
  match file self with
  | None => None
  | Some f => Some (read_loop (length f) f)
  end.

(* --------------------------- transmit_file ------------------------- *)

(* The local variables of transmit_file. *)
Record tx : Type := mkTx {
  chunks : list (list byte);
  seq_window : gmap nat Z;
  base_idx : nat;
  next_idx : nat;
  base_seq : Z;
  last_ack_time : Q
}.

Definition total_chunks (x : tx) : nat := length (chunks x).

(* for i in range(total_chunks): seq_window[i] = current_seq; ... *)
Fixpoint precalc (cs : list (list byte)) (i : nat) (current_seq : Z)
    (w : gmap nat Z) : gmap nat Z :=
  match cs with
  | [] => w
  | c :: cs' =>
      precalc cs' (S i) (current_seq + Z.of_nat (length c)) (<[i := current_seq]> w)
  end.

Definition tx_init (cs : list (list byte)) (start_seq : Z) (now : Q) : tx :=
  {| chunks := cs; seq_window := precalc cs 0 start_seq ∅;
     base_idx := 0; next_idx := 0; base_seq := start_seq;
     last_ack_time := now |}.

Definition set_next_idx (n : nat) (x : tx) : tx :=
  {| chunks := chunks x; seq_window := seq_window x; base_idx := base_idx x;
     next_idx := n; base_seq := base_seq x; last_ack_time := last_ack_time x |}.

Definition send_guard (x : tx) : bool :=
  (next_idx x <? total_chunks x)%nat && (next_idx x <? base_idx x + WINDOW_SIZE)%nat.

Definition data_pkt (self : t) (sq : Z) (chunk : list byte) : Packet :=
  {| src_port := port self; dst_port := server_port self; seq := sq;
     ack := 0; flags := FLAG_ACK; window := 1024; data := chunk |}.

(* Body of the inner "while next_idx < total_chunks and ..." loop. *)
Definition send_one (x : tx) : M t tx :=
  match chunks x !! next_idx x, seq_window x !! next_idx x with
  | Some chunk, Some sq =>
      self ← get_state;
      send_to_net (data_pkt self sq chunk);;
      mret (set_next_idx (S (next_idx x)) x)
  | _, _ => raise LookupError
  end.

Fixpoint send_loop (fuel : nat) (x : tx) : M t tx :=
  match fuel with
  | O => mret x
  | S fuel' =>
      if send_guard x then x' ← send_one x; send_loop fuel' x'
      else mret x
  end.

(* Body of "while base_idx < len(chunks)": Some x' when the chunk at
   base_idx is covered by the acknowledgement, None on break. *)
Definition advance_one (ack_num : Z) (now : Q) (x : tx) : result (option tx) :=
  match seq_window x !! base_idx x, chunks x !! base_idx x with
  | Some sq, Some chunk =>
      let chunk_end_seq := sq + Z.of_nat (length chunk) in
      if chunk_end_seq <=? ack_num then
        Ok (Some {| chunks := chunks x; seq_window := seq_window x;
                    base_idx := S (base_idx x); next_idx := next_idx x;
                    base_seq := chunk_end_seq; last_ack_time := now |})
      else Ok None
  | _, _ => Raise LookupError
  end.

Fixpoint advance_loop (fuel : nat) (ack_num : Z) (now : Q) (x : tx) : result tx :=
  match fuel with
  | O => Ok x
  | S fuel' =>
      if (base_idx x <? length (chunks x))%nat then
        match advance_one ack_num now x with
        | Ok (Some x') => advance_loop fuel' ack_num now x'
        | Ok None => Ok x
        | Raise e => Raise e
        end
      else Ok x
  end.

(* "if resp and (resp.flags & FLAG_ACK): if resp.ack > base_seq: ..." *)
Definition process_ack (resp : option Packet) (now : Q) (x : tx) : result tx :=
  match resp with
  | Some r =>
      if has_flag (flags r) FLAG_ACK then
        if base_seq x <? ack r
        then advance_loop (total_chunks x) (ack r) now x
        else Ok x
      else Ok x
  | None => Ok x
  end.

(* "if time.time() - last_ack_time > TIMEOUT: next_idx = base_idx; ..." *)
Definition check_timeout (now reset_at : Q) (x : tx) : tx :=
  if Qlt_bool TIMEOUT (now - last_ack_time x) then
    {| chunks := chunks x; seq_window := seq_window x; base_idx := base_idx x;
       next_idx := base_idx x; base_seq := base_seq x; last_ack_time := reset_at |}
  else x.

(* What the environment supplies in one turn of the outer loop: the
   outcome of the 50 ms poll and the clock readings taken when the window
   advances, at the timeout test and at the timer reset. *)
Record tx_event : Type := mkTxEvent {
  rx : option (list byte);
  t_ack : Q;
  t_check : Q;
  t_reset : Q
}.

(* One turn of "while base_idx < total_chunks". *)
Definition transmit_iter (ev : tx_event) (x : tx) : M t tx :=
  x1 ← send_loop (total_chunks x) x;
  x2 ← lift_result (process_ack (wait_for_packet (rx ev)) (t_ack ev) x1);
  mret (check_timeout (t_check ev) (t_reset ev) x2).

(* Some base_seq: returned; None: still looping when the events run out *)
Fixpoint transmit_loop (env : list tx_event) (x : tx) : M t (option Z) :=
  if (base_idx x <? total_chunks x)%nat then
    match env with
    | [] => mret None
    | ev :: env' => x' ← transmit_iter ev x; transmit_loop env' x'
    end
  else mret (Some (base_seq x)).

(* transmit_file as a whole.  Some (Some b): returned base_seq = b;
   Some None: returned without a value, the file was not found; None:
   still looping when the events run out. *)
Definition transmit_file (start_seq : Z) (now : Q) (env : list tx_event)
  : M t (option (option Z)) :=
  self ← get_state;
  match read_file_chunks self with
  | None => mret (Some None)
  | Some chunks =>
      transmit_loop env (tx_init chunks start_seq now) ≫= fun b : option Z =>
      mret (Some <$> b)
  end.

(* ------------------------- perform_teardown ------------------------ *)

Definition fin_pkt (self : t) (final_seq : Z) : Packet :=
  {| src_port := port self; dst_port := server_port self; seq := final_seq;
     ack := 0; flags := FLAG_FIN; window := 1024; data := [] |}.

(* resp and (resp.flags & FLAG_ACK) and resp.ack == final_seq + 1 *)
Definition teardown_accepts (final_seq : Z) (resp : option Packet) : bool :=
  match resp with
  | None => false
  | Some r => has_flag (flags r) FLAG_ACK && (ack r =? final_seq + 1)
  end.

(* One turn of "for _ in range(5)": true when the FIN was acknowledged. *)
Definition teardown_iter (final_seq : Z) (rx : option (list byte)) : M t bool :=
  self ← get_state;
  send_to_net (fin_pkt self final_seq);;
  mret (teardown_accepts final_seq (wait_for_packet rx)).

(* The loop "for _ in range(5)" of perform_teardown over the outcomes of
   its waits.  Some true: "FIN ACKed."; Some false: "No FIN-ACK received."
   after the last attempt; None: still looping when the outcomes run out. *)
Fixpoint teardown_loop (attempts : nat) (final_seq : Z)
    (env : list (option (list byte))) : M t (option bool) :=
  match attempts with
  | O => mret (Some false)
  | S attempts' =>
      match env with
      | [] => mret None
      | rx :: env' =>
          teardown_iter final_seq rx ≫= fun acked : bool =>
          if acked then mret (Some true)
          else teardown_loop attempts' final_seq env'
      end
  end.

Definition perform_teardown (final_seq : Z) (env : list (option (list byte)))
  : M t (option bool) :=
  teardown_loop 5 final_seq env.

End Client.

(* ===================================================================== *)
(* py-med/net.py                                                          *)
(* ===================================================================== *)

Module Net.

Definition DROP_PROBABILITY : Q := 1 # 10.
Definition DUPLICATE_PROBABILITY : Q := 1 # 10.
Definition DELAY_PROBABILITY : Q := 1 # 10.
Definition MIN_DELAY : Q := 1 # 2.
Definition MAX_DELAY : Q := 2.

(* A transport address (host, port) as recvfrom reports it. *)
Definition addr : Type := string * Z.

(* The NetDaemon object with the world it acts on: the datagrams handed to
   sock.sendto (oldest first) and the generator behind random.random(),
   given as the sequence of its future values and the number drawn. *)
Record t : Type := mkNet {
  mapping : gmap Z addr;
  delayed_packets : list (Q * list byte * addr);
  wire : list (list byte * addr);
  rng : nat -> Q;
  drawn : nat
}.

Definition set_mapping (f : gmap Z addr -> gmap Z addr) (n : t) : t :=
  {| mapping := f (mapping n); delayed_packets := delayed_packets n;
     wire := wire n; rng := rng n; drawn := drawn n |}.
Definition set_delayed (f : list (Q * list byte * addr) -> list (Q * list byte * addr))
    (n : t) : t :=
  {| mapping := mapping n; delayed_packets := f (delayed_packets n);
     wire := wire n; rng := rng n; drawn := drawn n |}.
Definition set_wire (f : list (list byte * addr) -> list (list byte * addr))
    (n : t) : t :=
  {| mapping := mapping n; delayed_packets := delayed_packets n;
     wire := f (wire n); rng := rng n; drawn := drawn n |}.

(* random.random() *)
Definition random : M t Q := fun n =>
  (Ok (rng n (drawn n)),
   {| mapping := mapping n; delayed_packets := delayed_packets n;
      wire := wire n; rng := rng n; drawn := S (drawn n) |}).

(* random.uniform(a, b) is a + (b - a) * random() *)
Definition uniform (a b : Q) : M t Q :=
  u ← random; mret (a + (b - a) * u)%Q.

(* send_packet: an exception of sock.sendto is logged and dropped, so the
   call never raises; wire records the calls. *)
Definition send_packet (d : list byte) (target_addr : addr) : M t unit :=
  modify (set_wire (fun w => w ++ [(d, target_addr)])).

Definition register (virtual_port : Z) (a : addr) : M t unit :=
  self ← get_state;
  match mapping self !! virtual_port with
  | Some a' =>
      if decide (a' = a) then mret tt
      else modify (set_mapping (insert virtual_port a))
  | None => modify (set_mapping (insert virtual_port a))
  end.

(* now is the value of time.time() read in the delay branch *)
Definition handle_simulation_and_forward (now : Q) (d : list byte)
    (target_addr : addr) : M t unit :=
  r1 ← random;
  if Qlt_bool r1 DROP_PROBABILITY then mret tt
  else
    r2 ← random;
    if Qlt_bool r2 DUPLICATE_PROBABILITY then
      send_packet d target_addr;;
      send_packet d target_addr
    else
      r3 ← random;
      if Qlt_bool r3 DELAY_PROBABILITY then
        delay ← uniform MIN_DELAY MAX_DELAY;
        let delivery_time := (now + delay)%Q in
        modify (set_delayed (fun q => q ++ [(delivery_time, d, target_addr)]))
      else
        send_packet d target_addr.

Definition process_packet (now : Q) (d : list byte) (a : addr) : M t unit :=
  match unpack d with
  | Raise _ => mret tt
  | Ok pkt =>
      register (src_port pkt) a;;
      self ← get_state;
      match mapping self !! dst_port pkt with
      | Some target_addr => handle_simulation_and_forward now d target_addr
      | None => mret tt
      end
  end.

(* Step 1 of the loop in run(): send what is due, keep the rest. *)
Fixpoint drain (now : Q) (q : list (Q * list byte * addr))
  : list (list byte * addr) * list (Q * list byte * addr) :=
  match q with
  | [] => ([], [])
  | (delivery_time, d, a) :: q' =>
      let '(out, remaining) := drain now q' in
      if Qle_bool delivery_time now then ((d, a) :: out, remaining)
      else (out, (delivery_time, d, a) :: remaining)
  end.

Definition send_delayed (now : Q) : M t unit :=
  self ← get_state;
  let '(out, remaining) := drain now (delayed_packets self) in
  modify (set_wire (fun w => w ++ out));;
  modify (set_delayed (fun _ => remaining)).

(* One turn of the loop in run(): now1 is the clock at the top of the
   loop, incoming the datagram the 50 ms select found (if any), now2 the
   clock the delay branch reads. *)
Definition run_step (now1 : Q) (incoming : option (list byte * addr)) (now2 : Q)
    (n : t) : t :=
  let n1 := snd (send_delayed now1 n) in
  match incoming with
  | None => n1
  | Some (d, a) => snd (process_packet now2 (recvfrom d) a n1)
  end.

End Net.

(* ===================================================================== *)
(* py/shared.py and py/client.py: the variant without mediator            *)
(* ===================================================================== *)

Module Py.

(* struct.calcsize("!IIHH") *)
Definition HEADER_SIZE : nat := 12.
Definition MAX_PAYLOAD_SIZE : nat := SERVER_BUFFER_SIZE - HEADER_SIZE.

Definition TIMEOUT : Q := 1 # 2.

Record Packet : Type := mkPacket {
  seq : Z;
  ack : Z;
  flags : Z;
  window : Z;
  data : list byte
}.

Definition struct_pack (p : Packet) : result (list byte) :=
  if fits32 (seq p) && fits32 (ack p) && fits16 (flags p) && fits16 (window p)
  then Ok (be32 (seq p) ++ be32 (ack p) ++ be16 (flags p) ++ be16 (window p))
  else Raise StructError.

(* Packet.pack *)
Definition pack (p : Packet) : result (list byte) :=
  match struct_pack p with
  | Ok header => Ok (header ++ data p)
  | Raise e => Raise e
  end.

(* Packet.unpack *)
Definition unpack (buffer : list byte) : result Packet :=
  if (length buffer <? HEADER_SIZE)%nat then Raise ValueError
  else
    let header_data := take HEADER_SIZE buffer in
    Ok {| seq    := be_decode (slice 0 4 header_data);
          ack    := be_decode (slice 4 8 header_data);
          flags  := be_decode (slice 8 10 header_data);
          window := be_decode (slice 10 12 header_data);
          data   := drop HEADER_SIZE buffer |}.

Definition in_range (p : Packet) : Prop :=
  0 <= seq p < 2^32 /\ 0 <= ack p < 2^32 /\
  0 <= flags p < 2^16 /\ 0 <= window p < 2^16.

(* ------------------------------ client.py --------------------------- *)

(* The functions of client.py act on the socket; the state is the list of
   datagrams handed to sock.sendto, oldest first. *)
Definition sendto (pkt : Packet) : M (list (list byte)) unit :=
  d ← lift_result (pack pkt);
  modify (fun w => w ++ [d]).

(* "if ready[0]: try: data, _ = sock.recvfrom(SERVER_BUFFER_SIZE);
   pkt = Packet.unpack(data) ... except Exception: pass": rx is the
   datagram select found, if any. *)
Definition receive (rx : option (list byte)) : option Packet :=
  match rx with
  | None => None
  | Some datagram =>
      match unpack (recvfrom datagram) with
      | Ok pkt => Some pkt
      | Raise _ => None
      end
  end.

(* read_file_chunks: "chunk = f.read(MAX_PAYLOAD_SIZE); if not chunk: break" *)
Fixpoint read_loop (fuel : nat) (f : list byte) : list (list byte) :=
  match fuel with
  | O => []
  | S fuel' =>
      let chunk := take MAX_PAYLOAD_SIZE f in
      match chunk with
      | [] => []
      | _ :: _ => chunk :: read_loop fuel' (drop MAX_PAYLOAD_SIZE f)
      end
  end.

(* file is the content of filename; None: FileNotFoundError was caught *)
Definition read_file_chunks (file : option (list byte))
  : option (list (list byte)) :=
  match file with
  | None => None
  | Some f => Some (read_loop (length f) f)
  end.

Definition syn_pkt : Packet :=
  {| seq := 100; ack := 0; flags := FLAG_SYN; window := 1024; data := [] |}.

(* perform_handshake: the loop "while True" over the outcomes of its waits.
   Some a: returned a; None: still looping when the outcomes run out. *)
Fixpoint perform_handshake (env : list (option (list byte)))
  : M (list (list byte)) (option Z) :=
  match env with
  | [] => mret None
  | rx :: env' =>
      sendto syn_pkt;;
      match receive rx with
      | Some pkt =>
          if has_flag (flags pkt) (Z.lor FLAG_SYN FLAG_ACK)
          then mret (Some (ack pkt))
          else perform_handshake env'
      | None => perform_handshake env'
      end
  end.

(* The local variables of transmit_file. *)
Record tx : Type := mkTx {
  chunks : list (list byte);
  seq_window : gmap nat Z;
  base_idx : nat;
  next_idx : nat;
  base_seq : Z;
  last_ack_time : Q
}.

Definition total_chunks (x : tx) : nat := length (chunks x).

Definition tx_init (cs : list (list byte)) (initial_seq : Z) (now : Q) : tx :=
  {| chunks := cs; seq_window := ∅; base_idx := 0; next_idx := 0;
     base_seq := initial_seq; last_ack_time := now |}.

Definition send_guard (x : tx) : bool :=
  (next_idx x <? total_chunks x)%nat && (next_idx x <? base_idx x + WINDOW_SIZE)%nat.

(* "current_seq = base_seq; if next_idx > base_idx: ..." *)
Definition current_seq (x : tx) : result Z :=
  if (base_idx x <? next_idx x)%nat then
    match chunks x !! (next_idx x - 1)%nat, seq_window x !! (next_idx x - 1)%nat with
    | Some prev, Some sq => Ok (sq + Z.of_nat (length prev))
    | _, _ => Raise LookupError
    end
  else Ok (base_seq x).

Definition data_pkt (sq : Z) (chunk : list byte) : Packet :=
  {| seq := sq; ack := 0; flags := FLAG_ACK; window := 1024; data := chunk |}.

(* Body of the inner "while next_idx < total_chunks and ..." loop. *)
Definition send_one (x : tx) : M (list (list byte)) tx :=
  sq ← lift_result (current_seq x);
  match chunks x !! next_idx x with
  | None => raise LookupError
  | Some chunk =>
      sendto (data_pkt sq chunk);;
      mret {| chunks := chunks x;
              seq_window := <[next_idx x := sq]> (seq_window x);
              base_idx := base_idx x; next_idx := S (next_idx x);
              base_seq := base_seq x; last_ack_time := last_ack_time x |}
  end.

Fixpoint send_loop (fuel : nat) (x : tx) : M (list (list byte)) tx :=
  match fuel with
  | O => mret x
  | S fuel' =>
      if send_guard x then x' ← send_one x; send_loop fuel' x'
      else mret x
  end.

(* "while base_idx < next_idx: ..." inside the try block: an exception
   leaves the loop with the progress made so far. *)
Fixpoint advance_loop (fuel : nat) (ack_num : Z) (now : Q) (x : tx) : tx :=
  match fuel with
  | O => x
  | S fuel' =>
      if (base_idx x <? next_idx x)%nat then
        match chunks x !! base_idx x with
        | None => x
        | Some chunk =>
            let chunk_len := Z.of_nat (length chunk) in
            if base_seq x + chunk_len <=? ack_num then
              advance_loop fuel' ack_num now
                {| chunks := chunks x; seq_window := seq_window x;
                   base_idx := S (base_idx x); next_idx := next_idx x;
                   base_seq := base_seq x + chunk_len; last_ack_time := now |}
            else x
        end
      else x
  end.

(* "if ready[0]: try: ... ack_pkt = Packet.unpack(data); while ..." *)
Definition process_ack (resp : option Packet) (now : Q) (x : tx) : tx :=
  match resp with
  | Some ack_pkt => advance_loop (next_idx x - base_idx x) (ack ack_pkt) now x
  | None => x
  end.

Definition check_timeout (now reset_at : Q) (x : tx) : tx :=
  if Qlt_bool TIMEOUT (now - last_ack_time x) then
    {| chunks := chunks x; seq_window := seq_window x; base_idx := base_idx x;
       next_idx := base_idx x; base_seq := base_seq x; last_ack_time := reset_at |}
  else x.

(* What the environment supplies in one turn of the outer loop: the
   outcome of the 100 ms poll and the clock readings taken when the window
   advances, at the timeout test and at the timer reset. *)
Record tx_event : Type := mkTxEvent {
  rx : option (list byte);
  t_ack : Q;
  t_check : Q;
  t_reset : Q
}.

(* One turn of "while base_idx < total_chunks". *)
Definition transmit_iter (ev : tx_event) (x : tx) : M (list (list byte)) tx :=
  x1 ← send_loop (total_chunks x) x;
  mret (check_timeout (t_check ev) (t_reset ev)
          (process_ack (receive (rx ev)) (t_ack ev) x1)).

(* Some base_seq: returned; None: still looping when the events run out *)
Fixpoint transmit_loop (env : list tx_event) (x : tx)
  : M (list (list byte)) (option Z) :=
  if (base_idx x <? total_chunks x)%nat then
    match env with
    | [] => mret None
    | ev :: env' => x' ← transmit_iter ev x; transmit_loop env' x'
    end
  else mret (Some (base_seq x)).

Definition transmit_file (cs : list (list byte)) (initial_seq : Z) (now : Q)
    (env : list tx_event) : M (list (list byte)) (option Z) :=
  transmit_loop env (tx_init cs initial_seq now).

Definition fin_pkt (final_seq : Z) : Packet :=
  {| seq := final_seq; ack := 0; flags := FLAG_FIN; window := 1024; data := [] |}.

(* The loop "for _ in range(5)" of perform_teardown over the outcomes of
   its waits.  Some true: "FIN ACKed."; Some false: "No FIN-ACK received.";
   None: still looping when the outcomes run out. *)
Fixpoint teardown_loop (attempts : nat) (final_seq : Z)
    (env : list (option (list byte))) : M (list (list byte)) (option bool) :=
  match attempts with
  | O => mret (Some false)
  | S attempts' =>
      match env with
      | [] => mret None
      | rx :: env' =>
          sendto (fin_pkt final_seq);;
          match receive rx with
          | Some pkt =>
              if has_flag (flags pkt) FLAG_ACK then mret (Some true)
              else teardown_loop attempts' final_seq env'
          | None => teardown_loop attempts' final_seq env'
          end
      end
  end.

Definition perform_teardown (final_seq : Z) (env : list (option (list byte)))
  : M (list (list byte)) (option bool) :=
  teardown_loop 5 final_seq env.

End Py.

(* ===================================================================== *)
(* Notions used to state the properties of the sender                     *)
(* ===================================================================== *)

(* The sequence number at which chunk i begins: start_seq plus the lengths
   of the chunks before it (seq_of cs start (S i) is the end of chunk i). *)
Definition seq_of (cs : list (list byte)) (start_seq : Z) (i : nat) : Z :=
  start_seq + Z.of_nat (length (concat (take i cs))).

(* The variables of transmit_file are consistent: the chunks and the
   precomputed table are those of the call, and base_seq is the sequence
   number at which chunk base_idx begins. *)
Definition tx_wf (cs : list (list byte)) (start_seq : Z) (x : Client.tx) : Prop :=
  Client.chunks x = cs /\
  Client.seq_window x = Client.precalc cs 0 start_seq ∅ /\
  (Client.base_idx x <= length cs)%nat /\
  Client.base_seq x = seq_of cs start_seq (Client.base_idx x).

(* States of the loop of transmit_file, reached from the initial one by the
   three kinds of step in any order: sending one chunk (when the window
   guard allows it), processing the outcome of a poll, and the timeout test.
   With bounded = true every acknowledgement processed is at most the end of
   the last chunk sent, seq_of cs start_seq next_idx. *)
Inductive tx_reachable (cs : list (list byte)) (start_seq : Z) (bounded : bool)
  : Client.tx -> Prop :=
| reach_init (now : Q) :
    tx_reachable cs start_seq bounded (Client.tx_init cs start_seq now)
| reach_send (x x' : Client.tx) (c c' : Client.t) :
    tx_reachable cs start_seq bounded x ->
    Client.send_guard x = true ->
    Client.send_one x c = (Ok x', c') ->
    tx_reachable cs start_seq bounded x'
| reach_ack (x x' : Client.tx) (resp : option Packet) (now : Q) :
    tx_reachable cs start_seq bounded x ->
    (bounded = true -> forall r, resp = Some r ->
       ack r <= seq_of cs start_seq (Client.next_idx x)) ->
    Client.process_ack resp now x = Ok x' ->
    tx_reachable cs start_seq bounded x'
| reach_timeout (x : Client.tx) (now reset_at : Q) :
    tx_reachable cs start_seq bounded x ->
    tx_reachable cs start_seq bounded (Client.check_timeout now reset_at x).

(* ===================================================================== *)
(* The three processes together                                           *)
(* ===================================================================== *)

(* Sender, receiver and mediator are single-threaded loops that interact
   only through datagrams.  A state of the whole system holds the three
   objects, the sender's position in run(), and the datagrams in flight:
   handed to sendto and not yet returned by the addressee's recvfrom.  A
   step is one stretch of one process between two waits on its socket.
   Clock readings and the outcome of every wait (which datagram arrives, or
   none before the timeout) are supplied by the step's label, so every
   timing and every interleaving of the real system is a run of this
   relation; a datagram in flight can also be lost. *)

Module System.

(* Where the sender is in Client.run(): about to send (handshake, transmit
   or teardown loop), or waiting in wait_for_packet after having sent. *)
Inductive phase : Type :=
| PHandshake (start_time : Q)
| PHandshakeWait (start_time : Q)
| PTransmit (x : Client.tx)
| PTransmitWait (x : Client.tx)
| PTeardown (final_seq : Z) (attempts : nat)
| PTeardownWait (final_seq : Z) (attempts : nat)
| PDone
| PCrashed (e : exn).

Record world : Type := mkWorld {
  cli : Client.t;
  pc : phase;
  srv : Server.t;
  net : Net.t;
  to_net : list (list byte * Net.addr);   (* with the sender's address *)
  to_cli : list (list byte);
  to_srv : list (list byte)
}.

Definition in_handshake (ph : phase) : Prop :=
  match ph with
  | PHandshake _ | PHandshakeWait _ => True
  | _ => False
  end.

(* The sender up to its next wait.  now is the clock at the loop test of
   perform_handshake. *)
Definition client_send (now : Q) (ph : phase) (c : Client.t)
  : option (phase * Client.t) :=
  match ph with
  | PHandshake start_time =>
      if Qlt_bool (now - start_time) 10 then
        match Client.send_to_net (Client.syn_pkt c) c with
        | (Ok _, c') => Some (PHandshakeWait start_time, c')
        | (Raise e, c') => Some (PCrashed e, c')
        end
      else Some (PCrashed TimeoutError, c)
  | PTransmit x =>
      if (Client.base_idx x <? Client.total_chunks x)%nat then
        match Client.send_loop (Client.total_chunks x) x c with
        | (Ok x', c') => Some (PTransmitWait x', c')
        | (Raise e, c') => Some (PCrashed e, c')
        end
      else Some (PTeardown (Client.base_seq x) 5, c)
  | PTeardown final_seq O => Some (PDone, c)
  | PTeardown final_seq (S n) =>
      match Client.send_to_net (Client.fin_pkt c final_seq) c with
      | (Ok _, c') => Some (PTeardownWait final_seq n, c')
      | (Raise e, c') => Some (PCrashed e, c')
      end
  | _ => None
  end.

(* run() after perform_handshake returned start_seq: transmit_file reads the
   file; when it is missing, transmit_file returns None and the first
   pkt.pack() of perform_teardown(None) raises struct.error. *)
Definition start_transmit (start_seq : Z) (now : Q) (c : Client.t) : phase :=
  match Client.read_file_chunks c with
  | None => PCrashed StructError
  | Some chunks => PTransmit (Client.tx_init chunks start_seq now)
  end.

(* The sender from the return of wait_for_packet to the next loop test.
   ev holds the outcome of the wait and the clock readings that follow. *)
Definition client_recv (ev : Client.tx_event) (ph : phase) (c : Client.t)
  : option phase :=
  let resp := Client.wait_for_packet (Client.rx ev) in
  match ph with
  | PHandshakeWait start_time =>
      if Client.handshake_accepts resp then
        match resp with
        | Some r => Some (start_transmit (ack r) (Client.t_reset ev) c)
        | None => Some (PHandshake start_time)
        end
      else Some (PHandshake start_time)
  | PTransmitWait x =>
      match Client.process_ack resp (Client.t_ack ev) x with
      | Ok x' => Some (PTransmit (Client.check_timeout (Client.t_check ev)
                                    (Client.t_reset ev) x'))
      | Raise e => Some (PCrashed e)
      end
  | PTeardownWait final_seq n =>
      if Client.teardown_accepts final_seq resp then Some PDone
      else Some (PTeardown final_seq n)
  | _ => None
  end.

Section Steps.

Variables cli_addr srv_addr : Net.addr.

(* The datagrams among outs that sendto addressed to a. *)
Definition delivered_to (a : Net.addr) (outs : list (list byte * Net.addr))
  : list (list byte) :=
  omap (fun e => if decide (snd e = a) then Some (fst e) else None) outs.

Definition clear_client (c : Client.t) : Client.t := Client.set_wire (fun _ => []) c.
Definition clear_server (s : Server.t) : Server.t := Server.set_wire (fun _ => []) s.
Definition clear_net (n : Net.t) : Net.t := Net.set_wire (fun _ => []) n.

Inductive label : Type :=
| LClientSend (now : Q)
| LClientRecv (ev : Client.tx_event)
| LServerRecv (d : list byte)
| LNetRecv (d : list byte) (a : Net.addr) (now : Q)
| LNetDrain (now : Q)
| LLost.

(* rx is what a wait returns: nothing, or a datagram taken out of q. *)
Definition takes {A} (q : list A) (x : option A) (q' : list A) : Prop :=
  match x with
  | None => q' = q
  | Some a => exists q1 q2, q = q1 ++ a :: q2 /\ q' = q1 ++ q2
  end.

Inductive step : world -> label -> world -> Prop :=
| step_client_send w now ph c :
    client_send now (pc w) (cli w) = Some (ph, c) ->
    step w (LClientSend now)
      {| cli := clear_client c; pc := ph; srv := srv w; net := net w;
         to_net := to_net w ++ map (fun d => (d, cli_addr)) (Client.wire c);
         to_cli := to_cli w; to_srv := to_srv w |}
| step_client_recv w ev ph q :
    takes (to_cli w) (Client.rx ev) q ->
    client_recv ev (pc w) (cli w) = Some ph ->
    step w (LClientRecv ev)
      {| cli := cli w; pc := ph; srv := srv w; net := net w;
         to_net := to_net w; to_cli := q; to_srv := to_srv w |}
| step_server_recv w d q :
    takes (to_srv w) (Some d) q ->
    let s := Server.run_step d (srv w) in
    step w (LServerRecv d)
      {| cli := cli w; pc := pc w; srv := clear_server s; net := net w;
         to_net := to_net w ++ map (fun d => (d, srv_addr)) (Server.wire s);
         to_cli := to_cli w; to_srv := q |}
| step_net_recv w d a now q :
    takes (to_net w) (Some (d, a)) q ->
    let n := snd (Net.process_packet now (recvfrom d) a (net w)) in
    step w (LNetRecv d a now)
      {| cli := cli w; pc := pc w; srv := srv w; net := clear_net n;
         to_net := q;
         to_cli := to_cli w ++ delivered_to cli_addr (Net.wire n);
         to_srv := to_srv w ++ delivered_to srv_addr (Net.wire n) |}
| step_net_drain w now :
    let n := snd (Net.send_delayed now (net w)) in
    step w (LNetDrain now)
      {| cli := cli w; pc := pc w; srv := srv w; net := clear_net n;
         to_net := to_net w;
         to_cli := to_cli w ++ delivered_to cli_addr (Net.wire n);
         to_srv := to_srv w ++ delivered_to srv_addr (Net.wire n) |}
| step_lost w q1 q2 q3 x1 x2 x3 :
    takes (to_net w) x1 q1 -> takes (to_cli w) x2 q2 -> takes (to_srv w) x3 q3 ->
    step w LLost
      {| cli := cli w; pc := pc w; srv := srv w; net := net w;
         to_net := q1; to_cli := q2; to_srv := q3 |}.

(* The system at start-up: the receiver has sent its registration datagram,
   the sender has read the clock for its handshake; nothing else has
   happened.  The files under data/ are whatever earlier runs left. *)
Definition initial (w : world) : Prop :=
  exists start_time,
    pc w = PHandshake start_time /\
    (* the receiver's sock.bind(("0.0.0.0", port)) has succeeded *)
    0 <= Server.port (srv w) < 2^16 /\
    Client.wire (cli w) = [] /\
    Server.clients (srv w) = ∅ /\
    Server.wire (srv w) = [] /\
    Net.mapping (net w) = ∅ /\ Net.delayed_packets (net w) = [] /\
    Net.wire (net w) = [] /\
    to_cli w = [] /\ to_srv w = [] /\
    to_net w = map (fun d => (d, srv_addr))
                   (Server.wire (snd (Server.register_with_net (srv w)))).

(* A SYN of the sender handled by the receiver once the sender has left its
   handshake. *)
Definition late_syn (w : world) (l : label) : Prop :=
  match l with
  | LServerRecv d =>
      Server.syn_from (Client.port (cli w)) d /\ ~ in_handshake (pc w)
  | _ => False
  end.

(* The states the system can reach; with late_syns = false, by steps none of
   which is a late SYN. *)
Inductive reachable (late_syns : bool) : world -> Prop :=
| reachable_initial w : initial w -> reachable late_syns w
| reachable_step w l w' :
    reachable late_syns w -> step w l w' ->
    (late_syns = false -> ~ late_syn w l) ->
    reachable late_syns w'.

(* ---------------------------- running it ---------------------------- *)

(* The steps as a function, for concrete runs: an action names the process
   that moves, the position in its queue of the datagram it receives, and
   the clock readings. *)
Inductive action : Type :=
| AClientSend (now : Q)
| AClientRecv (i : option nat) (t_ack t_check t_reset : Q)
| AServerRecv (i : nat)
| ANetRecv (i : nat) (now : Q)
| ANetDrain (now : Q).

Definition pick {A} (i : nat) (q : list A) : option (A * list A) :=
  match q !! i with
  | Some a => Some (a, take i q ++ drop (S i) q)
  | None => None
  end.

Definition act (a : action) (w : world) : option (label * world) :=
  match a with
  | AClientSend now =>
      match client_send now (pc w) (cli w) with
      | Some (ph, c) =>
          Some (LClientSend now,
                {| cli := clear_client c; pc := ph; srv := srv w; net := net w;
                   to_net := to_net w ++ map (fun d => (d, cli_addr)) (Client.wire c);
                   to_cli := to_cli w; to_srv := to_srv w |})
      | None => None
      end
  | AClientRecv i t_ack t_check t_reset =>
      let got := match i with
                 | Some i => match pick i (to_cli w) with
                             | Some (d, q) => Some (Some d, q)
                             | None => None
                             end
                 | None => Some (None, to_cli w)
                 end in
      match got with
      | Some (rx, q) =>
          let ev := {| Client.rx := rx; Client.t_ack := t_ack;
                       Client.t_check := t_check; Client.t_reset := t_reset |} in
          match client_recv ev (pc w) (cli w) with
          | Some ph =>
              Some (LClientRecv ev,
                    {| cli := cli w; pc := ph; srv := srv w; net := net w;
                       to_net := to_net w; to_cli := q; to_srv := to_srv w |})
          | None => None
          end
      | None => None
      end
  | AServerRecv i =>
      match pick i (to_srv w) with
      | Some (d, q) =>
          let s := Server.run_step d (srv w) in
          Some (LServerRecv d,
                {| cli := cli w; pc := pc w; srv := clear_server s; net := net w;
                   to_net := to_net w ++ map (fun d => (d, srv_addr)) (Server.wire s);
                   to_cli := to_cli w; to_srv := q |})
      | None => None
      end
  | ANetRecv i now =>
      match pick i (to_net w) with
      | Some ((d, a), q) =>
          let n := snd (Net.process_packet now (recvfrom d) a (net w)) in
          Some (LNetRecv d a now,
                {| cli := cli w; pc := pc w; srv := srv w; net := clear_net n;
                   to_net := q;
                   to_cli := to_cli w ++ delivered_to cli_addr (Net.wire n);
                   to_srv := to_srv w ++ delivered_to srv_addr (Net.wire n) |})
      | None => None
      end
  | ANetDrain now =>
      let n := snd (Net.send_delayed now (net w)) in
      Some (LNetDrain now,
            {| cli := cli w; pc := pc w; srv := srv w; net := clear_net n;
               to_net := to_net w;
               to_cli := to_cli w ++ delivered_to cli_addr (Net.wire n);
               to_srv := to_srv w ++ delivered_to srv_addr (Net.wire n) |})
  end.

Definition in_handshake_b (ph : phase) : bool :=
  match ph with
  | PHandshake _ | PHandshakeWait _ => true
  | _ => false
  end.

(* late_syn as a test *)
Definition late_syn_b (w : world) (l : label) : bool :=
  match l with
  | LServerRecv d =>
      match unpack (recvfrom d) with
      | Ok pkt => (src_port pkt =? Client.port (cli w))
                  && has_flag (flags pkt) FLAG_SYN
                  && negb (in_handshake_b (pc w))
      | Raise _ => false
      end
  | _ => false
  end.

(* Runs the actions in turn; with check = true it stops (None) at a late
   SYN. *)
Fixpoint run (check : bool) (actions : list action) (w : world) : option world :=
  match actions with
  | [] => Some w
  | a :: rest =>
      match act a w with
      | Some (l, w') =>
          if check && late_syn_b w l then None else run check rest w'
      | None => None
      end
  end.

End Steps.

End System.

(* ===================================================================== *)
(* The invariant of the three-process system                              *)
(* ===================================================================== *)

Section SystemInvariant.

(* The sender's virtual port, the receiver's virtual port and the content
   of the sender's input file (None when it does not exist). *)
Variables (Pc Ps : Z) (input : option (list byte)).

(* The chunks transmit_file cuts the input into. *)
Definition input_chunks : list (list byte) :=
  match input with
  | Some f => Client.read_loop (length f) f
  | None => []
  end.

(* The sequence number after the last byte of the input. *)
Definition final_seq : Z := seq_of input_chunks 101 (length input_chunks).

(* 101 plus the number of bytes in the peer's output file. *)
Definition high_water (s : Server.t) : Z :=
  101 + Z.of_nat (length (default [] (Server.disk s !! Pc))).

Definition is_chunk (sq : Z) (payload : list byte) : Prop :=
  exists i, input_chunks !! i = Some payload /\ sq = seq_of input_chunks 101 i.

(* The packets that can be in flight.  stage counts how far the transfer
   has come: 0 nothing handled by the receiver yet, 1 a SYN handled, 2 the
   sender transmits, 3 the sender has left transmit_file.  hw bounds the
   acknowledgements while the sender can still act on them. *)
Definition legit_pkt (stage : nat) (hw : Z) (p : Packet) : Prop :=
  (src_port p = Pc /\ ack p = 0 /\
   ((flags p = FLAG_SYN /\ seq p = 100 /\ data p = []) \/
    (flags p = FLAG_ACK /\ (2 <= stage)%nat /\ is_chunk (seq p) (data p)) \/
    (flags p = FLAG_FIN /\ (3 <= stage)%nat /\ seq p = final_seq /\ data p = [])))
  \/
  (src_port p = Ps /\ seq p = 0 /\ data p = [] /\
   ((flags p = 0 /\ ack p = 0) \/
    ((1 <= stage)%nat /\ flags p = Z.lor FLAG_SYN FLAG_ACK /\
       (ack p = 1 \/ ack p = 101)) \/
    ((1 <= stage)%nat /\ flags p = FLAG_ACK /\ (ack p <= hw \/ (3 <= stage)%nat)))).

Definition legit (stage : nat) (hw : Z) (d : list byte) : Prop :=
  exists p, pack p = Ok d /\ legit_pkt stage hw p.

(* The receiver at a given stage. *)
Definition server_inv (stage : nat) (s : Server.t) : Prop :=
  Server.port s = Ps /\
  (forall cid st fh, Server.clients s !! cid = Some st ->
     Server.current_file st = Some fh -> Server.path fh = cid) /\
  (stage = 0%nat -> Server.clients s = ∅) /\
  (stage = 1%nat -> Server.disk s !! Pc = Some []) /\
  ((1 <= stage)%nat ->
     (exists m, (m <= length input_chunks)%nat /\
                Server.disk s !! Pc = Some (concat (take m input_chunks))) /\
     (forall st, Server.clients s !! Pc = Some st ->
        Server.expected_seq st = high_water s \/ Server.expected_seq st = 1) /\
     (forall cid st, Server.clients s !! cid = Some st -> cid <> Pc ->
        Server.expected_seq st = 1)) /\
  ((3 <= stage)%nat -> Server.disk s !! Pc = Some (concat input_chunks)).

(* The sender at a given stage. *)
Definition client_inv (stage : nat) (hw : Z) (c : Client.t) (ph : System.phase)
  : Prop :=
  Client.port c = Pc /\ Client.file c = input /\
  match ph with
  | System.PHandshake _ | System.PHandshakeWait _ => (stage <= 1)%nat
  | System.PTransmit x | System.PTransmitWait x =>
      stage = 2%nat /\ tx_wf input_chunks 101 x /\ Client.base_seq x <= hw
  | System.PTeardown fs _ | System.PTeardownWait fs _ =>
      stage = 3%nat /\ fs = final_seq
  | System.PDone => stage = 3%nat
  | System.PCrashed _ => True
  end.

(* Every datagram held anywhere is the encoding of a legitimate packet. *)
Definition datagrams_inv (stage : nat) (hw : Z) (w : System.world) : Prop :=
  Forall (legit stage hw) (Client.wire (System.cli w)) /\
  Forall (legit stage hw) (Server.wire (System.srv w)) /\
  Forall (fun e => legit stage hw (fst e)) (Net.wire (System.net w)) /\
  Forall (fun e => legit stage hw (snd (fst e)))
         (Net.delayed_packets (System.net w)) /\
  Forall (fun e => legit stage hw (fst e)) (System.to_net w) /\
  Forall (legit stage hw) (System.to_cli w) /\
  Forall (legit stage hw) (System.to_srv w).

Definition system_inv (w : System.world) : Prop :=
  exists stage,
    client_inv stage (high_water (System.srv w)) (System.cli w) (System.pc w) /\
    server_inv stage (System.srv w) /\
    datagrams_inv stage (high_water (System.srv w)) w.

End SystemInvariant.

(* ===================================================================== *)
(* Concrete inputs used by the examples below                             *)
(* ===================================================================== *)

(* random.random() returning the given values in turn, then 0 *)
Definition rng_of (l : list Q) : nat -> Q := fun i => nth i l 0%Q.

Definition net0 (l : list Q) : Net.t :=
  Net.mkNet ∅ [] [] (rng_of l) 0.

(* The datagram of a packet (empty when it cannot be encoded). *)
Definition dgram (p : Packet) : list byte :=
  match pack p with
  | Ok d => d
  | Raise _ => []
  end.

(* A sender on virtual port 40000 and a receiver on virtual port 9999. *)
Definition srv0 : Server.t :=
  {| Server.port := 9999; Server.clients := ∅; Server.disk := ∅;
     Server.wire := [] |}.

Definition cli0 (f : option (list byte)) : Client.t :=
  {| Client.port := 40000; Client.server_port := 9999; Client.file := f;
     Client.wire := [] |}.

(* The sender's SYN (seq = 100). *)
Definition syn100 : Packet := Client.syn_pkt (cli0 None).

(* The first data segment of a two-byte file "hi". *)
Definition data101 : Packet := Client.data_pkt (cli0 None) 101 [x68; x69].

(* An in-order segment without payload. *)
Definition empty101 : Packet := Client.data_pkt (cli0 None) 101 [].

(* A SYN with the largest sequence number. *)
Definition syn_max : Packet :=
  {| src_port := 40000; dst_port := 9999; seq := 4294967295; ack := 0;
     flags := FLAG_SYN; window := 1024; data := [] |}.

(* The receiver after the SYN, and after the SYN and the first segment. *)
Definition srv_syn : Server.t := Server.run_steps [dgram syn100] srv0.
Definition srv_est : Server.t := Server.run_steps [dgram syn100; dgram data101] srv0.

(* A datagram for the sender with only the ACK flag and ack = 101. *)
Definition ack_only101 : Packet :=
  {| src_port := 9999; dst_port := 40000; seq := 0; ack := 101;
     flags := FLAG_ACK; window := 1024; data := [] |}.

(* Chunks given directly, for examples on the loop of transmit_file alone:
   "hi" and "j" with the acknowledgement of the first chunk, and six
   one-byte chunks. *)
Definition two_chunks : list (list byte) := [[x68; x69]; [x6a]].

Definition ack103 : Packet :=
  {| src_port := 9999; dst_port := 40000; seq := 0; ack := 103;
     flags := FLAG_ACK; window := 1024; data := [] |}.

Definition six_chunks : list (list byte) :=
  [[x61]; [x62]; [x63]; [x64]; [x65]; [x66]].

(* A file of 5041 bytes, which read_file_chunks cuts into five chunks of
   1008 bytes and one of a single byte, and its sender. *)
Definition file_5041 : list byte := repeat x61 (5 * 1008 + 1).

Definition cli_5041 : Client.t := cli0 (Some file_5041).

Definition chunks_5041 : list (list byte) :=
  default [] (Client.read_file_chunks cli_5041).

(* Acknowledgements for that transfer (start_seq = 101): of the first two
   chunks, and of all six. *)
Definition ack2117 : Packet :=
  {| src_port := 9999; dst_port := 40000; seq := 0; ack := 2117;
     flags := FLAG_ACK; window := 1024; data := [] |}.



(* The transfer of file_5041 after the first send loop (chunks 0 to 4 are
   sent), then after ack2117 was processed, then after a timeout test one
   second later. *)
Definition tx_5041_sent : Client.tx :=
  match fst (Client.send_loop 6 (Client.tx_init chunks_5041 101 0) cli_5041) with
  | Ok x => x
  | Raise _ => Client.tx_init chunks_5041 101 0
  end.




(* A complete system: the sender on virtual port 40000 with the two-byte
   input "hi", the receiver on virtual port 9999 and the mediator, whose
   random.random() returns the values of rng. *)
Definition cli_a : Net.addr := ("127.0.0.1"%string, 40000).
Definition srv_a : Net.addr := ("127.0.0.1"%string, 9999).

Definition world0 (rng : nat -> Q) : System.world :=
  {| System.cli := cli0 (Some [x68; x69]);
     System.pc := System.PHandshake 0;
     System.srv := srv0;
     System.net := Net.mkNet ∅ [] [] rng 0;
     System.to_net := map (fun d => (d, srv_a))
                          (Server.wire (snd (Server.register_with_net srv0)));
     System.to_cli := [];
     System.to_srv := [] |}.

(* A run without impairment: every trial of the mediator draws 1/2. *)
Definition plain_actions : list System.action :=
  [System.ANetRecv 0 0;                       (* registration of 9999 *)
   System.AClientSend 0;                      (* SYN *)
   System.ANetRecv 0 (1 # 100);               (* forwarded *)
   System.AServerRecv 0;                      (* SYN-ACK *)
   System.ANetRecv 0 (2 # 100);
   System.AClientRecv (Some 0%nat) (3 # 100) (3 # 100) (3 # 100);
   System.AClientSend (3 # 100);              (* the segment "hi" *)
   System.ANetRecv 0 (4 # 100);
   System.AServerRecv 0;                      (* written, ACK 103 *)
   System.ANetRecv 0 (5 # 100);
   System.AClientRecv (Some 0%nat) (6 # 100) (6 # 100) (6 # 100);
   System.AClientSend (6 # 100);              (* transmit_file returns 103 *)
   System.AClientSend (6 # 100);              (* FIN *)
   System.ANetRecv 0 (7 # 100);
   System.AServerRecv 0;                      (* FIN-ACK, state discarded *)
   System.ANetRecv 0 (8 # 100);
   System.AClientRecv (Some 0%nat) (9 # 100) (9 # 100) (9 # 100)].

Definition plain_final : System.world :=
  default (world0 (fun _ => 1 # 2))
          (System.run cli_a srv_a true plain_actions (world0 (fun _ => 1 # 2))).

(* A run in which the mediator delays the first SYN by 1.5 s (third trial
   1/20 < DELAY_PROBABILITY, uniform draw 2/3): the sender's first wait
   times out after 0.5 s, its second SYN gets through, the transfer of "hi"
   and the teardown complete within a tenth of a second, and at 1.5 s the
   mediator delivers the first SYN. *)
Definition delayed_syn_rng : nat -> Q :=
  rng_of ([1 # 2; 1 # 2; 1 # 20; 2 # 3] ++ repeat (1 # 2) 30).

Definition delayed_syn_actions : list System.action :=
  [System.ANetRecv 0 0;                       (* registration of 9999 *)
   System.AClientSend 0;                      (* first SYN *)
   System.ANetRecv 0 0;                       (* delayed until 3/2 *)
   System.AClientRecv None (1 # 2) (1 # 2) (1 # 2);   (* the wait times out *)
   System.AClientSend (1 # 2);                (* second SYN *)
   System.ANetRecv 0 (1 # 2);                 (* forwarded *)
   System.AServerRecv 0;                      (* SYN-ACK *)
   System.ANetRecv 0 (51 # 100);
   System.AClientRecv (Some 0%nat) (52 # 100) (52 # 100) (52 # 100);
   System.AClientSend (52 # 100);             (* the segment "hi" *)
   System.ANetRecv 0 (53 # 100);
   System.AServerRecv 0;                      (* written, ACK 103 *)
   System.ANetRecv 0 (54 # 100);
   System.AClientRecv (Some 0%nat) (55 # 100) (55 # 100) (55 # 100);
   System.AClientSend (55 # 100);             (* transmit_file returns 103 *)
   System.AClientSend (55 # 100);             (* FIN *)
   System.ANetRecv 0 (56 # 100);
   System.AServerRecv 0;                      (* FIN-ACK, state discarded *)
   System.ANetRecv 0 (57 # 100);
   System.AClientRecv (Some 0%nat) (58 # 100) (58 # 100) (58 # 100);
   System.ANetDrain (3 # 2);                  (* the first SYN is due *)
   System.AServerRecv 0].                     (* handle_syn truncates *)

Definition delayed_syn_final : System.world :=
  default (world0 delayed_syn_rng)
          (System.run cli_a srv_a false delayed_syn_actions (world0 delayed_syn_rng)).


(* The acknowledgement of both chunks of two_chunks, the turn of the loop
   of transmit_file in which it arrives, and the acknowledgement of a FIN
   with sequence number 104. *)
Definition ack104 : Packet :=
  {| src_port := 9999; dst_port := 40000; seq := 0; ack := 104;
     flags := FLAG_ACK; window := 1024; data := [] |}.

Definition turn_ack104 : Client.tx_event :=
  {| Client.rx := Some (dgram ack104); Client.t_ack := 1 # 100;
     Client.t_check := 2 # 100; Client.t_reset := 2 # 100 |}.

Definition ack105 : Packet :=
  {| src_port := 9999; dst_port := 40000; seq := 0; ack := 105;
     flags := FLAG_ACK; window := 1024; data := [] |}.

(* A turn in which the poll times out. *)
Definition turn_silent : Client.tx_event :=
  {| Client.rx := None; Client.t_ack := 1; Client.t_check := 1;
     Client.t_reset := 1 |}.

(* In the variant without mediator: the datagram of a packet (empty when it
   cannot be encoded), and a late acknowledgement of data. *)
Definition py_dgram (p : Py.Packet) : list byte :=
  match Py.pack p with
  | Ok d => d
  | Raise _ => []
  end.

Definition py_stale_ack : Py.Packet :=
  {| Py.seq := 0; Py.ack := 5000; Py.flags := FLAG_ACK; Py.window := 1024;
     Py.data := [] |}.

(* In the variant without mediator: a file of 5061 bytes, which
   read_file_chunks cuts into five chunks of 1012 bytes and one of a single
   byte; a datagram without any flag whose ack field covers the first two
   chunks (start_seq = 101), and an acknowledgement of all six chunks. *)
Definition file_5061 : list byte := repeat x61 (5 * 1012 + 1).

Definition py_chunks_5061 : list (list byte) :=
  default [] (Py.read_file_chunks (Some file_5061)).

Definition py_noflag_2125 : Py.Packet :=
  {| Py.seq := 0; Py.ack := 2125; Py.flags := 0; Py.window := 1024;
     Py.data := [] |}.

Definition py_ack5162 : Py.Packet :=
  {| Py.seq := 0; Py.ack := 5162; Py.flags := FLAG_ACK; Py.window := 1024;
     Py.data := [] |}.

Definition py_turn_with (p : Py.Packet) : Py.tx_event :=
  {| Py.rx := Some (py_dgram p); Py.t_ack := 1 # 100;
     Py.t_check := 2 # 100; Py.t_reset := 2 # 100 |}.

(* The state of transmit_file of py/client.py on py_chunks_5061 after the
   first turn of its loop in which the poll returns the datagram of p. *)
Definition py_tx_5061_after (p : Py.Packet) : Py.tx :=
  match fst (Py.transmit_iter (py_turn_with p)
               (Py.tx_init py_chunks_5061 101 0) []) with
  | Ok x => x
  | Raise _ => Py.tx_init py_chunks_5061 101 0
  end.

(* ===================================================================== *)
(* Notions used to state further properties of the three programs         *)
(* ===================================================================== *)

(* The first index the send loop of transmit_file does not reach:
   min(total_chunks, base_idx + WINDOW_SIZE). *)
Definition window_end (x : Client.tx) : nat :=
  Nat.min (Client.total_chunks x) (Client.base_idx x + WINDOW_SIZE).

(* ds are the datagrams of the chunks first, first + 1, ... of cs, one for
   each and in this order, as the sender c packs them. *)
Fixpoint chunk_dgrams (c : Client.t) (cs : list (list byte)) (start_seq : Z)
    (first : nat) (ds : list (list byte)) : Prop :=
  match ds with
  | [] => True
  | d :: ds' =>
      (exists chunk, cs !! first = Some chunk /\
         pack (Client.data_pkt c (seq_of cs start_seq first) chunk) = Ok d) /\
      chunk_dgrams c cs start_seq (S first) ds'
  end.

(* The header fields of every data segment of the transfer fit their wire
   widths: both virtual ports are 16-bit and the sequence numbers, from
   start_seq to the end of the last chunk, stay below 2^32. *)
Definition sendable (c : Client.t) (cs : list (list byte)) (start_seq : Z) : Prop :=
  0 <= Client.port c < 2^16 /\ 0 <= Client.server_port c < 2^16 /\
  0 <= start_seq /\ seq_of cs start_seq (length cs) < 2^32.

(* A run of the loop of transmit_file without loss: in every turn the poll
   returns the acknowledgement of everything sent so far (the window that
   starts at chunk b), and the timeout test comes within TIMEOUT of it. *)
Fixpoint prompt_acks (cs : list (list byte)) (start_seq : Z) (b : nat)
    (env : list Client.tx_event) : Prop :=
  match env with
  | [] => True
  | ev :: env' =>
      let e := Nat.min (length cs) (b + WINDOW_SIZE) in
      (exists r, Client.wait_for_packet (Client.rx ev) = Some r /\
                 has_flag (flags r) FLAG_ACK = true /\
                 ack r = seq_of cs start_seq e) /\
      (Client.t_check ev - Client.t_ack ev <= Client.TIMEOUT)%Q /\
      prompt_acks cs start_seq e env'
  end.

(* The poll of transmit_file brings nothing that moves the window: no
   datagram, one that does not decode, one without the ACK flag, or an
   acknowledgement not above start_seq (such as a repeated SYN-ACK). *)
Definition no_progress (start_seq : Z) (ev : Client.tx_event) : Prop :=
  forall r, Client.wait_for_packet (Client.rx ev) = Some r ->
    has_flag (flags r) FLAG_ACK && (start_seq <? ack r) = false.

(* The variables of transmit_file of py/client.py are consistent: the
   window lies between base_idx and next_idx, at most WINDOW_SIZE wide and
   within the chunks; base_seq is the sequence number at which chunk
   base_idx begins; and the table filled while sending holds, for every
   chunk of the window, the sequence number at which it begins. *)
Definition py_tx_inv (cs : list (list byte)) (initial_seq : Z) (x : Py.tx) : Prop :=
  Py.chunks x = cs /\
  (Py.base_idx x <= Py.next_idx x)%nat /\
  (Py.next_idx x <= Py.base_idx x + WINDOW_SIZE)%nat /\
  (Py.next_idx x <= length cs)%nat /\
  Py.base_seq x = seq_of cs initial_seq (Py.base_idx x) /\
  (forall i, (Py.base_idx x <= i < Py.next_idx x)%nat ->
             Py.seq_window x !! i = Some (seq_of cs initial_seq i)).

(* The tests of perform_handshake and perform_teardown of py/client.py on
   the outcome of a wait: a datagram that decodes and has one of the flags
   SYN and ACK, respectively the flag ACK. *)
Definition py_syn_acked (rx : option (list byte)) : bool :=
  match Py.receive rx with
  | Some pkt => has_flag (Py.flags pkt) (Z.lor FLAG_SYN FLAG_ACK)
  | None => false
  end.

Definition py_fin_acked (rx : option (list byte)) : bool :=
  match Py.receive rx with
  | Some pkt => has_flag (Py.flags pkt) FLAG_ACK
  | None => false
  end.

(* ===================================================================== *)
(* Properties                                                             *)
(* ===================================================================== *)

(* --------------------------------------------------------------------- *)
(* The monad                                                              *)
(* --------------------------------------------------------------------- *)

Lemma bind_Ok {S A B} (m : M S A) (f : A -> M S B) (s s' : S) (a : A) :
  m s = (Ok a, s') -> (m ≫= f) s = f a s'.
Proof. intros H. unfold mbind, M_bind. by rewrite H. Qed.

Lemma bind_Raise {S A B} (m : M S A) (f : A -> M S B) (s s' : S) (e : exn) :
  m s = (Raise e, s') -> (m ≫= f) s = (Raise e, s').
Proof. intros H. unfold mbind, M_bind. by rewrite H. Qed.

Lemma Qlt_bool_iff (x y : Q) : Qlt_bool x y = true <-> (x < y)%Q.
Proof.
  unfold Qlt_bool. rewrite negb_true_iff, <- not_true_iff_false, Qle_bool_iff.
  split; [apply Qnot_le_lt | apply Qlt_not_le].
Qed.

Lemma Qlt_bool_false_iff (x y : Q) : Qlt_bool x y = false <-> (y <= x)%Q.
Proof.
  unfold Qlt_bool. rewrite negb_false_iff. apply Qle_bool_iff.
Qed.

(* --------------------------------------------------------------------- *)
(* Wire codec                                                             *)
(* --------------------------------------------------------------------- *)

Lemma Z_of_byte_range (b : byte) : 0 <= Z_of_byte b < 256.
Proof.
  unfold Z_of_byte. pose proof (Byte.to_N_bounded b) as H.
  split; [apply N2Z.is_nonneg|]. lia.
Qed.

Lemma Z_of_byte_of_Z (z : Z) : Z_of_byte (byte_of_Z z) = z mod 256.
Proof.
  unfold Z_of_byte, byte_of_Z.
  assert (Hr : 0 <= z mod 256 < 256) by (apply Z.mod_pos_bound; lia).
  destruct (Byte.of_N (Z.to_N (z mod 256))) as [b|] eqn:E.
  - apply Byte.to_of_N in E. rewrite E. rewrite Z2N.id; lia.
  - apply Byte.of_N_None_iff in E. lia.
Qed.

Lemma be16_decode (z : Z) : 0 <= z < 2^16 -> be_decode (be16 z) = z.
Proof.
  intros Hz. unfold be_decode, be16. simpl.
  rewrite !Z_of_byte_of_Z, Z.shiftr_div_pow2 by lia.
  change (2^8) with 256.
  rewrite (Z.mod_small (z / 256)) by (split; [apply Z.div_pos; lia | apply Z.div_lt_upper_bound; lia]).
  pose proof (Z.div_mod z 256). lia.
Qed.

Lemma be32_decode (z : Z) : 0 <= z < 2^32 -> be_decode (be32 z) = z.
Proof.
  intros Hz. unfold be_decode, be32. simpl.
  rewrite !Z_of_byte_of_Z, !Z.shiftr_div_pow2 by lia.
  change (2^8) with 256. change (2^16) with 65536. change (2^24) with 16777216.
  rewrite (Z.mod_small (z / 16777216))
    by (split; [apply Z.div_pos; lia | apply Z.div_lt_upper_bound; lia]).
  assert (H1 : (z / 65536) mod 256 = z / 65536 - 256 * (z / 16777216)).
  { rewrite Z.mod_eq by lia. rewrite Z.div_div by lia. reflexivity. }
  assert (H2 : (z / 256) mod 256 = z / 256 - 256 * (z / 65536)).
  { rewrite Z.mod_eq by lia. rewrite Z.div_div by lia. reflexivity. }
  assert (H3 : z mod 256 = z - 256 * (z / 256)).
  { rewrite Z.mod_eq by lia. reflexivity. }
  lia.
Qed.

Lemma fits16_spec (z : Z) : fits16 z = true <-> 0 <= z < 2^16.
Proof. unfold fits16. rewrite andb_true_iff, Z.leb_le, Z.ltb_lt. tauto. Qed.

Lemma fits32_spec (z : Z) : fits32 z = true <-> 0 <= z < 2^32.
Proof. unfold fits32. rewrite andb_true_iff, Z.leb_le, Z.ltb_lt. tauto. Qed.

Lemma struct_pack_in_range (p : Packet) :
  in_range p ->
  struct_pack p = Ok (be16 (src_port p) ++ be16 (dst_port p) ++ be32 (seq p)
                      ++ be32 (ack p) ++ be16 (flags p) ++ be16 (window p)).
Proof.
  intros (H1 & H2 & H3 & H4 & H5 & H6). unfold struct_pack.
  apply fits16_spec in H1, H2, H5, H6. apply fits32_spec in H3, H4.
  by rewrite H1, H2, H3, H4, H5, H6.
Qed.

Lemma struct_pack_Ok (p : Packet) (h : list byte) :
  struct_pack p = Ok h -> in_range p /\ length h = HEADER_SIZE.
Proof.
  unfold struct_pack.
  destruct (fits16 (src_port p)) eqn:E1; [|discriminate].
  destruct (fits16 (dst_port p)) eqn:E2; [|discriminate].
  destruct (fits32 (seq p)) eqn:E3; [|discriminate].
  destruct (fits32 (ack p)) eqn:E4; [|discriminate].
  destruct (fits16 (flags p)) eqn:E5; [|discriminate].
  destruct (fits16 (window p)) eqn:E6; [|discriminate].
  simpl. intros [= <-].
  apply fits16_spec in E1, E2, E5, E6. apply fits32_spec in E3, E4.
  split; [by repeat split; lia | reflexivity].
Qed.

Lemma unpack_header_payload (p : Packet) (payload : list byte) :
  in_range p ->
  unpack (be16 (src_port p) ++ be16 (dst_port p) ++ be32 (seq p)
          ++ be32 (ack p) ++ be16 (flags p) ++ be16 (window p) ++ payload)
  = Ok {| src_port := src_port p; dst_port := dst_port p; seq := seq p;
          ack := ack p; flags := flags p; window := window p;
          data := payload |}.
Proof.
  intros (H1 & H2 & H3 & H4 & H5 & H6).
  unfold unpack.
  change (be16 (src_port p) ++ be16 (dst_port p) ++ be32 (seq p)
          ++ be32 (ack p) ++ be16 (flags p) ++ be16 (window p) ++ payload)
    with ((be16 (src_port p) ++ be16 (dst_port p) ++ be32 (seq p)
          ++ be32 (ack p) ++ be16 (flags p) ++ be16 (window p)) ++ payload).
  set (h := be16 (src_port p) ++ be16 (dst_port p) ++ be32 (seq p)
          ++ be32 (ack p) ++ be16 (flags p) ++ be16 (window p)).
  assert (Hl : length h = HEADER_SIZE) by reflexivity.
  rewrite length_app, Hl.
  destruct (HEADER_SIZE + length payload <? HEADER_SIZE)%nat eqn:E;
    [apply Nat.ltb_lt in E; lia|].
  rewrite <- Hl at 1 2 3 4 5 6 7. rewrite take_app_length, drop_app_length.
  f_equal. subst h.
  change (slice 0 2 _) with (be16 (src_port p)).
  change (slice 2 4 _) with (be16 (dst_port p)).
  change (slice 4 8 _) with (be32 (seq p)).
  change (slice 8 12 _) with (be32 (ack p)).
  change (slice 12 14 _) with (be16 (flags p)).
  change (slice 14 16 _) with (be16 (window p)).
  rewrite !be16_decode, !be32_decode by assumption. reflexivity.
Qed.

Lemma pack_in_range (p : Packet) :
  in_range p ->
  pack p = Ok (be16 (src_port p) ++ be16 (dst_port p) ++ be32 (seq p)
               ++ be32 (ack p) ++ be16 (flags p) ++ be16 (window p) ++ data p).
Proof.
  intros H. unfold pack. rewrite (struct_pack_in_range p H).
  by rewrite <- !app_assoc.
Qed.

Lemma pack_Ok_in_range (p : Packet) (d : list byte) :
  pack p = Ok d -> in_range p.
Proof.
  unfold pack. destruct (struct_pack p) as [h|e] eqn:E; [|discriminate].
  intros _. by apply struct_pack_Ok in E as [? _].
Qed.

Lemma pack_Raise (p : Packet) (e : exn) :
  pack p = Raise e -> e = StructError /\ ~ in_range p.
Proof.
  unfold pack. destruct (struct_pack p) as [h|e'] eqn:E; [discriminate|].
  intros [= ->]. split.
  - unfold struct_pack in E. by destruct (_ && _); [discriminate | injection E].
  - intros Hr. rewrite (struct_pack_in_range p Hr) in E. discriminate.
Qed.

Lemma unpack_pack (p : Packet) (d : list byte) :
  pack p = Ok d -> unpack d = Ok p.
Proof.
  intros H. pose proof (pack_Ok_in_range p d H) as Hr.
  rewrite (pack_in_range p Hr) in H. injection H as H. subst d.
  etransitivity; [apply (unpack_header_payload p (data p) Hr)|]. by destruct p.
Qed.

Lemma pack_length (p : Packet) (d : list byte) :
  pack p = Ok d -> length d = (HEADER_SIZE + length (data p))%nat.
Proof.
  unfold pack. destruct (struct_pack p) as [h|e] eqn:E; [|discriminate].
  intros [= <-]. apply struct_pack_Ok in E as [_ E].
  by rewrite length_app, E.
Qed.

(** C7: for every packet whose six header fields fit their wire widths,
    with any payload, Packet.pack succeeds and Packet.unpack of its result
    gives back the same packet: the same six header fields and the same
    payload. *)
Theorem codec_round_trip (p : Packet) :
  in_range p ->
  exists d, pack p = Ok d /\ unpack d = Ok p.
Proof.
  intros Hr. eexists. split; [apply (pack_in_range p Hr)|].
  apply unpack_pack, (pack_in_range p Hr).
Qed.

Lemma codec_round_trip_witness :
  let p := {| src_port := 40000; dst_port := 9999; seq := 4294967295; ack := 101;
              flags := 3; window := 1024; data := [x68; x69] |} in
  in_range p /\ exists d, pack p = Ok d /\ unpack d = Ok p.
Proof.
  intros p.
  assert (Hr : in_range p) by (unfold in_range, p; simpl; lia).
  split; [exact Hr | exact (codec_round_trip p Hr)].
Defined.

(** C9 (amended): the malformed-datagram threshold is the header size of
    each codec.  Packet.unpack of py-med/shared.py raises ValueError exactly
    when the buffer is shorter than 16 bytes; on every buffer of at least 16
    bytes it succeeds and the payload is the buffer without its first 16
    bytes, so its length is the buffer's length minus 16.  Packet.unpack of
    py/shared.py, whose header has no port fields, does the same with 12 in
    place of 16. *)
Theorem unpack_malformed_iff (buffer : list byte) :
  ((unpack buffer = Raise ValueError <-> (length buffer < 16)%nat) /\
   ((16 <= length buffer)%nat ->
      exists p, unpack buffer = Ok p /\ data p = drop 16 buffer /\
                length (data p) = (length buffer - 16)%nat)) /\
  ((Py.unpack buffer = Raise ValueError <-> (length buffer < 12)%nat) /\
   ((12 <= length buffer)%nat ->
      exists p, Py.unpack buffer = Ok p /\ Py.data p = drop 12 buffer /\
                length (Py.data p) = (length buffer - 12)%nat)).
Proof.
  split.
  - unfold unpack. change HEADER_SIZE with 16%nat.
    destruct (length buffer <? 16)%nat eqn:E.
    + apply Nat.ltb_lt in E. split; [tauto | lia].
    + apply Nat.ltb_ge in E. split.
      * split; [discriminate | lia].
      * intros _. eexists. split; [reflexivity|]. simpl.
        split; [reflexivity | apply length_drop].
  - unfold Py.unpack. change Py.HEADER_SIZE with 12%nat.
    destruct (length buffer <? 12)%nat eqn:E.
    + apply Nat.ltb_lt in E. split; [tauto | lia].
    + apply Nat.ltb_ge in E. split.
      * split; [discriminate | lia].
      * intros _. eexists. split; [reflexivity|]. simpl.
        split; [reflexivity | apply length_drop].
Qed.

Lemma unpack_malformed_iff_witness :
  (exists p, unpack (repeat x00 16 ++ [x41; x42; x43]) = Ok p /\
             data p = drop 16 (repeat x00 16 ++ [x41; x42; x43]) /\
             length (data p) = (length (repeat x00 16 ++ [x41; x42; x43]) - 16)%nat) /\
  (exists p, Py.unpack (repeat x00 12 ++ [x41; x42; x43]) = Ok p /\
             Py.data p = drop 12 (repeat x00 12 ++ [x41; x42; x43]) /\
             length (Py.data p)
             = (length (repeat x00 12 ++ [x41; x42; x43]) - 12)%nat).
Proof.
  split.
  - apply (proj2 (proj1 (unpack_malformed_iff (repeat x00 16 ++ [x41; x42; x43])))).
    simpl. lia.
  - apply (proj2 (proj2 (unpack_malformed_iff (repeat x00 12 ++ [x41; x42; x43])))).
    simpl. lia.
Defined.

(** C9 (as stated) fails on py/shared.py: a buffer of 14 bytes is shorter
    than 16 bytes, yet Packet.unpack succeeds on it, with the last two
    bytes as payload; and on a buffer of 16 bytes the payload has 4 bytes,
    not 16 - 16 = 0. *)
Lemma py_unpack_accepts_short_buffer :
  (length (repeat x00 12 ++ [x41; x42]) < 16)%nat /\
  (exists p, Py.unpack (repeat x00 12 ++ [x41; x42]) = Ok p /\
             Py.data p = [x41; x42]) /\
  (exists p, Py.unpack (repeat x00 16) = Ok p /\ length (Py.data p) = 4%nat) /\
  ~ (forall buffer : list byte,
       (Py.unpack buffer = Raise ValueError <-> (length buffer < 16)%nat) /\
       ((16 <= length buffer)%nat ->
          exists p, Py.unpack buffer = Ok p /\
                    length (Py.data p) = (length buffer - 16)%nat)).
Proof.
  split; [cbn; lia|]. split; [eexists; split; reflexivity|].
  split; [eexists; split; reflexivity|].
  intros H. destruct (H (repeat x00 12 ++ [x41; x42])) as [[_ Hraise] _].
  assert (Hlt : (length (repeat x00 12 ++ [x41; x42]) < 16)%nat) by (cbn; lia).
  specialize (Hraise Hlt). discriminate Hraise.
Qed.

(* --------------------------------------------------------------------- *)
(* Network mediator                                                       *)
(* --------------------------------------------------------------------- *)

Lemma uniform_bounds (a b u : Q) :
  (a <= b)%Q -> (0 <= u)%Q -> (u <= 1)%Q ->
  (a <= a + (b - a) * u)%Q /\ (a + (b - a) * u <= b)%Q.
Proof.
  intros Hab H0 H1.
  assert (Hd : (0 <= b - a)%Q).
  { apply (Qplus_le_r _ _ a). ring_simplify. exact Hab. }
  split.
  - rewrite <- (Qplus_0_r a) at 1. apply Qplus_le_r.
    apply Qmult_le_0_compat; assumption.
  - assert (H : ((b - a) * u <= (b - a) * 1)%Q).
    { rewrite !(Qmult_comm (b - a)). apply Qmult_le_compat_r; assumption. }
    apply (Qplus_le_r _ _ a) in H. ring_simplify in H. ring_simplify.
    exact H.
Qed.

(** C6: handle_simulation_and_forward evaluates the drop, duplicate and
    delay trials in that order and stops at the first that fires.  With
    r1, r2, r3, u the next values of random.random():
    - r1 < DROP_PROBABILITY: nothing is sent or queued, one value drawn;
    - else r2 < DUPLICATE_PROBABILITY: the datagram is sent exactly twice at
      once, nothing is queued, and no further trial is made (two values
      drawn);
    - else r3 < DELAY_PROBABILITY: nothing is sent now and the datagram is
      appended to the delay queue with delivery time now + delay, where
      delay = MIN_DELAY + (MAX_DELAY - MIN_DELAY) * u lies between MIN_DELAY
      and MAX_DELAY when u is in [0,1];
    - else the datagram is sent exactly once at once.
    The routing table is never touched and the call never raises. *)
Theorem simulation_short_circuit (now : Q) (d : list byte) (target : Net.addr)
    (n : Net.t) :
  let r1 := Net.rng n (Net.drawn n) in
  let r2 := Net.rng n (S (Net.drawn n)) in
  let r3 := Net.rng n (S (S (Net.drawn n))) in
  let u := Net.rng n (S (S (S (Net.drawn n)))) in
  let delay := (Net.MIN_DELAY + (Net.MAX_DELAY - Net.MIN_DELAY) * u)%Q in
  let res := Net.handle_simulation_and_forward now d target n in
  let n' := snd res in
  fst res = Ok tt /\ Net.mapping n' = Net.mapping n /\ Net.rng n' = Net.rng n /\
  ((r1 < Net.DROP_PROBABILITY)%Q ->
     Net.wire n' = Net.wire n /\
     Net.delayed_packets n' = Net.delayed_packets n /\
     Net.drawn n' = S (Net.drawn n)) /\
  (~ (r1 < Net.DROP_PROBABILITY)%Q -> (r2 < Net.DUPLICATE_PROBABILITY)%Q ->
     Net.wire n' = Net.wire n ++ [(d, target); (d, target)] /\
     Net.delayed_packets n' = Net.delayed_packets n /\
     Net.drawn n' = S (S (Net.drawn n))) /\
  (~ (r1 < Net.DROP_PROBABILITY)%Q -> ~ (r2 < Net.DUPLICATE_PROBABILITY)%Q ->
   (r3 < Net.DELAY_PROBABILITY)%Q ->
     Net.wire n' = Net.wire n /\
     Net.delayed_packets n' = Net.delayed_packets n ++ [((now + delay)%Q, d, target)] /\
     Net.drawn n' = S (S (S (S (Net.drawn n)))) /\
     ((0 <= u)%Q -> (u <= 1)%Q ->
        (Net.MIN_DELAY <= delay)%Q /\ (delay <= Net.MAX_DELAY)%Q)) /\
  (~ (r1 < Net.DROP_PROBABILITY)%Q -> ~ (r2 < Net.DUPLICATE_PROBABILITY)%Q ->
   ~ (r3 < Net.DELAY_PROBABILITY)%Q ->
     Net.wire n' = Net.wire n ++ [(d, target)] /\
     Net.delayed_packets n' = Net.delayed_packets n /\
     Net.drawn n' = S (S (S (Net.drawn n)))).
Proof.
  intros r1 r2 r3 u delay res n'.
  assert (Hres : res =
    (Ok tt,
     if Qlt_bool r1 Net.DROP_PROBABILITY then
       Net.mkNet (Net.mapping n) (Net.delayed_packets n) (Net.wire n)
                 (Net.rng n) (S (Net.drawn n))
     else if Qlt_bool r2 Net.DUPLICATE_PROBABILITY then
       Net.mkNet (Net.mapping n) (Net.delayed_packets n)
                 ((Net.wire n ++ [(d, target)]) ++ [(d, target)])
                 (Net.rng n) (S (S (Net.drawn n)))
     else if Qlt_bool r3 Net.DELAY_PROBABILITY then
       Net.mkNet (Net.mapping n)
                 (Net.delayed_packets n ++ [((now + delay)%Q, d, target)])
                 (Net.wire n) (Net.rng n) (S (S (S (S (Net.drawn n)))))
     else
       Net.mkNet (Net.mapping n) (Net.delayed_packets n)
                 (Net.wire n ++ [(d, target)])
                 (Net.rng n) (S (S (S (Net.drawn n)))))).
  { subst res r1 r2 r3 delay u. unfold Net.handle_simulation_and_forward.
    unfold mbind, M_bind, Net.uniform, Net.random, Net.send_packet, modify,
      Net.set_wire, Net.set_delayed, mret, M_ret.
    cbn -[Qlt_bool Qplus Qmult Qminus].
    destruct (Qlt_bool (Net.rng n (Net.drawn n)) _); [reflexivity|].
    cbn -[Qlt_bool Qplus Qmult Qminus].
    destruct (Qlt_bool (Net.rng n (S (Net.drawn n))) _); [reflexivity|].
    cbn -[Qlt_bool Qplus Qmult Qminus].
    destruct (Qlt_bool (Net.rng n (S (S (Net.drawn n)))) _); reflexivity. }
  subst n'. rewrite Hres. cbn [fst snd]. clear Hres res.
  destruct (Qlt_bool r1 Net.DROP_PROBABILITY) eqn:E1;
    [apply Qlt_bool_iff in E1
    |assert (N1 : ~ (r1 < Net.DROP_PROBABILITY)%Q)
       by (rewrite <- Qlt_bool_iff; congruence)].
  { cbn. repeat split; try tauto. }
  destruct (Qlt_bool r2 Net.DUPLICATE_PROBABILITY) eqn:E2;
    [apply Qlt_bool_iff in E2
    |assert (N2 : ~ (r2 < Net.DUPLICATE_PROBABILITY)%Q)
       by (rewrite <- Qlt_bool_iff; congruence)].
  { cbn. rewrite <- app_assoc. repeat split; try tauto. }
  destruct (Qlt_bool r3 Net.DELAY_PROBABILITY) eqn:E3;
    [apply Qlt_bool_iff in E3
    |assert (N3 : ~ (r3 < Net.DELAY_PROBABILITY)%Q)
       by (rewrite <- Qlt_bool_iff; congruence)].
  { cbn [Net.mapping Net.rng Net.wire Net.delayed_packets Net.drawn].
    split; [done|]. split; [done|]. split; [done|].
    split; [tauto|]. split; [tauto|]. split; [|tauto].
    intros _ _ _. split; [done|]. split; [done|]. split; [done|].
    intros H0 H1. apply uniform_bounds; [done | exact H0 | exact H1]. }
  cbn. repeat split; try tauto.
Qed.

Lemma simulation_short_circuit_witness :
  let d := [x01; x02] in
  let target : Net.addr := ("127.0.0.1"%string, 9999) in
  (* drop *)
  Net.wire (snd (Net.handle_simulation_and_forward 7 d target (net0 [1#20]))) = [] /\
  (* duplicate *)
  Net.wire (snd (Net.handle_simulation_and_forward 7 d target
                   (net0 [1#2; 1#20]))) = [(d, target); (d, target)] /\
  (* delay *)
  Net.delayed_packets (snd (Net.handle_simulation_and_forward 7 d target
                   (net0 [1#2; 1#2; 1#20; 1#3])))
    = [((7 + (Net.MIN_DELAY + (Net.MAX_DELAY - Net.MIN_DELAY) * (1#3)))%Q, d, target)] /\
  (* forward *)
  Net.wire (snd (Net.handle_simulation_and_forward 7 d target
                   (net0 [1#2; 1#2; 1#2]))) = [(d, target)].
Proof.
  intros d target.
  split; [|split; [|split]].
  - destruct (simulation_short_circuit 7 d target (net0 [1#20]))
      as (_ & _ & _ & Hdrop & _).
    apply Hdrop. reflexivity.
  - destruct (simulation_short_circuit 7 d target (net0 [1#2; 1#20]))
      as (_ & _ & _ & _ & Hdup & _).
    apply Hdup; [discriminate | reflexivity].
  - destruct (simulation_short_circuit 7 d target (net0 [1#2; 1#2; 1#20; 1#3]))
      as (_ & _ & _ & _ & _ & Hdelay & _).
    apply Hdelay; [discriminate | discriminate | reflexivity].
  - destruct (simulation_short_circuit 7 d target (net0 [1#2; 1#2; 1#2]))
      as (_ & _ & _ & _ & _ & _ & Hfwd).
    apply Hfwd; discriminate.
Defined.

(* --------------------------------------------------------------------- *)
(* Receiver                                                               *)
(* --------------------------------------------------------------------- *)

Lemma server_send_Ok (s : Server.t) (pkt : Packet) (d : list byte) :
  pack pkt = Ok d ->
  Server.send_to_net pkt s = (Ok tt, Server.set_wire (fun w => w ++ [d]) s).
Proof.
  intros H. unfold Server.send_to_net, mbind, M_bind, lift_result.
  by rewrite H.
Qed.

Lemma server_send_Raise (s : Server.t) (pkt : Packet) (e : exn) :
  pack pkt = Raise e -> Server.send_to_net pkt s = (Raise e, s).
Proof.
  intros H. unfold Server.send_to_net, mbind, M_bind, lift_result.
  by rewrite H.
Qed.

(* handle_syn when the SYN-ACK can be encoded: whatever the entry for
   client_id was, it is replaced, the file is emptied and reopened, and one
   SYN-ACK is sent. *)
Lemma handle_syn_Ok (s : Server.t) (client_id : Z) (pkt : Packet) (d : list byte) :
  pack (Server.syn_ack_pkt s client_id (seq pkt + 1)) = Ok d ->
  Server.handle_syn client_id pkt s =
  (Ok tt,
   {| Server.port := Server.port s;
      Server.clients :=
        <[client_id := {| Server.expected_seq := seq pkt + 1;
                          Server.current_file :=
                            Some {| Server.path := client_id;
                                    Server.closed := false |} |}]>
          (Server.clients s);
      Server.disk := <[client_id := []]> (Server.disk s);
      Server.wire := Server.wire s ++ [d] |}).
Proof.
  intros H. unfold Server.handle_syn, Server.open_wb.
  unfold mbind at 1, M_bind at 1. cbn [modify].
  unfold mbind at 1, M_bind at 1. cbn [get_state].
  unfold mbind at 1, M_bind at 1.
  erewrite server_send_Ok by exact H.
  unfold mbind, M_bind, modify, Server.set_clients, Server.set_disk,
    Server.set_wire. cbn.
  by rewrite alter_insert_eq.
Qed.

(* handle_syn when the SYN-ACK cannot be encoded: the exception leaves the
   new entry without a file and the disk as it was. *)
Lemma handle_syn_Raise (s : Server.t) (client_id : Z) (pkt : Packet) (e : exn) :
  pack (Server.syn_ack_pkt s client_id (seq pkt + 1)) = Raise e ->
  Server.handle_syn client_id pkt s =
  (Raise e,
   {| Server.port := Server.port s;
      Server.clients :=
        <[client_id := {| Server.expected_seq := seq pkt + 1;
                          Server.current_file := None |}]> (Server.clients s);
      Server.disk := Server.disk s;
      Server.wire := Server.wire s |}).
Proof.
  intros H. unfold Server.handle_syn.
  unfold mbind at 1, M_bind at 1. cbn [modify].
  unfold mbind at 1, M_bind at 1. cbn [get_state].
  unfold mbind at 1, M_bind at 1.
  erewrite server_send_Raise by exact H. reflexivity.
Qed.

(* The SYN-ACK can be encoded unless pkt.seq + 1 leaves the 32-bit range. *)
Lemma syn_ack_in_range (s : Server.t) (client_id sq : Z) :
  0 <= Server.port s < 2^16 -> 0 <= client_id < 2^16 -> 0 <= sq < 2^32 - 1 ->
  in_range (Server.syn_ack_pkt s client_id (sq + 1)).
Proof.
  intros ???. unfold in_range, Server.syn_ack_pkt.
  cbn [src_port dst_port seq ack flags window].
  change (Z.lor FLAG_SYN FLAG_ACK) with 3. lia.
Qed.

(* What C10 describes, for every SYN whose seq is below 2^32 - 1: the entry
   is replaced and the file truncated whatever the previous state. *)
Lemma handle_syn_reinitializes (s : Server.t) (client_id : Z) (pkt : Packet) :
  0 <= Server.port s < 2^16 -> 0 <= client_id < 2^16 ->
  0 <= seq pkt < 2^32 - 1 ->
  let res := Server.handle_syn client_id pkt s in
  fst res = Ok tt /\
  Server.clients (snd res) !! client_id =
    Some {| Server.expected_seq := seq pkt + 1;
            Server.current_file := Some {| Server.path := client_id;
                                           Server.closed := false |} |} /\
  Server.disk (snd res) !! client_id = Some [] /\
  exists d, pack (Server.syn_ack_pkt s client_id (seq pkt + 1)) = Ok d /\
            Server.wire (snd res) = Server.wire s ++ [d].
Proof.
  intros Hp Hc Hs res.
  pose proof (pack_in_range _ (syn_ack_in_range _ _ _ Hp Hc Hs)) as Hd.
  subst res. rewrite (handle_syn_Ok s client_id pkt _ Hd). cbn [fst snd].
  split; [done|]. cbn [Server.clients Server.disk Server.wire].
  rewrite !lookup_insert_eq. eauto.
Qed.

Ltac monad_unfold :=
  unfold mbind, M_bind, mret, M_ret, get_state, modify, raise, lift_result;
  cbn beta iota.

Lemma handle_data_unknown (s : Server.t) (client_id : Z) (pkt : Packet) :
  Server.clients s !! client_id = None ->
  Server.handle_data client_id pkt s = (Ok tt, s).
Proof. intros H. unfold Server.handle_data. monad_unfold. by rewrite H. Qed.

(* In order, with payload, file open, acknowledgement encodable. *)
Lemma handle_data_in_order (s : Server.t) (client_id : Z) (pkt : Packet)
    (st : Server.conn) (fh : Server.file) (d : list byte) :
  Server.clients s !! client_id = Some st ->
  seq pkt = Server.expected_seq st ->
  data pkt <> [] ->
  Server.current_file st = Some fh -> Server.closed fh = false ->
  pack (Server.ack_pkt s client_id
          (Server.expected_seq st + Z.of_nat (length (data pkt)))) = Ok d ->
  Server.handle_data client_id pkt s =
  (Ok tt,
   {| Server.port := Server.port s;
      Server.clients :=
        <[client_id := {| Server.expected_seq :=
                            Server.expected_seq st + Z.of_nat (length (data pkt));
                          Server.current_file := Some fh |}]> (Server.clients s);
      Server.disk :=
        <[Server.path fh :=
            default [] (Server.disk s !! Server.path fh) ++ data pkt]> (Server.disk s);
      Server.wire := Server.wire s ++ [d] |}).
Proof.
  intros Hst Hseq Hne Hf Hcl Hd. unfold Server.handle_data. monad_unfold.
  rewrite Hst, Hseq, Z.eqb_refl.
  assert (Hlen : (0 <? Z.of_nat (length (data pkt))) = true).
  { apply Z.ltb_lt. destruct (data pkt); [done | cbn; lia]. }
  rewrite Hlen, Hf. unfold Server.write_flush. rewrite Hcl. monad_unfold.
  unfold Server.send_to_net. monad_unfold.
  cbn [fst snd].
  rewrite Hd. unfold Server.set_wire, Server.set_clients, Server.set_disk. cbn.
  f_equal. f_equal.
  apply map_eq. intros j. rewrite lookup_alter, lookup_insert.
  case_decide; [subst; rewrite Hst; cbn; by rewrite Hf | done].
Qed.

(* In order with an empty payload: nothing is written and nothing is sent. *)
Lemma handle_data_in_order_empty (s : Server.t) (client_id : Z) (pkt : Packet)
    (st : Server.conn) :
  Server.clients s !! client_id = Some st ->
  seq pkt = Server.expected_seq st ->
  data pkt = [] ->
  Server.handle_data client_id pkt s = (Ok tt, s).
Proof.
  intros Hst Hseq He. unfold Server.handle_data. monad_unfold.
  by rewrite Hst, Hseq, Z.eqb_refl, He.
Qed.

(* Not in order (before or after expected_seq): the current expected_seq is
   acknowledged and nothing else changes. *)
Lemma handle_data_out_of_order (s : Server.t) (client_id : Z) (pkt : Packet)
    (st : Server.conn) (d : list byte) :
  Server.clients s !! client_id = Some st ->
  seq pkt <> Server.expected_seq st ->
  pack (Server.ack_pkt s client_id (Server.expected_seq st)) = Ok d ->
  Server.handle_data client_id pkt s =
  (Ok tt, Server.set_wire (fun w => w ++ [d]) s).
Proof.
  intros Hst Hseq Hd. unfold Server.handle_data. monad_unfold.
  rewrite Hst. apply Z.eqb_neq in Hseq. rewrite Hseq.
  destruct (seq pkt <? Server.expected_seq st); by apply server_send_Ok.
Qed.

(* What handle_data can do to the table of connections: nothing, or move
   the entry of client_id forward by the length of an in-order payload. *)
Lemma handle_data_clients (s : Server.t) (client_id : Z) (pkt : Packet) :
  let s' := snd (Server.handle_data client_id pkt s) in
  Server.clients s' = Server.clients s \/
  exists st, Server.clients s !! client_id = Some st /\
    seq pkt = Server.expected_seq st /\ data pkt <> [] /\
    Server.clients s' =
      <[client_id := {| Server.expected_seq :=
                          Server.expected_seq st + Z.of_nat (length (data pkt));
                        Server.current_file := Server.current_file st |}]>
        (Server.clients s).
Proof.
  unfold Server.handle_data. monad_unfold.
  destruct (Server.clients s !! client_id) as [st|] eqn:Hst; [|by left].
  destruct (seq pkt =? Server.expected_seq st) eqn:Hseq.
  - apply Z.eqb_eq in Hseq.
    destruct (0 <? Z.of_nat (length (data pkt))) eqn:Hlen; [|by left].
    assert (Hne : data pkt <> []).
    { intros He. rewrite He in Hlen. discriminate. }
    unfold Server.write_flush.
    destruct (Server.current_file st) as [fh|] eqn:Hf; [|by left].
    destruct (Server.closed fh) eqn:Hcl; [by left|].
    monad_unfold. cbn [fst snd]. right. exists st.
    split; [done|]. split; [done|]. split; [done|].
    unfold Server.send_to_net. monad_unfold.
    destruct (pack _); cbn [snd Server.clients Server.set_wire Server.set_clients Server.set_disk].
    all: apply map_eq; intros j; rewrite lookup_alter, lookup_insert.
    all: case_decide; [subst; rewrite Hst; cbn; by rewrite Hf | done].
  - unfold Server.send_to_net. monad_unfold.
    destruct (seq pkt <? Server.expected_seq st); destruct (pack _); by left.
Qed.

(* What handle_fin can do to the table: nothing, remove the entry of
   client_id, or (when the FIN-ACK cannot be encoded) leave it with its file
   closed and its expected_seq as it was. *)
Lemma handle_fin_clients (s : Server.t) (client_id : Z) (pkt : Packet) :
  let s' := snd (Server.handle_fin client_id pkt s) in
  Server.clients s' = Server.clients s \/
  Server.clients s' = delete client_id (Server.clients s) \/
  exists st f, Server.clients s !! client_id = Some st /\
    Server.clients s' =
      <[client_id := {| Server.expected_seq := Server.expected_seq st;
                        Server.current_file := f |}]> (Server.clients s).
Proof.
  unfold Server.handle_fin. monad_unfold.
  destruct (Server.clients s !! client_id) as [st|] eqn:Hst; [|by left].
  unfold Server.close_file, Server.send_to_net. monad_unfold.
  destruct (pack _); cbn [snd Server.clients Server.set_wire Server.set_clients].
  - right; left. apply map_eq; intros j.
    destruct (decide (client_id = j)) as [->|Hj].
    + by rewrite !lookup_delete_eq.
    + by rewrite !lookup_delete_ne, lookup_alter_ne.
  - right; right. eexists st, _. split; [done|].
    apply map_eq; intros j; rewrite lookup_alter, lookup_insert.
    case_decide; [subst; rewrite Hst; cbn; reflexivity | done].
Qed.

Lemma handle_syn_clients (s : Server.t) (client_id : Z) (pkt : Packet) :
  exists f, Server.clients (snd (Server.handle_syn client_id pkt s)) =
    <[client_id := {| Server.expected_seq := seq pkt + 1;
                      Server.current_file := f |}]> (Server.clients s).
Proof.
  destruct (pack (Server.syn_ack_pkt s client_id (seq pkt + 1))) as [d|e] eqn:E.
  - rewrite (handle_syn_Ok _ _ _ _ E). by eexists.
  - rewrite (handle_syn_Raise _ _ _ _ E). by eexists.
Qed.

(* One datagram that is not a SYN of client_id: its entry is not created,
   and if it is still there afterwards its expected_seq has not decreased. *)
Lemma run_step_no_syn (s : Server.t) (datagram : list byte) (client_id : Z) :
  ~ Server.syn_from client_id datagram ->
  match Server.clients (Server.run_step datagram s) !! client_id with
  | None => True
  | Some c' => exists c, Server.clients s !! client_id = Some c /\
                         Server.expected_seq c <= Server.expected_seq c'
  end.
Proof.
  intros Hns. unfold Server.run_step, Server.process_packet.
  assert (Hsame : match Server.clients s !! client_id with
    | None => True
    | Some c' => exists c, Server.clients s !! client_id = Some c /\
                           Server.expected_seq c <= Server.expected_seq c'
    end).
  { destruct (Server.clients s !! client_id) as [c|]; [|done].
    exists c. split; [done | lia]. }
  destruct (unpack (recvfrom datagram)) as [pkt|e] eqn:Hu; [|exact Hsame].
  destruct (has_flag (flags pkt) FLAG_SYN) eqn:Hsyn.
  - destruct (handle_syn_clients s (src_port pkt) pkt) as [f ->].
    rewrite lookup_insert. case_decide as Hc; [|exact Hsame].
    exfalso. apply Hns. by exists pkt.
  - destruct (has_flag (flags pkt) FLAG_FIN).
    + destruct (handle_fin_clients s (src_port pkt) pkt) as [->|[->|(st & f & Hst & ->)]].
      * exact Hsame.
      * rewrite lookup_delete. case_decide; [done | exact Hsame].
      * rewrite lookup_insert. case_decide as Hc; [|exact Hsame].
        subst. exists st. split; [done | cbn; lia].
    + destruct (handle_data_clients s (src_port pkt) pkt)
        as [->|(st & Hst & _ & _ & ->)]; [exact Hsame|].
      rewrite lookup_insert. case_decide as Hc; [|exact Hsame].
      subst. exists st. split; [done | cbn; lia].
Qed.

(** C8 (amended): over any sequence of datagrams processed by the receiver
    none of which is a SYN of the peer, the peer's expected_seq never
    decreases: if the connection state exists at the end, it existed at the
    start and its expected_seq is at least what it was.  (A SYN of the peer
    replaces the state with expected_seq = pkt.seq + 1, whatever it was.) *)
Theorem expected_seq_monotone_between_syns (datagrams : list (list byte))
    (s : Server.t) (client_id : Z) (c' : Server.conn) :
  Forall (fun d => ~ Server.syn_from client_id d) datagrams ->
  Server.clients (Server.run_steps datagrams s) !! client_id = Some c' ->
  exists c, Server.clients s !! client_id = Some c /\
            Server.expected_seq c <= Server.expected_seq c'.
Proof.
  intros Hall. revert s c'. induction Hall as [|d ds Hd _ IH]; intros s c' Hend.
  - exists c'. split; [exact Hend | lia].
  - cbn in Hend. destruct (IH _ _ Hend) as (c1 & Hc1 & Hle).
    pose proof (run_step_no_syn s d client_id Hd) as Hstep.
    rewrite Hc1 in Hstep. destruct Hstep as (c & Hc & Hle').
    exists c. split; [exact Hc | lia].
Qed.

Lemma expected_seq_monotone_between_syns_witness :
  exists c, Server.clients srv_syn !! 40000 = Some c /\
            Server.expected_seq c <= 103.
Proof.
  apply (expected_seq_monotone_between_syns [dgram data101] srv_syn 40000
           {| Server.expected_seq := 103;
              Server.current_file := Some {| Server.path := 40000;
                                             Server.closed := false |} |}).
  - constructor; [|constructor].
    intros (pkt & Hu & _ & Hf). vm_compute in Hu. injection Hu as <-.
    vm_compute in Hf. discriminate.
  - vm_compute. reflexivity.
Defined.

(** C8 (as stated) fails: with the connection of peer 40000 established and
    expected_seq = 103 after two payload bytes, a repeated SYN (seq = 100)
    is handled by handle_syn and leaves expected_seq = 101. *)
Lemma expected_seq_decreases_on_syn :
  ~ (forall (s : Server.t) (datagram : list byte) (client_id : Z)
            (c c' : Server.conn),
       Server.clients s !! client_id = Some c ->
       Server.clients (Server.run_step datagram s) !! client_id = Some c' ->
       Server.expected_seq c <= Server.expected_seq c').
Proof.
  intros H.
  specialize (H srv_est (dgram syn100) 40000
    {| Server.expected_seq := 103;
       Server.current_file := Some {| Server.path := 40000;
                                      Server.closed := false |} |}
    {| Server.expected_seq := 101;
       Server.current_file := Some {| Server.path := 40000;
                                      Server.closed := false |} |}).
  cbn [Server.expected_seq] in H.
  assert (103 <= 101) by (apply H; vm_compute; reflexivity). lia.
Qed.

(** C4 (the code at the failing input): an in-order data packet without
    payload from an established peer (expected_seq = 101, seq = 101) leaves
    the receiver as it was; in particular no ACK is sent. *)
Theorem handle_data_in_order_empty_sends_nothing :
  unpack (recvfrom (dgram empty101)) = Ok empty101 /\
  (exists c, Server.clients srv_syn !! src_port empty101 = Some c /\
             Server.expected_seq c = seq empty101) /\
  Server.run_step (dgram empty101) srv_syn = srv_syn /\
  Server.wire (Server.run_step (dgram empty101) srv_syn) = Server.wire srv_syn.
Proof.
  split; [vm_compute; reflexivity|]. split.
  - eexists. split; vm_compute; reflexivity.
  - split; vm_compute; reflexivity.
Qed.

(** C10 (the code at the failing input): a SYN with seq = 2^32 - 1 from the
    established peer 40000, whose file holds two bytes: the entry is
    replaced (expected_seq = 2^32, no file), but encoding the SYN-ACK with
    ack = 2^32 raises struct.error before open(), so the file is neither
    reopened nor truncated and nothing is sent. *)
Theorem handle_syn_seq_max_keeps_file :
  unpack (recvfrom (dgram syn_max)) = Ok syn_max /\
  Server.disk srv_est !! 40000 = Some [x68; x69] /\
  fst (Server.process_packet (recvfrom (dgram syn_max)) srv_est) = Raise StructError /\
  let s' := Server.run_step (dgram syn_max) srv_est in
  Server.clients s' !! 40000 =
    Some {| Server.expected_seq := 4294967296; Server.current_file := None |} /\
  Server.disk s' !! 40000 = Some [x68; x69] /\
  Server.wire s' = Server.wire srv_est.
Proof. repeat split; vm_compute; reflexivity. Qed.

(* --------------------------------------------------------------------- *)
(* Sender: handshake                                                      *)
(* --------------------------------------------------------------------- *)

Lemma client_send_Ok (c : Client.t) (pkt : Packet) (d : list byte) :
  pack pkt = Ok d ->
  Client.send_to_net pkt c = (Ok tt, Client.set_wire (fun w => w ++ [d]) c).
Proof.
  intros H. unfold Client.send_to_net, mbind, M_bind, lift_result.
  by rewrite H.
Qed.

Lemma client_send_Raise (c : Client.t) (pkt : Packet) (e : exn) :
  pack pkt = Raise e -> Client.send_to_net pkt c = (Raise e, c).
Proof.
  intros H. unfold Client.send_to_net, mbind, M_bind, lift_result.
  by rewrite H.
Qed.

(* One turn of the handshake loop, when the SYN can be encoded. *)
Lemma handshake_loop_cons (start_time now : Q) (rx : option (list byte))
    (env : list (Q * option (list byte))) (c : Client.t) (d : list byte) :
  pack (Client.syn_pkt c) = Ok d ->
  Client.handshake_loop start_time ((now, rx) :: env) c =
  if Qlt_bool (now - start_time) 10 then
    if Client.handshake_accepts (Client.wait_for_packet rx)
    then (Ok (ack <$> Client.wait_for_packet rx),
          Client.set_wire (fun w => w ++ [d]) c)
    else Client.handshake_loop start_time env
           (Client.set_wire (fun w => w ++ [d]) c)
  else (Raise TimeoutError, c).
Proof.
  intros Hd. cbn [Client.handshake_loop].
  destruct (Qlt_bool (now - start_time) 10); [|reflexivity].
  monad_unfold. rewrite (client_send_Ok c _ d Hd).
  by destruct (Client.handshake_accepts (Client.wait_for_packet rx)).
Qed.

Lemma handshake_loop_cons_Raise (start_time now : Q) (rx : option (list byte))
    (env : list (Q * option (list byte))) (c : Client.t) (e : exn) :
  pack (Client.syn_pkt c) = Raise e ->
  Client.handshake_loop start_time ((now, rx) :: env) c =
  if Qlt_bool (now - start_time) 10 then (Raise e, c)
  else (Raise TimeoutError, c).
Proof.
  intros Hd. cbn [Client.handshake_loop].
  destruct (Qlt_bool (now - start_time) 10); [|reflexivity].
  monad_unfold. by rewrite (client_send_Raise c _ e Hd).
Qed.

(** X27: what the handshake as written accepts.  perform_handshake returns
    no other value than 101, and it returns only when one of its waits
    brought a datagram that decodes, has the SYN flag or the ACK flag (or
    both) and carries ack = 101. *)
Lemma handshake_returns (start_time : Q) (env : list (Q * option (list byte)))
    (c : Client.t) (a : Z) :
  fst (Client.perform_handshake start_time env c) = Ok (Some a) ->
  a = 101 /\
  exists now rx r, In (now, rx) env /\ Client.wait_for_packet rx = Some r /\
    (has_flag (flags r) FLAG_SYN = true \/ has_flag (flags r) FLAG_ACK = true) /\
    ack r = 101.
Proof.
  unfold Client.perform_handshake. revert c.
  induction env as [|[now rx] env IH]; intros c H; [discriminate|].
  destruct (pack (Client.syn_pkt c)) as [d|e] eqn:Hd.
  - rewrite (handshake_loop_cons _ _ _ _ _ _ Hd) in H.
    destruct (Qlt_bool (now - start_time) 10); [|discriminate].
    destruct (Client.handshake_accepts (Client.wait_for_packet rx)) eqn:Hacc.
    + destruct (Client.wait_for_packet rx) as [r|] eqn:Hw; [|discriminate].
      cbn in H. injection H as <-.
      cbn [Client.handshake_accepts] in Hacc.
      apply andb_true_iff in Hacc as [Hfl Hack]. apply Z.eqb_eq in Hack.
      split; [exact Hack|]. exists now, rx, r.
      split; [by left|]. split; [done|]. split; [|exact Hack].
      unfold has_flag in *. apply negb_true_iff, Z.eqb_neq in Hfl.
      destruct (Z.land (flags r) FLAG_SYN =? 0) eqn:E1; [|by left].
      destruct (Z.land (flags r) FLAG_ACK =? 0) eqn:E2; [|by right].
      exfalso. apply Hfl. apply Z.eqb_eq in E1, E2.
      rewrite Z.land_lor_distr_r, E1, E2. reflexivity.
    + destruct (IH _ H) as (-> & now' & rx' & r & Hin & Hrest).
      split; [done|]. exists now', rx', r. split; [by right | exact Hrest].
  - rewrite (handshake_loop_cons_Raise _ _ _ _ _ _ Hd) in H.
    by destruct (Qlt_bool (now - start_time) 10).
Qed.

(** X28: the budget of the handshake.  When every wait within the first
    10 seconds ends without an accepted datagram and the clock at the loop
    test then reads 10 s or more after the start, perform_handshake raises
    TimeoutError, having sent one SYN per turn and nothing else. *)
Lemma handshake_times_out (start_time now : Q) (rx : option (list byte))
    (env1 env2 : list (Q * option (list byte))) (c : Client.t) (d : list byte) :
  pack (Client.syn_pkt c) = Ok d ->
  Forall (fun ev => (fst ev - start_time < 10)%Q /\
                    Client.handshake_accepts (Client.wait_for_packet (snd ev)) = false)
         env1 ->
  (10 <= now - start_time)%Q ->
  Client.perform_handshake start_time (env1 ++ (now, rx) :: env2) c =
  (Raise TimeoutError,
   Client.set_wire (fun w => w ++ repeat d (length env1)) c).
Proof.
  intros Hd Hall Hnow. unfold Client.perform_handshake.
  revert c Hd. induction Hall as [|[t1 rx1] env1 [Ht Hacc] _ IH]; intros c Hd.
  - cbn [app]. rewrite (handshake_loop_cons _ _ _ _ _ _ Hd).
    apply Qlt_bool_false_iff in Hnow. rewrite Hnow. cbn.
    destruct c; unfold Client.set_wire; cbn. by rewrite app_nil_r.
  - cbn [app]. rewrite (handshake_loop_cons _ _ _ _ _ _ Hd).
    cbn [fst snd] in Ht, Hacc. apply Qlt_bool_iff in Ht. rewrite Ht, Hacc.
    rewrite IH by exact Hd.
    destruct c; unfold Client.set_wire; cbn. by rewrite <- app_assoc.
Qed.

(** C2 (the code at the failing input): a datagram with only the ACK flag
    (no SYN) and ack = 101, received in the first wait, is accepted:
    perform_handshake returns 101. *)
Theorem handshake_accepts_ack_only :
  has_flag (flags ack_only101) FLAG_SYN = false /\
  fst (Client.perform_handshake 0 [(1 # 10, Some (dgram ack_only101))] (cli0 None))
  = Ok (Some 101).
Proof. split; vm_compute; reflexivity. Qed.

(* --------------------------------------------------------------------- *)
(* Sender: sequence numbers of the chunks                                 *)
(* --------------------------------------------------------------------- *)

Lemma precalc_lookup_lt (cs : list (list byte)) (i0 : nat) (cur : Z)
    (w : gmap nat Z) (j : nat) :
  (j < i0)%nat -> Client.precalc cs i0 cur w !! j = w !! j.
Proof.
  revert i0 cur w. induction cs as [|c cs IH]; intros i0 cur w Hj; [done|].
  cbn. rewrite IH by lia. apply lookup_insert_ne. lia.
Qed.

Lemma precalc_lookup (cs : list (list byte)) (i0 : nat) (cur : Z)
    (w : gmap nat Z) (k : nat) :
  (k < length cs)%nat ->
  Client.precalc cs i0 cur w !! (i0 + k)%nat = Some (seq_of cs cur k).
Proof.
  revert i0 cur w k. induction cs as [|c cs IH]; intros i0 cur w k Hk.
  - cbn in Hk. lia.
  - cbn [Client.precalc]. destruct k as [|k].
    + rewrite Nat.add_0_r, precalc_lookup_lt by lia.
      rewrite lookup_insert_eq. unfold seq_of. cbn. f_equal. lia.
    + replace (i0 + S k)%nat with (S i0 + k)%nat by lia.
      rewrite IH by (cbn in Hk; lia).
      unfold seq_of. cbn [take concat]. rewrite length_app. f_equal. lia.
Qed.

Lemma seq_of_S (cs : list (list byte)) (start_seq : Z) (i : nat) (c : list byte) :
  cs !! i = Some c ->
  seq_of cs start_seq (S i) = seq_of cs start_seq i + Z.of_nat (length c).
Proof.
  intros H. unfold seq_of. rewrite (take_S_r _ _ _ H), concat_app, length_app.
  cbn. rewrite app_nil_r. lia.
Qed.

Lemma seq_of_le_S (cs : list (list byte)) (start_seq : Z) (i : nat) :
  seq_of cs start_seq i <= seq_of cs start_seq (S i).
Proof.
  destruct (cs !! i) as [c|] eqn:H.
  - rewrite (seq_of_S _ _ _ _ H). lia.
  - apply lookup_ge_None in H. unfold seq_of.
    rewrite !take_ge by lia. lia.
Qed.

Lemma seq_of_mono (cs : list (list byte)) (start_seq : Z) (i j : nat) :
  (i <= j)%nat -> seq_of cs start_seq i <= seq_of cs start_seq j.
Proof.
  induction 1 as [|j _ IH]; [lia|].
  pose proof (seq_of_le_S cs start_seq j). lia.
Qed.

Lemma seq_of_strict (cs : list (list byte)) (start_seq : Z) (i j : nat) :
  Forall (fun c => c <> []) cs ->
  (i < j)%nat -> (j <= length cs)%nat ->
  seq_of cs start_seq i < seq_of cs start_seq j.
Proof.
  intros Hne Hij Hj.
  assert (Hstep : seq_of cs start_seq i < seq_of cs start_seq (S i)).
  { destruct (lookup_lt_is_Some_2 cs i) as [c Hc]; [lia|].
    rewrite (seq_of_S _ _ _ _ Hc).
    rewrite Forall_forall in Hne.
    assert (c <> []) by (apply Hne; eapply list_elem_of_lookup_2, Hc).
    destruct c; [done | cbn; lia]. }
  pose proof (seq_of_mono cs start_seq (S i) j ltac:(lia)). lia.
Qed.

Lemma read_loop_nonempty (fuel : nat) (f : list byte) :
  Forall (fun c => c <> []) (Client.read_loop fuel f).
Proof.
  revert f. induction fuel as [|fuel IH]; intros f; cbn [Client.read_loop]; [constructor|].
  destruct (take MAX_PAYLOAD_SIZE f) eqn:E; [constructor|].
  constructor; [done | apply IH].
Qed.

(* The chunks are the file cut into pieces, in order. *)
Lemma read_loop_concat (fuel : nat) (f : list byte) :
  (length f <= fuel)%nat -> concat (Client.read_loop fuel f) = f.
Proof.
  revert f. induction fuel as [|fuel IH]; intros f Hf; cbn [Client.read_loop].
  - destruct f; [done | cbn in Hf; lia].
  - destruct (take MAX_PAYLOAD_SIZE f) as [|b l] eqn:E.
    + destruct f; [done | discriminate].
    + cbn [concat]. rewrite IH.
      * rewrite <- E. apply take_drop.
      * rewrite length_drop. destruct f; [discriminate|].
        unfold MAX_PAYLOAD_SIZE, SERVER_BUFFER_SIZE, HEADER_SIZE. cbn in *. lia.
Qed.

Lemma read_loop_max (fuel : nat) (f : list byte) :
  Forall (fun c => (length c <= MAX_PAYLOAD_SIZE)%nat) (Client.read_loop fuel f).
Proof.
  revert f. induction fuel as [|fuel IH]; intros f; cbn [Client.read_loop]; [constructor|].
  destruct (take MAX_PAYLOAD_SIZE f) eqn:E; [constructor|].
  constructor; [|apply IH]. rewrite <- E, length_take. lia.
Qed.

(* --------------------------------------------------------------------- *)
(* Sender: the steps of transmit_file                                     *)
(* --------------------------------------------------------------------- *)

Lemma tx_init_wf (cs : list (list byte)) (start_seq : Z) (now : Q) :
  tx_wf cs start_seq (Client.tx_init cs start_seq now).
Proof.
  unfold tx_wf, Client.tx_init, seq_of. cbn. rewrite take_0. cbn.
  repeat split; try done; lia.
Qed.

Lemma tx_wf_window (cs : list (list byte)) (start_seq : Z) (x : Client.tx) (i : nat) :
  tx_wf cs start_seq x -> (i < length cs)%nat ->
  Client.seq_window x !! i = Some (seq_of cs start_seq i).
Proof.
  intros (_ & -> & _) Hi. apply (precalc_lookup cs 0 start_seq ∅ i Hi).
Qed.

(* One turn of the inner loop that moves base_idx. *)
Lemma advance_one_wf (cs : list (list byte)) (start_seq ack_num : Z) (now : Q)
    (x : Client.tx) :
  tx_wf cs start_seq x -> (Client.base_idx x < length cs)%nat ->
  Client.advance_one ack_num now x =
  Ok (if seq_of cs start_seq (S (Client.base_idx x)) <=? ack_num
      then Some {| Client.chunks := Client.chunks x;
                   Client.seq_window := Client.seq_window x;
                   Client.base_idx := S (Client.base_idx x);
                   Client.next_idx := Client.next_idx x;
                   Client.base_seq := seq_of cs start_seq (S (Client.base_idx x));
                   Client.last_ack_time := now |}
      else None).
Proof.
  intros Hwf Hlt. unfold Client.advance_one.
  rewrite (tx_wf_window _ _ _ _ Hwf Hlt).
  destruct Hwf as (Hcs & _). rewrite Hcs.
  destruct (lookup_lt_is_Some_2 cs (Client.base_idx x) Hlt) as [c Hc].
  rewrite Hc, <- (seq_of_S _ _ _ _ Hc).
  by destruct (_ <=? _).
Qed.

(* The conclusion of advance_loop_spec when the loop stops at once. *)
Lemma advance_stays (cs : list (list byte)) (start_seq ack_num : Z) (now : Q)
    (x : Client.tx) :
  tx_wf cs start_seq x ->
  ((Client.base_idx x < length cs)%nat ->
     ack_num < seq_of cs start_seq (S (Client.base_idx x))) ->
  tx_wf cs start_seq x /\
  Client.next_idx x = Client.next_idx x /\
  (Client.base_idx x <= Client.base_idx x)%nat /\
  (forall i, (Client.base_idx x <= i < Client.base_idx x)%nat ->
             seq_of cs start_seq (S i) <= ack_num) /\
  ((Client.base_idx x < length cs)%nat ->
     ack_num < seq_of cs start_seq (S (Client.base_idx x))) /\
  (Client.base_idx x = Client.base_idx x -> x = x) /\
  ((Client.base_idx x < Client.base_idx x)%nat ->
     Client.last_ack_time x = now).
Proof.
  intros Hwf Hstop. split; [exact Hwf|]. split; [done|]. split; [lia|].
  split; [intros i Hi; lia|]. split; [exact Hstop|]. split; [done|]. lia.
Qed.

Lemma advance_loop_spec (cs : list (list byte)) (start_seq ack_num : Z) (now : Q)
    (fuel : nat) (x : Client.tx) :
  tx_wf cs start_seq x -> (length cs <= fuel + Client.base_idx x)%nat ->
  exists x', Client.advance_loop fuel ack_num now x = Ok x' /\
    tx_wf cs start_seq x' /\
    Client.next_idx x' = Client.next_idx x /\
    (Client.base_idx x <= Client.base_idx x')%nat /\
    (forall i, (Client.base_idx x <= i < Client.base_idx x')%nat ->
               seq_of cs start_seq (S i) <= ack_num) /\
    ((Client.base_idx x' < length cs)%nat ->
       ack_num < seq_of cs start_seq (S (Client.base_idx x'))) /\
    (Client.base_idx x' = Client.base_idx x -> x' = x) /\
    ((Client.base_idx x < Client.base_idx x')%nat ->
       Client.last_ack_time x' = now).
Proof.
  revert x. induction fuel as [|fuel IH]; intros x Hwf Hfuel.
  - exists x. split; [reflexivity|]. apply advance_stays; [exact Hwf|].
    cbn in Hfuel. lia.
  - cbn [Client.advance_loop].
    pose proof Hwf as (Hcs & _ & _ & _). rewrite Hcs.
    destruct (Client.base_idx x <? length cs)%nat eqn:Hlt.
    + apply Nat.ltb_lt in Hlt. rewrite (advance_one_wf _ _ _ _ _ Hwf Hlt).
      destruct (seq_of cs start_seq (S (Client.base_idx x)) <=? ack_num) eqn:Hcov.
      * apply Z.leb_le in Hcov.
        set (x1 := {| Client.chunks := _ |}).
        assert (Hwf1 : tx_wf cs start_seq x1).
        { destruct Hwf as (H1 & H2 & H3 & H4).
          unfold tx_wf, x1; cbn. repeat split; try done; try lia. }
        destruct (IH x1 Hwf1) as (x' & Hrun & Hwf' & Hn & Hb & Hall & Hstop & Hsame & Ht).
        { unfold x1; cbn. lia. }
        exists x'. rewrite Hrun.
        unfold x1 in Hn, Hb, Hall, Hsame, Ht; cbn in Hn, Hb, Hall, Hsame, Ht.
        split; [done|]. split; [done|]. split; [done|]. split; [lia|].
        split.
        { intros i Hi. destruct (decide (i = Client.base_idx x)) as [->|Hne];
            [exact Hcov | apply Hall; lia]. }
        split; [exact Hstop|]. split; [lia|].
        intros _. destruct (decide (Client.base_idx x' = S (Client.base_idx x)))
          as [Heq|Hne].
        -- rewrite (Hsame Heq). reflexivity.
        -- apply Ht. lia.
      * apply Z.leb_gt in Hcov. exists x. split; [reflexivity|].
        apply advance_stays; [exact Hwf | intros _; lia].
    + apply Nat.ltb_ge in Hlt. exists x. split; [reflexivity|].
      apply advance_stays; [exact Hwf | lia].
Qed.

(* The ACK-processing step from a consistent state: the new base_idx is
   exactly past the chunks the acknowledgement covers. *)
Lemma process_ack_spec (cs : list (list byte)) (start_seq : Z)
    (x : Client.tx) (r : Packet) (now : Q) :
  tx_wf cs start_seq x ->
  exists x', Client.process_ack (Some r) now x = Ok x' /\
    tx_wf cs start_seq x' /\
    Client.next_idx x' = Client.next_idx x /\
    (has_flag (flags r) FLAG_ACK && (Client.base_seq x <? ack r) = false -> x' = x) /\
    (has_flag (flags r) FLAG_ACK && (Client.base_seq x <? ack r) = true ->
       (forall i, (i < length cs)%nat ->
          ((i < Client.base_idx x')%nat <-> seq_of cs start_seq (S i) <= ack r)) /\
       Client.base_seq x' = seq_of cs start_seq (Client.base_idx x') /\
       ((Client.base_idx x < Client.base_idx x')%nat ->
          Client.last_ack_time x' = now)) /\
    (Client.base_idx x' = Client.base_idx x -> x' = x).
Proof.
  intros Hwf. unfold Client.process_ack.
  destruct (has_flag (flags r) FLAG_ACK) eqn:Hfl; cbn [andb];
    [|exists x; split; [done|]; split; [exact Hwf|]; split; [done|];
      split; [done|]; split; [discriminate | done]].
  destruct (Client.base_seq x <? ack r) eqn:Hgt;
    [|exists x; split; [done|]; split; [exact Hwf|]; split; [done|];
      split; [done|]; split; [discriminate | done]].
  apply Z.ltb_lt in Hgt.
  pose proof Hwf as (Hcs & _ & Hb & Hseq).
  destruct (advance_loop_spec cs start_seq (ack r) now (Client.total_chunks x) x Hwf)
    as (x' & Hrun & Hwf' & Hn & Hle & Hall & Hstop & Hsame & Htime).
  { unfold Client.total_chunks. rewrite Hcs. lia. }
  exists x'. split; [exact Hrun|]. split; [exact Hwf'|]. split; [exact Hn|].
  split; [discriminate|]. split; [|exact Hsame].
  intros _. split; [|split; [apply Hwf' | exact Htime]].
  intros i Hi. split.
  - intros Hlt. destruct (decide (Client.base_idx x <= i)%nat) as [Hge|Hlt'].
    + apply Hall. lia.
    + pose proof (seq_of_mono cs start_seq (S i) (Client.base_idx x) ltac:(lia)).
      lia.
  - intros Hcov. destruct (decide (i < Client.base_idx x')%nat) as [|Hge]; [done|].
    exfalso.
    assert (Hlt' : (Client.base_idx x' < length cs)%nat) by lia.
    specialize (Hstop Hlt').
    pose proof (seq_of_mono cs start_seq (S (Client.base_idx x')) (S i) ltac:(lia)).
    lia.
Qed.

(* The acknowledgement loop of py/client.py, "while base_idx < next_idx",
   from a consistent state. *)
Lemma py_advance_loop_spec (cs : list (list byte)) (initial_seq ack_num : Z)
    (now : Q) (fuel : nat) (x : Py.tx) :
  py_tx_inv cs initial_seq x ->
  (Py.next_idx x <= fuel + Py.base_idx x)%nat ->
  let x' := Py.advance_loop fuel ack_num now x in
  py_tx_inv cs initial_seq x' /\
  Py.next_idx x' = Py.next_idx x /\
  (Py.base_idx x <= Py.base_idx x' <= Py.next_idx x)%nat /\
  (forall i, (Py.base_idx x <= i < Py.base_idx x')%nat ->
             seq_of cs initial_seq (S i) <= ack_num) /\
  ((Py.base_idx x' < Py.next_idx x)%nat ->
     ack_num < seq_of cs initial_seq (S (Py.base_idx x'))) /\
  (Py.base_idx x' = Py.base_idx x -> x' = x) /\
  ((Py.base_idx x < Py.base_idx x')%nat -> Py.last_ack_time x' = now).
Proof.
  revert x. induction fuel as [|fuel IH]; intros x Hinv Hfuel; cbn zeta.
  - pose proof Hinv as (_ & Hbn & _). cbn [Py.advance_loop].
    split; [done|]. split; [done|]. split; [lia|].
    split; [intros i Hi; lia|]. split; [intros Hlt; lia|].
    split; [done|]. intros Hlt; lia.
  - pose proof Hinv as (Hcs & Hbn & Hw & Hn & Hbs & Htab).
    cbn [Py.advance_loop].
    destruct (Py.base_idx x <? Py.next_idx x)%nat eqn:E.
    2:{ apply Nat.ltb_ge in E.
        split; [done|]. split; [done|]. split; [lia|].
        split; [intros i Hi; lia|]. split; [intros Hlt; lia|].
        split; [done|]. intros Hlt; lia. }
    apply Nat.ltb_lt in E.
    destruct (lookup_lt_is_Some_2 cs (Py.base_idx x)) as [chunk Hch]; [lia|].
    assert (Hch' : Py.chunks x !! Py.base_idx x = Some chunk) by by rewrite Hcs.
    rewrite Hch'. cbn zeta.
    assert (Hend : Py.base_seq x + Z.of_nat (length chunk)
                   = seq_of cs initial_seq (S (Py.base_idx x)))
      by (by rewrite (seq_of_S cs initial_seq _ chunk Hch), Hbs).
    rewrite Hend.
    destruct (seq_of cs initial_seq (S (Py.base_idx x)) <=? ack_num) eqn:Hle.
    + apply Z.leb_le in Hle.
      set (x1 := {| Py.chunks := Py.chunks x; Py.seq_window := Py.seq_window x;
                    Py.base_idx := S (Py.base_idx x); Py.next_idx := Py.next_idx x;
                    Py.base_seq := seq_of cs initial_seq (S (Py.base_idx x));
                    Py.last_ack_time := now |}).
      assert (Hinv1 : py_tx_inv cs initial_seq x1).
      { unfold py_tx_inv, x1.
        cbn [Py.chunks Py.base_idx Py.next_idx Py.base_seq Py.seq_window].
        split; [done|]. split; [lia|]. split; [lia|]. split; [done|].
        split; [done|]. intros i Hi. apply Htab. lia. }
      destruct (IH x1 Hinv1) as (I1 & I2 & I3 & I4 & I5 & I6 & I7);
        [cbn; lia|].
      cbn [Py.base_idx Py.next_idx x1] in I2, I3, I4, I5, I6, I7.
      fold x1. split; [exact I1|]. split; [exact I2|]. split; [lia|].
      split.
      { intros i Hi. destruct (decide (i = Py.base_idx x)) as [->|Hne];
          [exact Hle | apply I4; lia]. }
      split; [exact I5|]. split; [intros Heq; lia|].
      intros _. destruct (decide (Py.base_idx (Py.advance_loop fuel ack_num now x1)
                                  = S (Py.base_idx x))) as [Heq|Hne].
      * by rewrite (I6 Heq).
      * apply I7. lia.
    + apply Z.leb_gt in Hle.
      split; [done|]. split; [done|]. split; [lia|].
      split; [intros i Hi; lia|]. split; [intros _; exact Hle|].
      split; [done|]. intros Hlt; lia.
Qed.

(** C5 (amended): the ACK-processing step of transmit_file in the two
    senders, from any consistent state of the loop and for any received
    packet r taken at clock reading now.
    py-med/client.py (process_ack):
    - unless r carries the ACK flag and r.ack > base_seq, nothing changes;
    - otherwise base_idx ends exactly past the chunks whose end sequence
      seq_of[i] + len(chunks[i]) is at most r.ack, base_seq becomes the
      sequence number at the new base_idx (the end of the last covered
      chunk), and when base_idx moved the timer is set to now;
    - an acknowledgement that covers no further chunk leaves the whole state
      (base_idx, base_seq, the timer) unchanged.
    py/client.py: every packet that decodes is processed, with or without
    the ACK flag; base_idx advances over the chunks below next_idx (those
    sent) whose end sequence is at most r.ack and stops at next_idx even
    when r.ack covers more; base_seq becomes the sequence number at the new
    base_idx, the timer is set to now when base_idx moved, and a packet
    that covers no further chunk leaves the whole state unchanged.
    In both, next_idx, the chunks and the table are never changed. *)
Theorem ack_advances_over_covered_chunks :
  (forall (cs : list (list byte)) (start_seq : Z) (x : Client.tx) (r : Packet)
          (now : Q),
     tx_wf cs start_seq x ->
     exists x', Client.process_ack (Some r) now x = Ok x' /\
       tx_wf cs start_seq x' /\
       Client.next_idx x' = Client.next_idx x /\
       (has_flag (flags r) FLAG_ACK && (Client.base_seq x <? ack r) = false -> x' = x) /\
       (has_flag (flags r) FLAG_ACK && (Client.base_seq x <? ack r) = true ->
          (forall i, (i < length cs)%nat ->
             ((i < Client.base_idx x')%nat <-> seq_of cs start_seq (S i) <= ack r)) /\
          Client.base_seq x' = seq_of cs start_seq (Client.base_idx x') /\
          ((Client.base_idx x < Client.base_idx x')%nat ->
             Client.last_ack_time x' = now)) /\
       (Client.base_idx x' = Client.base_idx x -> x' = x)) /\
  (forall (cs : list (list byte)) (initial_seq : Z) (x : Py.tx) (r : Py.Packet)
          (now : Q),
     py_tx_inv cs initial_seq x ->
     let x' := Py.process_ack (Some r) now x in
     py_tx_inv cs initial_seq x' /\
     Py.next_idx x' = Py.next_idx x /\
     (Py.base_idx x <= Py.base_idx x' <= Py.next_idx x)%nat /\
     (forall i, (i < Py.next_idx x)%nat ->
        ((i < Py.base_idx x')%nat <->
         (i < Py.base_idx x)%nat \/ seq_of cs initial_seq (S i) <= Py.ack r)) /\
     Py.base_seq x' = seq_of cs initial_seq (Py.base_idx x') /\
     ((Py.base_idx x < Py.base_idx x')%nat -> Py.last_ack_time x' = now) /\
     (Py.base_idx x' = Py.base_idx x -> x' = x)).
Proof.
  split.
  - intros cs start_seq x r now Hwf.
    destruct (process_ack_spec cs start_seq x r now Hwf)
      as (x' & Hrun & Hwf' & Hnext & Hnot & Hadv & Hsame).
    exists x'. split; [exact Hrun|]. split; [exact Hwf'|]. split; [exact Hnext|].
    split; [exact Hnot|]. split; [|exact Hsame].
    intros Hcond. destruct (Hadv Hcond) as (Hiff & Hseq & Htime).
    split; [exact Hiff|]. split; [exact Hseq | exact Htime].
  - intros cs initial_seq x r now Hinv. cbn zeta. unfold Py.process_ack.
    pose proof Hinv as (_ & Hbn & _).
    destruct (py_advance_loop_spec cs initial_seq (Py.ack r) now
                (Py.next_idx x - Py.base_idx x) x Hinv)
      as (I1 & I2 & I3 & I4 & I5 & I6 & I7); [lia|].
    cbn zeta in I1, I2, I3, I4, I5, I6, I7.
    set (x' := Py.advance_loop _ _ _ x) in *.
    split; [exact I1|]. split; [exact I2|]. split; [exact I3|].
    split; [|split; [by destruct I1 as (_ & _ & _ & _ & Hbs & _)|
                     split; [exact I7 | exact I6]]].
    intros i Hi. split.
    + intros Hlt. destruct (decide (i < Py.base_idx x)%nat) as [Hb|Hb];
        [by left | right; apply I4; lia].
    + intros [Hb|Hcov]; [lia|].
      destruct (decide (i < Py.base_idx x')%nat) as [Hlt|Hge]; [done|].
      exfalso. assert (Hstop : (Py.base_idx x' < Py.next_idx x)%nat) by lia.
      pose proof (I5 Hstop) as Hgt.
      pose proof (seq_of_mono cs initial_seq (S (Py.base_idx x')) (S i)
                    ltac:(lia)) as Hm.
      lia.
Qed.


(* --------------------------------------------------------------------- *)
(* Sender: the window                                                     *)
(* --------------------------------------------------------------------- *)

Lemma send_one_Ok (x x' : Client.tx) (c c' : Client.t) :
  Client.send_one x c = (Ok x', c') ->
  x' = Client.set_next_idx (S (Client.next_idx x)) x.
Proof.
  unfold Client.send_one.
  destruct (Client.chunks x !! Client.next_idx x); [|discriminate].
  destruct (Client.seq_window x !! Client.next_idx x); [|discriminate].
  monad_unfold. unfold Client.send_to_net. monad_unfold.
  destruct (pack _); [|discriminate]. by intros [= <- _].
Qed.

Lemma process_ack_None (now : Q) (x : Client.tx) :
  Client.process_ack None now x = Ok x.
Proof. reflexivity. Qed.

Lemma check_timeout_cases (now reset_at : Q) (x : Client.tx) :
  let x' := Client.check_timeout now reset_at x in
  Client.chunks x' = Client.chunks x /\
  Client.seq_window x' = Client.seq_window x /\
  Client.base_idx x' = Client.base_idx x /\
  Client.base_seq x' = Client.base_seq x /\
  (Client.next_idx x' = Client.next_idx x \/
   Client.next_idx x' = Client.base_idx x).
Proof.
  unfold Client.check_timeout.
  destruct (Qlt_bool _ _); cbn; repeat split; auto.
Qed.

(* The consistency of the variables is kept by every step. *)
Lemma tx_reachable_wf (cs : list (list byte)) (start_seq : Z) (bounded : bool)
    (x : Client.tx) :
  tx_reachable cs start_seq bounded x -> tx_wf cs start_seq x.
Proof.
  induction 1 as [now | x x' c c' _ IH _ Hs | x x' resp now _ IH _ Hp
                 | x now reset_at _ IH].
  - apply tx_init_wf.
  - rewrite (send_one_Ok _ _ _ _ Hs). exact IH.
  - destruct resp as [r|]; [|by injection Hp as <-].
    destruct (process_ack_spec cs start_seq x r now IH)
      as (x'' & Hrun & Hwf & _).
    rewrite Hrun in Hp. by injection Hp as <-.
  - destruct (check_timeout_cases now reset_at x) as (H1 & H2 & H3 & H4 & _).
    destruct IH as (I1 & I2 & I3 & I4).
    unfold tx_wf. rewrite H1, H2, H3, H4. done.
Qed.



(* The loop as written stays within the reachable states. *)
Lemma send_loop_reachable (cs : list (list byte)) (start_seq : Z) (bounded : bool)
    (fuel : nat) (x x' : Client.tx) (c c' : Client.t) :
  tx_reachable cs start_seq bounded x ->
  Client.send_loop fuel x c = (Ok x', c') ->
  tx_reachable cs start_seq bounded x'.
Proof.
  revert x c. induction fuel as [|fuel IH]; intros x c Hr Hs.
  - cbn in Hs. by injection Hs as <- _.
  - cbn [Client.send_loop] in Hs.
    destruct (Client.send_guard x) eqn:Hg; [|cbn in Hs; by injection Hs as <- _].
    unfold mbind, M_bind in Hs.
    destruct (Client.send_one x c) as [[x1|e] c1] eqn:H1; [|discriminate].
    eapply IH; [|exact Hs]. eapply reach_send; eauto.
Qed.

Lemma transmit_iter_reachable (cs : list (list byte)) (start_seq : Z)
    (ev : Client.tx_event) (x x' : Client.tx) (c c' : Client.t) :
  tx_reachable cs start_seq false x ->
  Client.transmit_iter ev x c = (Ok x', c') ->
  tx_reachable cs start_seq false x'.
Proof.
  intros Hr Ht. unfold Client.transmit_iter in Ht.
  unfold mbind, M_bind in Ht.
  destruct (Client.send_loop _ x c) as [[x1|e] c1] eqn:H1; [|discriminate].
  unfold lift_result in Ht.
  destruct (Client.process_ack _ _ x1) as [x2|e] eqn:H2; [|discriminate].
  cbn in Ht. injection Ht as <- _.
  apply reach_timeout. eapply reach_ack; [|discriminate|exact H2].
  eapply send_loop_reachable; eauto.
Qed.



Lemma tx_5041_sent_reachable (bounded : bool) :
  tx_reachable chunks_5041 101 bounded tx_5041_sent.
Proof.
  unfold tx_5041_sent.
  destruct (Client.send_loop 6 (Client.tx_init chunks_5041 101 0) cli_5041)
    as [[x|e] c] eqn:E; cbn [fst]; [|apply reach_init].
  eapply send_loop_reachable; [apply reach_init | exact E].
Qed.





(* When transmit_file returns, its value (the seq of the FIN) is the
   sequence number after the last byte of the last chunk. *)
Lemma transmit_loop_returns (cs : list (list byte)) (start_seq : Z)
    (env : list Client.tx_event) (x : Client.tx) (c c' : Client.t) (b : Z) :
  tx_reachable cs start_seq false x ->
  Client.transmit_loop env x c = (Ok (Some b), c') ->
  b = seq_of cs start_seq (length cs).
Proof.
  revert x c. induction env as [|ev env IH]; intros x c Hr Hrun.
  - cbn [Client.transmit_loop] in Hrun.
    destruct (Client.base_idx x <? Client.total_chunks x)%nat eqn:Hlt;
      [discriminate|].
    cbn in Hrun. injection Hrun as <- _.
    apply Nat.ltb_ge in Hlt.
    apply tx_reachable_wf in Hr as (Hcs & _ & Hb & ->).
    unfold Client.total_chunks in Hlt. rewrite Hcs in Hlt. f_equal. lia.
  - cbn [Client.transmit_loop] in Hrun.
    destruct (Client.base_idx x <? Client.total_chunks x)%nat eqn:Hlt.
    + unfold mbind, M_bind in Hrun.
      destruct (Client.transmit_iter ev x c) as [[x1|e] c1] eqn:Hit; [|discriminate].
      apply (IH x1 c1); [|done]. by apply (transmit_iter_reachable _ _ ev x x1 c c1).
    + cbn in Hrun. injection Hrun as <- _.
      apply Nat.ltb_ge in Hlt.
      apply tx_reachable_wf in Hr as (Hcs & _ & Hb & ->).
      unfold Client.total_chunks in Hlt. rewrite Hcs in Hlt. f_equal. lia.
Qed.

(* --------------------------------------------------------------------- *)
(* The three processes together                                           *)
(* --------------------------------------------------------------------- *)

(* What handle_data does, in full. *)
Lemma handle_data_effect (s : Server.t) (client_id : Z) (pkt : Packet) :
  let s' := snd (Server.handle_data client_id pkt s) in
  Server.port s' = Server.port s /\
  ((Server.clients s' = Server.clients s /\ Server.disk s' = Server.disk s /\
    (Server.wire s' = Server.wire s \/
     exists st d, Server.clients s !! client_id = Some st /\
       pack (Server.ack_pkt s client_id (Server.expected_seq st)) = Ok d /\
       Server.wire s' = Server.wire s ++ [d]))
   \/
   (exists st fh, Server.clients s !! client_id = Some st /\
      seq pkt = Server.expected_seq st /\ data pkt <> [] /\
      Server.current_file st = Some fh /\
      Server.clients s' =
        <[client_id := {| Server.expected_seq :=
                            Server.expected_seq st + Z.of_nat (length (data pkt));
                          Server.current_file := Some fh |}]> (Server.clients s) /\
      Server.disk s' =
        <[Server.path fh :=
            default [] (Server.disk s !! Server.path fh) ++ data pkt]> (Server.disk s) /\
      (Server.wire s' = Server.wire s \/
       exists d, pack (Server.ack_pkt s client_id
                   (Server.expected_seq st + Z.of_nat (length (data pkt)))) = Ok d /\
                 Server.wire s' = Server.wire s ++ [d]))).
Proof.
  unfold Server.handle_data. monad_unfold.
  destruct (Server.clients s !! client_id) as [st|] eqn:Hst;
    [|split; [done|]; left; auto].
  destruct (seq pkt =? Server.expected_seq st) eqn:Hseq.
  - apply Z.eqb_eq in Hseq.
    destruct (0 <? Z.of_nat (length (data pkt))) eqn:Hlen;
      [|split; [done|]; left; auto].
    assert (Hne : data pkt <> []).
    { intros He. rewrite He in Hlen. discriminate. }
    unfold Server.write_flush.
    destruct (Server.current_file st) as [fh|] eqn:Hf;
      [|split; [done|]; left; auto].
    destruct (Server.closed fh) eqn:Hcl; [split; [done|]; left; auto|].
    monad_unfold. cbn [fst snd]. unfold Server.send_to_net. monad_unfold.
    assert (Hcl' : alter (fun st0 => {| Server.expected_seq :=
                     Server.expected_seq st0 + Z.of_nat (length (data pkt));
                     Server.current_file := Server.current_file st0 |})
                client_id (Server.clients s)
            = <[client_id := {| Server.expected_seq :=
                     Server.expected_seq st + Z.of_nat (length (data pkt));
                     Server.current_file := Some fh |}]> (Server.clients s)).
    { apply map_eq; intros j; rewrite lookup_alter, lookup_insert.
      case_decide; [subst; rewrite Hst; cbn; by rewrite Hf | done]. }
    destruct (pack _) as [d|e] eqn:Hd;
      cbn [snd Server.port Server.clients Server.disk Server.wire
           Server.set_wire Server.set_clients Server.set_disk].
    + split; [done|]. right. exists st, fh. rewrite Hcl'.
      repeat (split; [done|]). right. exists d. split; [exact Hd | done].
    + split; [done|]. right. exists st, fh. rewrite Hcl'.
      repeat (split; [done|]). by left.
  - unfold Server.send_to_net. monad_unfold.
    assert (Hboth : forall b : bool,
      (if b then (fun s0 : Server.t =>
                match pack (Server.ack_pkt s client_id (Server.expected_seq st)) with
                | Ok a => (Ok tt, Server.set_wire (fun w => w ++ [a]) s0)
                | Raise e => (Raise e, s0) end)
       else (fun s0 : Server.t =>
                match pack (Server.ack_pkt s client_id (Server.expected_seq st)) with
                | Ok a => (Ok tt, Server.set_wire (fun w => w ++ [a]) s0)
                | Raise e => (Raise e, s0) end)) s
      = match pack (Server.ack_pkt s client_id (Server.expected_seq st)) with
        | Ok a => (Ok tt, Server.set_wire (fun w => w ++ [a]) s)
        | Raise e => (Raise e, s) end) by (by intros []).
    rewrite Hboth.
    destruct (pack _) as [d|e] eqn:Hd; cbn [snd]; (split; [done|]); left;
      (split; [done|]); (split; [done|]).
    + right. exists st, d. done.
    + by left.
Qed.

(* What handle_fin does, in full. *)
Lemma handle_fin_effect (s : Server.t) (client_id : Z) (pkt : Packet) :
  let s' := snd (Server.handle_fin client_id pkt s) in
  Server.port s' = Server.port s /\ Server.disk s' = Server.disk s /\
  ((Server.clients s' = Server.clients s /\ Server.wire s' = Server.wire s) \/
   (exists st d, Server.clients s !! client_id = Some st /\
      pack (Server.ack_pkt s client_id (seq pkt + 1)) = Ok d /\
      Server.clients s' = delete client_id (Server.clients s) /\
      Server.wire s' = Server.wire s ++ [d]) \/
   (exists st, Server.clients s !! client_id = Some st /\
      Server.clients s' =
        <[client_id := {| Server.expected_seq := Server.expected_seq st;
                          Server.current_file :=
                            match Server.current_file st with
                            | Some fh => Some {| Server.path := Server.path fh;
                                                 Server.closed := true |}
                            | None => None
                            end |}]> (Server.clients s) /\
      Server.wire s' = Server.wire s)).
Proof.
  unfold Server.handle_fin. monad_unfold.
  destruct (Server.clients s !! client_id) as [st|] eqn:Hst;
    [|split; [done|]; split; [done|]; left; auto].
  unfold Server.close_file, Server.send_to_net. monad_unfold.
  destruct (pack _) as [d|e] eqn:Hd;
    cbn [snd Server.port Server.clients Server.disk Server.wire
         Server.set_wire Server.set_clients].
  - split; [done|]. split; [done|]. right; left. exists st, d.
    split; [done|]. split; [done|]. split; [|done].
    apply map_eq; intros j.
    destruct (decide (client_id = j)) as [->|Hj].
    + by rewrite !lookup_delete_eq.
    + by rewrite !lookup_delete_ne, lookup_alter_ne.
  - split; [done|]. split; [done|]. right; right. exists st. split; [done|].
    split; [|done].
    apply map_eq; intros j; rewrite lookup_alter, lookup_insert.
    case_decide; [subst; rewrite Hst; cbn; reflexivity | done].
Qed.

Lemma takes_Forall {A} (P : A -> Prop) (q q' : list A) (x : option A) :
  System.takes q x q' -> Forall P q ->
  Forall P q' /\ match x with Some a => P a | None => True end.
Proof.
  destruct x as [a|]; cbn.
  - intros (q1 & q2 & -> & ->) H. apply Forall_app in H as [H1 H2].
    apply Forall_cons in H2 as [Ha H2]. split; [|done].
    apply Forall_app. done.
  - intros -> H. done.
Qed.

Lemma delivered_to_Forall (P : list byte -> Prop) (a : Net.addr)
    (outs : list (list byte * Net.addr)) :
  Forall (fun e => P (fst e)) outs -> Forall P (System.delivered_to a outs).
Proof.
  induction 1 as [|[d a'] outs Hd _ IH]; cbn; [constructor|].
  case_decide; cbn; [constructor; done | done].
Qed.

Section SystemProof.

Variables (Pc Ps : Z) (input : option (list byte)).
Hypothesis HPs : 0 <= Ps < 2^16.

Local Abbreviation cs := (input_chunks input).

Lemma input_chunks_nonempty : Forall (fun c => c <> []) cs.
Proof.
  unfold input_chunks. destruct input; [apply read_loop_nonempty | constructor].
Qed.

Lemma input_chunks_max : Forall (fun c => (length c <= MAX_PAYLOAD_SIZE)%nat) cs.
Proof.
  unfold input_chunks. destruct input; [apply read_loop_max | constructor].
Qed.

Lemma input_chunks_concat (f : list byte) : input = Some f -> concat cs = f.
Proof. intros ->. cbn. by apply read_loop_concat. Qed.

Lemma seq_of_inj (i j : nat) :
  (i <= length cs)%nat -> (j <= length cs)%nat ->
  seq_of cs 101 i = seq_of cs 101 j -> i = j.
Proof.
  intros Hi Hj Heq.
  destruct (Nat.lt_trichotomy i j) as [Hlt|[->|Hlt]]; [|done|].
  - pose proof (seq_of_strict cs 101 i j input_chunks_nonempty Hlt Hj). lia.
  - pose proof (seq_of_strict cs 101 j i input_chunks_nonempty Hlt Hi). lia.
Qed.

Lemma seq_of_ge (i : nat) : 101 <= seq_of cs 101 i.
Proof. unfold seq_of. lia. Qed.

Lemma high_water_ge (s : Server.t) : 101 <= high_water Pc s.
Proof. unfold high_water. lia. Qed.

Lemma is_chunk_facts (sq : Z) (payload : list byte) :
  is_chunk input sq payload ->
  payload <> [] /\ (length payload <= MAX_PAYLOAD_SIZE)%nat /\ 101 <= sq.
Proof.
  intros (i & Hi & ->).
  pose proof input_chunks_nonempty as Hne. pose proof input_chunks_max as Hmax.
  rewrite Forall_forall in Hne, Hmax.
  apply list_elem_of_lookup_2 in Hi.
  split; [by apply Hne|]. split; [by apply Hmax | apply seq_of_ge].
Qed.

Lemma legit_pkt_mono (stage stage' : nat) (hw hw' : Z) (p : Packet) :
  (stage <= stage')%nat -> ((1 <= stage)%nat -> hw <= hw') ->
  legit_pkt Pc Ps input stage hw p -> legit_pkt Pc Ps input stage' hw' p.
Proof.
  intros Hs Hh [(H1 & H2 & H)|(H1 & H2 & H3 & H)]; [left | right].
  - split; [done|]. split; [done|].
    destruct H as [H|[(Ha & Hb & Hc)|(Ha & Hb & Hc)]];
      [by left | right; left | right; right]; (split; [done|]); (split; [lia|]);
      done.
  - split; [done|]. split; [done|]. split; [done|].
    destruct H as [H|[(Ha & Hb & Hc)|(Ha & Hb & Hc)]];
      [by left | right; left | right; right]; (split; [lia|]); (split; [done|]);
      [done|].
    destruct Hc as [Hc|Hc]; [left; specialize (Hh Ha); lia | right; lia].
Qed.

Lemma legit_mono (stage stage' : nat) (hw hw' : Z) (d : list byte) :
  (stage <= stage')%nat -> ((1 <= stage)%nat -> hw <= hw') ->
  legit Pc Ps input stage hw d -> legit Pc Ps input stage' hw' d.
Proof.
  intros Hs Hh (p & Hp & Hl). exists p. split; [done|].
  by apply (legit_pkt_mono stage stage' hw hw').
Qed.

Lemma legit_data_length (stage : nat) (hw : Z) (p : Packet) :
  legit_pkt Pc Ps input stage hw p -> (length (data p) <= MAX_PAYLOAD_SIZE)%nat.
Proof.
  assert (H0 : (length (@nil byte) <= MAX_PAYLOAD_SIZE)%nat) by (cbn; lia).
  intros [(_ & _ & [(_ & _ & ->)|[(_ & _ & Hc)|(_ & _ & _ & ->)]])
         |(_ & _ & -> & _)]; try done.
  by apply is_chunk_facts in Hc as (_ & ? & _).
Qed.

(* A legitimate datagram comes out of recvfrom and unpack as it went in. *)
Lemma legit_receive (stage : nat) (hw : Z) (d : list byte) :
  legit Pc Ps input stage hw d ->
  recvfrom d = d /\
  exists p, unpack d = Ok p /\ pack p = Ok d /\ legit_pkt Pc Ps input stage hw p.
Proof.
  intros (p & Hp & Hl). split.
  - unfold recvfrom. apply take_ge.
    rewrite (pack_length _ _ Hp).
    pose proof (legit_data_length _ _ _ Hl).
    unfold MAX_PAYLOAD_SIZE, SERVER_BUFFER_SIZE, HEADER_SIZE in *. lia.
  - exists p. split; [by apply unpack_pack | done].
Qed.

Lemma datagrams_inv_mono (stage stage' : nat) (hw hw' : Z) (w : System.world) :
  (stage <= stage')%nat -> ((1 <= stage)%nat -> hw <= hw') ->
  datagrams_inv Pc Ps input stage hw w -> datagrams_inv Pc Ps input stage' hw' w.
Proof.
  intros Hs Hh (H1 & H2 & H3 & H4 & H5 & H6 & H7).
  unfold datagrams_inv.
  repeat split; (eapply Forall_impl; [eassumption|]); cbn; intros;
    by eapply (legit_mono stage stage' hw hw').
Qed.


(* ------------------------- the receiver's step ----------------------- *)

Lemma has_flag_syn_syn : has_flag FLAG_SYN FLAG_SYN = true.
Proof. reflexivity. Qed.
Lemma has_flag_synack_syn : has_flag (Z.lor FLAG_SYN FLAG_ACK) FLAG_SYN = true.
Proof. reflexivity. Qed.
Lemma has_flag_fin_syn : has_flag FLAG_FIN FLAG_SYN = false.
Proof. reflexivity. Qed.
Lemma has_flag_fin_fin : has_flag FLAG_FIN FLAG_FIN = true.
Proof. reflexivity. Qed.
Lemma has_flag_ack_syn : has_flag FLAG_ACK FLAG_SYN = false.
Proof. reflexivity. Qed.
Lemma has_flag_ack_fin : has_flag FLAG_ACK FLAG_FIN = false.
Proof. reflexivity. Qed.
Lemma has_flag_zero (mask : Z) : has_flag 0 mask = false.
Proof. reflexivity. Qed.

Lemma process_syn (b : list byte) (p : Packet) (s : Server.t) :
  unpack b = Ok p -> has_flag (flags p) FLAG_SYN = true ->
  Server.process_packet b s = Server.handle_syn (src_port p) p s.
Proof. intros Hu Hf. unfold Server.process_packet. by rewrite Hu, Hf. Qed.

Lemma process_fin (b : list byte) (p : Packet) (s : Server.t) :
  unpack b = Ok p -> has_flag (flags p) FLAG_SYN = false ->
  has_flag (flags p) FLAG_FIN = true ->
  Server.process_packet b s = Server.handle_fin (src_port p) p s.
Proof. intros Hu Hf Hg. unfold Server.process_packet. by rewrite Hu, Hf, Hg. Qed.

Lemma process_data (b : list byte) (p : Packet) (s : Server.t) :
  unpack b = Ok p -> has_flag (flags p) FLAG_SYN = false ->
  has_flag (flags p) FLAG_FIN = false ->
  Server.process_packet b s = Server.handle_data (src_port p) p s.
Proof. intros Hu Hf Hg. unfold Server.process_packet. by rewrite Hu, Hf, Hg. Qed.

Lemma high_water_disk (s s' : Server.t) :
  Server.disk s' !! Pc = Server.disk s !! Pc ->
  high_water Pc s' = high_water Pc s.
Proof. unfold high_water. by intros ->. Qed.

Lemma server_inv_ext (stage : nat) (s s' : Server.t) :
  Server.port s' = Server.port s -> Server.clients s' = Server.clients s ->
  Server.disk s' = Server.disk s ->
  server_inv Pc Ps input stage s -> server_inv Pc Ps input stage s'.
Proof.
  intros Hp Hc Hd. unfold server_inv, high_water. by rewrite Hp, Hc, Hd.
Qed.

(* The prefix of the input held by the output file determines the
   high-water mark. *)
Lemma high_water_prefix (s : Server.t) (m : nat) :
  Server.disk s !! Pc = Some (concat (take m cs)) ->
  high_water Pc s = seq_of cs 101 m.
Proof. unfold high_water, seq_of. by intros ->. Qed.

(* A SYN of the sender, handled while the stage is at most 1. *)
Lemma handle_syn_client_inv (stage : nat) (s : Server.t) (p : Packet) (d : list byte) :
  server_inv Pc Ps input stage s -> (stage <= 1)%nat ->
  pack p = Ok d -> src_port p = Pc -> seq p = 100 ->
  let s' := snd (Server.handle_syn Pc p s) in
  server_inv Pc Ps input 1 s' /\
  ((1 <= stage)%nat -> high_water Pc s <= high_water Pc s') /\
  exists outs, Server.wire s' = Server.wire s ++ outs /\
               Forall (legit Pc Ps input 1 (high_water Pc s')) outs.
Proof.
  intros (Hport & Hpath & H0 & H1 & Hge & H3) Hstage Hp Hsrc Hseq.
  assert (HPc : 0 <= Pc < 2^16).
  { apply pack_Ok_in_range in Hp as (Hr & _). by rewrite Hsrc in Hr. }
  assert (Hd := pack_in_range _ (syn_ack_in_range s Pc (seq p)
                  ltac:(rewrite Hport; exact HPs) HPc ltac:(rewrite Hseq; lia))).
  cbn zeta. rewrite (handle_syn_Ok s Pc p _ Hd). cbn [snd].
  set (s' := {| Server.port := _ |}).
  assert (Hdisk : Server.disk s' !! Pc = Some []) by apply lookup_insert_eq.
  assert (Hhw : high_water Pc s' = 101).
  { unfold high_water. by rewrite Hdisk. }
  split; [|split].
  - unfold server_inv. split; [exact Hport|]. split; [|split; [|split; [|split]]].
    + intros cid st fh. cbn [Server.clients s']. rewrite lookup_insert.
      case_decide as Hc; [|apply Hpath].
      intros [= <-] [= <-]. by cbn.
    + discriminate.
    + intros _. exact Hdisk.
    + intros _. split; [|split].
      * exists 0%nat. split; [lia|]. by rewrite take_0.
      * intros st. cbn [Server.clients s']. rewrite lookup_insert_eq.
        intros [= <-]. left. cbn. rewrite Hhw, Hseq. reflexivity.
      * intros cid st Hst Hne. cbn [Server.clients s'] in Hst.
        rewrite lookup_insert_ne in Hst by done.
        destruct (decide (stage = 0%nat)) as [Hz|Hnz].
        -- rewrite (H0 Hz) in Hst. by rewrite lookup_empty in Hst.
        -- apply (proj2 (proj2 (Hge ltac:(lia))) cid st Hst Hne).
    + lia.
  - intros Hs1. rewrite Hhw. unfold high_water. rewrite (H1 ltac:(lia)). cbn. lia.
  - eexists. split; [reflexivity|]. constructor; [|constructor].
    eexists. split; [exact Hd|]. right.
    cbn [Server.syn_ack_pkt src_port seq data flags ack].
    split; [exact Hport|]. split; [done|]. split; [done|].
    right; left. split; [lia|]. split; [done|]. right. rewrite Hseq. reflexivity.
Qed.

(* The receiver's own SYN-ACK coming back to it, handled as a SYN of
   virtual port Ps. *)
Lemma handle_syn_server_inv (stage : nat) (s : Server.t) (p : Packet) :
  server_inv Pc Ps input stage s -> (1 <= stage)%nat ->
  (Ps = Pc -> (stage <= 1)%nat) ->
  src_port p = Ps -> seq p = 0 ->
  let s' := snd (Server.handle_syn Ps p s) in
  server_inv Pc Ps input stage s' /\
  high_water Pc s <= high_water Pc s' /\
  exists outs, Server.wire s' = Server.wire s ++ outs /\
               Forall (legit Pc Ps input stage (high_water Pc s')) outs.
Proof.
  intros (Hport & Hpath & H0 & H1 & Hge & H3) Hstage Hsame Hsrc Hseq.
  assert (Hd := pack_in_range _ (syn_ack_in_range s Ps (seq p)
                  ltac:(rewrite Hport; exact HPs) HPs ltac:(rewrite Hseq; lia))).
  cbn zeta. rewrite (handle_syn_Ok s Ps p _ Hd). cbn [snd].
  set (s' := {| Server.port := _ |}).
  destruct (Hge Hstage) as ((m & Hm & Hdm) & HS2 & HS4).
  assert (Hhw : high_water Pc s' = high_water Pc s).
  { destruct (decide (Ps = Pc)) as [He|Hne].
    - unfold high_water. cbn [Server.disk s']. rewrite He, lookup_insert_eq.
      rewrite (H1 ltac:(specialize (Hsame He); lia)). reflexivity.
    - apply high_water_disk. cbn [Server.disk s']. by apply lookup_insert_ne. }
  split; [|split].
  - unfold server_inv. split; [exact Hport|]. split; [|split; [|split; [|split]]].
    + intros cid st fh. cbn [Server.clients s']. rewrite lookup_insert.
      case_decide as Hc; [|apply Hpath].
      intros [= <-] [= <-]. by cbn.
    + lia.
    + intros Hs1. cbn [Server.disk s']. rewrite lookup_insert.
      case_decide; [done | by apply H1].
    + intros _. split; [|split].
      * destruct (decide (Ps = Pc)) as [He|Hne].
        -- exists 0%nat. split; [lia|]. cbn [Server.disk s'].
           by rewrite He, lookup_insert_eq, take_0.
        -- exists m. split; [done|]. cbn [Server.disk s'].
           by rewrite lookup_insert_ne.
      * intros st. cbn [Server.clients s']. rewrite lookup_insert.
        case_decide as Hc.
        -- intros [= <-]. right. cbn. rewrite Hseq. reflexivity.
        -- rewrite Hhw. apply HS2.
      * intros cid st. cbn [Server.clients s']. rewrite lookup_insert.
        case_decide as Hc.
        -- intros [= <-] _. cbn. rewrite Hseq. reflexivity.
        -- apply HS4.
    + intros Hs3. cbn [Server.disk s']. rewrite lookup_insert.
      case_decide as Hc; [specialize (Hsame Hc); lia | by apply H3].
  - rewrite Hhw. lia.
  - eexists. split; [reflexivity|]. constructor; [|constructor].
    eexists. split; [exact Hd|]. right.
    cbn [Server.syn_ack_pkt src_port seq data flags ack].
    split; [exact Hport|]. split; [done|]. split; [done|].
    right; left. split; [lia|]. split; [done|]. left. rewrite Hseq. reflexivity.
Qed.

(* The sender's FIN. *)
Lemma handle_fin_inv (stage : nat) (s : Server.t) (p : Packet) :
  server_inv Pc Ps input stage s -> (3 <= stage)%nat ->
  src_port p = Pc ->
  let s' := snd (Server.handle_fin Pc p s) in
  server_inv Pc Ps input stage s' /\
  high_water Pc s <= high_water Pc s' /\
  exists outs, Server.wire s' = Server.wire s ++ outs /\
               Forall (legit Pc Ps input stage (high_water Pc s')) outs.
Proof.
  intros Hinv Hstage Hsrc. cbn zeta.
  destruct (handle_fin_effect s Pc p) as (Hp & Hd & Hcases).
  pose proof Hinv as (Hport & Hpath & H0 & H1 & Hge & H3).
  destruct (Hge ltac:(lia)) as (Hm & HS2 & HS4).
  assert (Hhw : high_water Pc (snd (Server.handle_fin Pc p s)) = high_water Pc s)
    by (apply high_water_disk; by rewrite Hd).
  split; [|split; [rewrite Hhw; lia|]].
  - destruct Hcases as [(Hc & _)|[(st & d & Hst & _ & Hc & _)|(st & Hst & Hc & _)]].
    + by apply (server_inv_ext stage s).
    + unfold server_inv. rewrite Hp, Hd, Hc, Hhw.
      split; [done|]. split; [|split; [lia|split; [lia|split]]].
      * intros cid st' fh Hl. apply lookup_delete_Some in Hl as [_ Hl].
        by apply Hpath.
      * intros _. split; [done|]. split.
        -- intros st'. rewrite lookup_delete_eq. discriminate.
        -- intros cid st' Hl. apply lookup_delete_Some in Hl as [_ Hl].
           by apply HS4.
      * done.
    + unfold server_inv. rewrite Hp, Hd, Hc, Hhw.
      split; [done|]. split; [|split; [lia|split; [lia|split]]].
      * intros cid st' fh. rewrite lookup_insert. case_decide as Hcid.
        -- intros [= <-]. cbn.
           destruct (Server.current_file st) as [fh0|] eqn:Hf; [|discriminate].
           intros [= <-]. cbn. subst cid. by apply (Hpath Pc st fh0).
        -- apply Hpath.
      * intros _. split; [done|]. split.
        -- intros st'. rewrite lookup_insert_eq. intros [= <-]. cbn.
           by apply HS2.
        -- intros cid st' Hl Hne. rewrite lookup_insert_ne in Hl by done.
           by apply (HS4 cid).
      * done.
  - destruct Hcases as [(_ & Hw)|[(st & d & Hst & Hpk & _ & Hw)|(st & _ & _ & Hw)]].
    + exists []. by rewrite Hw, app_nil_r.
    + exists [d]. split; [done|]. constructor; [|constructor].
      eexists. split; [exact Hpk|]. right.
      cbn [Server.ack_pkt src_port seq data flags ack].
      split; [done|]. split; [done|]. split; [done|].
      right; right. split; [lia|]. split; [done|]. by right.
    + exists []. by rewrite Hw, app_nil_r.
Qed.

Lemma server_inv_stage_pos (stage : nat) (s : Server.t) (cid : Z) (st : Server.conn) :
  server_inv Pc Ps input stage s -> Server.clients s !! cid = Some st ->
  (1 <= stage)%nat.
Proof.
  intros (_ & _ & H0 & _) Hst.
  destruct (decide (stage = 0%nat)) as [Hz|]; [|lia].
  rewrite (H0 Hz), lookup_empty in Hst. discriminate.
Qed.

(* The acknowledgement of the stored expected_seq is legitimate. *)
Lemma ack_expected_legit (stage : nat) (s : Server.t) (cid : Z)
    (st : Server.conn) (d : list byte) :
  server_inv Pc Ps input stage s -> Server.clients s !! cid = Some st ->
  pack (Server.ack_pkt s cid (Server.expected_seq st)) = Ok d ->
  legit Pc Ps input stage (high_water Pc s) d.
Proof.
  intros Hinv Hst Hpk.
  pose proof (server_inv_stage_pos _ _ _ _ Hinv Hst) as Hpos.
  destruct Hinv as (Hport & _ & _ & _ & Hge & _).
  destruct (Hge Hpos) as (_ & HS2 & HS4).
  eexists. split; [exact Hpk|]. right.
  cbn [Server.ack_pkt src_port seq data flags ack].
  split; [done|]. split; [done|]. split; [done|].
  right; right. split; [done|]. split; [done|]. left.
  pose proof (high_water_ge s).
  destruct (decide (cid = Pc)) as [->|Hne].
  - destruct (HS2 st Hst) as [-> | ->]; lia.
  - rewrite (HS4 cid st Hst Hne). lia.
Qed.

(* A packet without SYN and FIN flag handled by handle_data. *)
Lemma handle_data_inv (stage : nat) (s : Server.t) (p : Packet) :
  server_inv Pc Ps input stage s ->
  legit_pkt Pc Ps input stage (high_water Pc s) p ->
  let s' := snd (Server.handle_data (src_port p) p s) in
  server_inv Pc Ps input stage s' /\
  high_water Pc s <= high_water Pc s' /\
  exists outs, Server.wire s' = Server.wire s ++ outs /\
               Forall (legit Pc Ps input stage (high_water Pc s')) outs.
Proof.
  intros Hinv Hl. cbn zeta.
  destruct (handle_data_effect s (src_port p) p) as (Hp & Hcases).
  destruct Hcases as [(Hc & Hd & Hw)|(st & fh & Hst & Hseq & Hne & Hf & Hc & Hd & Hw)].
  - assert (Hhw : high_water Pc (snd (Server.handle_data (src_port p) p s))
                  = high_water Pc s) by (apply high_water_disk; by rewrite Hd).
    split; [by apply (server_inv_ext stage s)|]. split; [rewrite Hhw; lia|].
    rewrite Hhw.
    destruct Hw as [Hw|(st & d & Hst & Hpk & Hw)].
    + exists []. by rewrite Hw, app_nil_r.
    + exists [d]. split; [done|]. constructor; [|constructor].
      by apply (ack_expected_legit stage s (src_port p) st).
  - (* an in-order payload: it is the next chunk of the input *)
    destruct Hl as [(Hsrc & _ & Hk)|(_ & _ & He & _)]; [|by rewrite He in Hne].
    destruct Hk as [(_ & _ & He)|[(_ & Hstage & Hck)|(_ & _ & _ & He)]];
      [by rewrite He in Hne| |by rewrite He in Hne].
    rewrite Hsrc in *.
    pose proof Hinv as (Hport & Hpath & H0 & H1 & Hge & H3).
    destruct (Hge ltac:(lia)) as ((m & Hm & Hdm) & HS2 & HS4).
    pose proof (high_water_prefix s m Hdm) as Hhw.
    destruct Hck as (i & Hi & Hsq).
    pose proof (lookup_lt_Some _ _ _ Hi) as Hilt.
    assert (Him : i = m).
    { apply seq_of_inj; [lia | lia |].
      destruct (HS2 st Hst) as [Hx|Hx]; [lia|].
      pose proof (seq_of_ge i). lia. }
    subst i.
    pose proof (Hpath Pc st fh Hst Hf) as Hfp.
    assert (Hdisk' : Server.disk (snd (Server.handle_data Pc p s)) !! Pc
                     = Some (concat (take (S m) cs))).
    { rewrite Hd, Hfp, lookup_insert_eq, Hdm. cbn [default].
      rewrite (take_S_r _ _ _ Hi), concat_app. cbn. by rewrite app_nil_r. }
    pose proof (high_water_prefix _ _ Hdisk') as Hhw'.
    pose proof (seq_of_S cs 101 m _ Hi) as HS.
    split; [|split].
    + unfold server_inv. rewrite Hp, Hc.
      split; [done|]. split; [|split; [lia|split; [lia|split]]].
      * intros cid st' fh'. rewrite lookup_insert. case_decide as Hcid.
        -- intros [= <-]. cbn. intros [= <-]. by subst cid.
        -- apply Hpath.
      * intros _. split; [|split].
        -- exists (S m). split; [lia | exact Hdisk'].
        -- intros st'. rewrite lookup_insert_eq. intros [= <-]. left. cbn.
           destruct (HS2 st Hst) as [Hx|Hx]; [lia|].
           pose proof (seq_of_ge m). lia.
        -- intros cid st' Hl Hne'. rewrite lookup_insert_ne in Hl by done.
           by apply (HS4 cid).
      * intros Hs3. exfalso. specialize (H3 Hs3). rewrite Hdm in H3.
        injection H3 as H3.
        assert (seq_of cs 101 m = seq_of cs 101 (length cs)).
        { unfold seq_of. rewrite H3, take_ge by lia. reflexivity. }
        assert (m = length cs) by (apply seq_of_inj; [lia | lia | done]). lia.
    + lia.
    + destruct Hw as [Hw|(d & Hpk & Hw)].
      * exists []. by rewrite Hw, app_nil_r.
      * exists [d]. split; [done|]. constructor; [|constructor].
        eexists. split; [exact Hpk|]. right.
        cbn [Server.ack_pkt src_port seq data flags ack].
        split; [done|]. split; [done|]. split; [done|].
        right; right. split; [lia|]. split; [done|]. left.
        destruct (HS2 st Hst) as [Hx|Hx]; [lia|].
        pose proof (seq_of_ge m). lia.
Qed.

(* One datagram handled by the receiver. *)
Lemma server_step_inv (stage : nat) (s : Server.t) (d : list byte) :
  server_inv Pc Ps input stage s ->
  legit Pc Ps input stage (high_water Pc s) d ->
  (Server.syn_from Pc d -> (stage <= 1)%nat) ->
  let s' := Server.run_step d s in
  exists stage',
    (stage' = stage \/ (stage = 0%nat /\ stage' = 1%nat)) /\
    server_inv Pc Ps input stage' s' /\
    ((1 <= stage)%nat -> high_water Pc s <= high_water Pc s') /\
    exists outs, Server.wire s' = Server.wire s ++ outs /\
                 Forall (legit Pc Ps input stage' (high_water Pc s')) outs.
Proof.
  intros Hinv Hd Hsyn. cbn zeta. unfold Server.run_step.
  destruct (legit_receive _ _ _ Hd) as (Hrecv & p & Hu & Hpk & Hl).
  rewrite Hrecv.
  assert (Hsyn' : has_flag (flags p) FLAG_SYN = true -> src_port p = Pc ->
                  (stage <= 1)%nat).
  { intros Hf Hsrc. apply Hsyn. exists p. by rewrite Hrecv. }
  pose proof Hl as [(Hsrc & Hack & Hk)|(Hsrc & Hseq & Hdata & Hk)].
  - destruct Hk as [(Hfl & Hseq & Hdata)|[(Hfl & Hstage & Hck)|(Hfl & Hstage & Hseq & Hdata)]].
    + (* the sender's SYN *)
      rewrite (process_syn d p s Hu) by (rewrite Hfl; apply has_flag_syn_syn).
      rewrite Hsrc.
      assert (Hs1 : (stage <= 1)%nat)
        by (apply Hsyn'; [rewrite Hfl; apply has_flag_syn_syn | done]).
      destruct (handle_syn_client_inv stage s p d Hinv Hs1 Hpk Hsrc Hseq)
        as (Hinv' & Hhw & Houts).
      exists 1%nat. split; [lia|]. done.
    + (* a data segment *)
      rewrite (process_data d p s Hu)
        by (rewrite Hfl; first [apply has_flag_ack_syn | apply has_flag_ack_fin]).
      destruct (handle_data_inv stage s p Hinv Hl) as (Hinv' & Hhw & Houts).
      exists stage. split; [by left|]. done.
    + (* the sender's FIN *)
      rewrite (process_fin d p s Hu)
        by (rewrite Hfl; first [apply has_flag_fin_syn | apply has_flag_fin_fin]).
      rewrite Hsrc.
      destruct (handle_fin_inv stage s p Hinv Hstage Hsrc) as (Hinv' & Hhw & Houts).
      exists stage. split; [by left|]. done.
  - destruct Hk as [(Hfl & Hack)|[(Hstage & Hfl & Hack)|(Hstage & Hfl & Hack)]].
    + (* the receiver's registration datagram *)
      rewrite (process_data d p s Hu)
        by (rewrite Hfl; apply has_flag_zero).
      destruct (handle_data_inv stage s p Hinv Hl) as (Hinv' & Hhw & Houts).
      exists stage. split; [by left|]. done.
    + (* the receiver's SYN-ACK *)
      rewrite (process_syn d p s Hu) by (rewrite Hfl; apply has_flag_synack_syn).
      rewrite Hsrc.
      assert (Hsame : Ps = Pc -> (stage <= 1)%nat).
      { intros He. apply Hsyn'; [rewrite Hfl; apply has_flag_synack_syn | congruence]. }
      destruct (handle_syn_server_inv stage s p Hinv Hstage Hsame Hsrc Hseq)
        as (Hinv' & Hhw & Houts).
      exists stage. split; [by left|]. done.
    + (* an acknowledgement of the receiver *)
      rewrite (process_data d p s Hu)
        by (rewrite Hfl; first [apply has_flag_ack_syn | apply has_flag_ack_fin]).
      destruct (handle_data_inv stage s p Hinv Hl) as (Hinv' & Hhw & Houts).
      exists stage. split; [by left|]. done.
Qed.

(* --------------------------- the sender's steps ---------------------- *)

Lemma set_next_idx_wf (n : nat) (x : Client.tx) :
  tx_wf cs 101 x -> tx_wf cs 101 (Client.set_next_idx n x).
Proof. by intros (H1 & H2 & H3 & H4). Qed.

(* The inner sending loop: whatever it sends is a chunk with its sequence
   number; the window variables other than next_idx stay. *)
Lemma send_loop_inv (hw : Z) (fuel : nat) (x : Client.tx) (c : Client.t) :
  Client.port c = Pc -> tx_wf cs 101 x ->
  let res := Client.send_loop fuel x c in
  Client.port (snd res) = Pc /\ Client.file (snd res) = Client.file c /\
  (exists outs, Client.wire (snd res) = Client.wire c ++ outs /\
                Forall (legit Pc Ps input 2 hw) outs) /\
  match fst res with
  | Ok x' => tx_wf cs 101 x' /\ Client.base_seq x' = Client.base_seq x
  | Raise _ => True
  end.
Proof.
  revert x c. induction fuel as [|fuel IH]; intros x c Hport Hwf; cbn zeta.
  - cbn. split; [done|]. split; [done|]. split; [|done].
    exists []. by rewrite app_nil_r.
  - cbn [Client.send_loop].
    destruct (Client.send_guard x) eqn:Hg;
      [|cbn; split; [done|]; split; [done|]; split; [|done];
        exists []; by rewrite app_nil_r].
    unfold mbind, M_bind. unfold Client.send_one.
    destruct (Client.chunks x !! Client.next_idx x) as [chunk|] eqn:Hch;
      [|cbn; split; [done|]; split; [done|]; split; [|done];
        exists []; by rewrite app_nil_r].
    destruct (Client.seq_window x !! Client.next_idx x) as [sq|] eqn:Hsq;
      [|cbn; split; [done|]; split; [done|]; split; [|done];
        exists []; by rewrite app_nil_r].
    monad_unfold.
    destruct (pack (Client.data_pkt c sq chunk)) as [d|e] eqn:Hpk.
    + rewrite (client_send_Ok c _ d Hpk). cbn [fst snd].
      set (c1 := Client.set_wire _ c). set (x1 := Client.set_next_idx _ x).
      specialize (IH x1 c1 Hport (set_next_idx_wf _ _ Hwf)). cbn zeta in IH.
      destruct IH as (IH1 & IH2 & (outs & IH3 & IH4) & IH5).
      split; [done|]. split; [done|]. split; [|done].
      exists (d :: outs). split.
      { rewrite IH3. unfold c1. cbn. by rewrite <- app_assoc. }
      constructor; [|done].
      exists (Client.data_pkt c sq chunk). split; [done|]. left.
      cbn [Client.data_pkt src_port ack flags seq data].
      split; [done|]. split; [done|]. right; left.
      split; [done|]. split; [lia|].
      pose proof Hwf as (Hcs & _). rewrite Hcs in Hch.
      exists (Client.next_idx x). split; [done|].
      pose proof (tx_wf_window _ _ _ _ Hwf (lookup_lt_Some _ _ _ Hch)) as Hw.
      rewrite Hw in Hsq. by injection Hsq as <-.
    + rewrite (client_send_Raise c _ e Hpk). cbn [fst snd].
      split; [done|]. split; [done|]. split; [|done].
      exists []. by rewrite app_nil_r.
Qed.

Lemma server_inv_stage_2 (s : Server.t) :
  server_inv Pc Ps input 1 s -> server_inv Pc Ps input 2 s.
Proof.
  intros (Hport & Hpath & H0 & H1 & Hge & H3).
  split; [done|]. split; [done|]. split; [lia|]. split; [lia|].
  split; [intros _; apply Hge; lia | lia].
Qed.

(* When the sender's base_seq has reached the end of the input, the output
   file holds the whole input. *)
Lemma server_inv_stage_3 (s : Server.t) :
  server_inv Pc Ps input 2 s -> final_seq input <= high_water Pc s ->
  server_inv Pc Ps input 3 s.
Proof.
  intros (Hport & Hpath & H0 & H1 & Hge & H3) Hfin.
  destruct (Hge ltac:(lia)) as ((m & Hm & Hdm) & HS2 & HS4).
  split; [done|]. split; [done|]. split; [lia|]. split; [lia|].
  split; [intros _; apply Hge; lia|].
  intros _. rewrite Hdm. f_equal.
  rewrite (high_water_prefix s m Hdm) in Hfin. unfold final_seq in Hfin.
  pose proof (seq_of_mono cs 101 m (length cs) Hm).
  assert (m = length cs) by (apply seq_of_inj; lia).
  subst m. by rewrite take_ge.
Qed.

(* The sender up to its next wait. *)
Lemma client_send_inv (stage : nat) (s : Server.t) (c c' : Client.t)
    (ph ph' : System.phase) (now : Q) :
  client_inv Pc input stage (high_water Pc s) c ph ->
  server_inv Pc Ps input stage s ->
  System.client_send now ph c = Some (ph', c') ->
  exists stage', (stage <= stage')%nat /\
    client_inv Pc input stage' (high_water Pc s) c' ph' /\
    server_inv Pc Ps input stage' s /\
    exists outs, Client.wire c' = Client.wire c ++ outs /\
                 Forall (legit Pc Ps input stage' (high_water Pc s)) outs.
Proof.
  intros (Hport & Hfile & Hph) Hs Hstep.
  assert (Hnil : forall st, exists outs : list (list byte),
            Client.wire c = Client.wire c ++ outs /\
            Forall (legit Pc Ps input st (high_water Pc s)) outs).
  { intros st. exists []. by rewrite app_nil_r. }
  destruct ph as [st|st|x|x|fs n|fs n| |e]; cbn [System.client_send] in Hstep;
    try discriminate.
  - (* handshake: loop test and SYN *)
    destruct (Qlt_bool (now - st) 10).
    + destruct (pack (Client.syn_pkt c)) as [d|e] eqn:Hpk.
      * rewrite (client_send_Ok c _ d Hpk) in Hstep. injection Hstep as <- <-.
        exists stage. split; [lia|]. split; [done|]. split; [done|].
        exists [d]. split; [done|]. constructor; [|constructor].
        eexists. split; [exact Hpk|]. left.
        cbn [Client.syn_pkt src_port ack flags seq data].
        split; [done|]. split; [done|]. by left.
      * rewrite (client_send_Raise c _ e Hpk) in Hstep. injection Hstep as <- <-.
        exists stage. split; [lia|]. split; [done|]. split; [done|]. apply Hnil.
    + injection Hstep as <- <-.
      exists stage. split; [lia|]. split; [done|]. split; [done|]. apply Hnil.
  - (* transmit: fill the window, or leave the loop *)
    destruct Hph as (-> & Hwf & Hbs).
    destruct (Client.base_idx x <? Client.total_chunks x)%nat eqn:Hlt.
    + pose proof (send_loop_inv (high_water Pc s) (Client.total_chunks x) x c
                    Hport Hwf) as Hloop. cbn zeta in Hloop.
      destruct (Client.send_loop _ x c) as [[x'|e] c1] eqn:Hrun;
        cbn [fst snd] in Hloop; injection Hstep as <- <-;
        destruct Hloop as (H1 & H2 & H3 & H4).
      * exists 2%nat. split; [lia|]. split; [|done].
        split; [done|]. split; [congruence|]. destruct H4 as (? & ->). done.
      * exists 2%nat. split; [lia|]. split; [|done].
        split; [done|]. split; [congruence | done].
    + injection Hstep as <- <-. apply Nat.ltb_ge in Hlt.
      pose proof Hwf as (Hcs & _ & Hb & Hseq).
      unfold Client.total_chunks in Hlt. rewrite Hcs in Hlt.
      assert (Hfin : Client.base_seq x = final_seq input).
      { rewrite Hseq. unfold final_seq. f_equal. lia. }
      exists 3%nat. split; [lia|]. split; [done|].
      split; [apply server_inv_stage_3; [done | lia] | apply Hnil].
  - (* teardown: the next FIN, or giving up *)
    destruct Hph as (-> & ->).
    destruct n as [|n].
    + injection Hstep as <- <-.
      exists 3%nat. split; [lia|]. split; [done|]. split; [done | apply Hnil].
    + destruct (pack (Client.fin_pkt c (final_seq input))) as [d|e] eqn:Hpk.
      * rewrite (client_send_Ok c _ d Hpk) in Hstep. injection Hstep as <- <-.
        exists 3%nat. split; [lia|]. split; [done|]. split; [done|].
        exists [d]. split; [done|]. constructor; [|constructor].
        eexists. split; [exact Hpk|]. left.
        cbn [Client.fin_pkt src_port ack flags seq data].
        split; [done|]. split; [done|]. right; right. done.
      * rewrite (client_send_Raise c _ e Hpk) in Hstep. injection Hstep as <- <-.
        exists 3%nat. split; [lia|]. split; [done|]. split; [done | apply Hnil].
Qed.

Lemma wait_for_legit (stage : nat) (hw : Z) (d : list byte) :
  legit Pc Ps input stage hw d ->
  exists p, Client.wait_for_packet (Some d) = Some p /\
            legit_pkt Pc Ps input stage hw p.
Proof.
  intros Hl. destruct (legit_receive _ _ _ Hl) as (Hr & p & Hu & _ & Hp).
  exists p. unfold Client.wait_for_packet. by rewrite Hr, Hu.
Qed.

(* While the sender has not left transmit_file, no packet in flight
   acknowledges more than the output file holds. *)
Lemma legit_ack_bound (stage : nat) (s : Server.t) (p : Packet) :
  legit_pkt Pc Ps input stage (high_water Pc s) p -> (stage <= 2)%nat ->
  ack p <= high_water Pc s.
Proof.
  pose proof (high_water_ge s).
  intros [(_ & -> & _)|(_ & _ & _ & Hk)] Hstage; [lia|].
  destruct Hk as [(_ & ->)|[(_ & _ & [-> | ->])|(_ & _ & [Hb|Hb])]]; lia.
Qed.

(* A packet the handshake accepts was sent by the receiver after it had
   handled a SYN. *)
Lemma handshake_accepts_stage (stage : nat) (hw : Z) (p : Packet) :
  legit_pkt Pc Ps input stage hw p ->
  Client.handshake_accepts (Some p) = true ->
  (1 <= stage)%nat /\ ack p = 101.
Proof.
  intros Hl Hacc. cbn in Hacc. apply andb_true_iff in Hacc as [Hfl Hack].
  apply Z.eqb_eq in Hack. change (Client.handshake_seq + 1) with 101 in Hack.
  split; [|done].
  destruct Hl as [(_ & H0 & _)|(_ & _ & _ & Hk)]; [lia|].
  destruct Hk as [(H0 & _)|[(? & _)|(? & _)]]; [|done|done].
  rewrite H0 in Hfl. discriminate.
Qed.

(* run() after the handshake: a missing file ends the run; otherwise
   transmit_file starts on the chunks of the input. *)
Lemma start_transmit_cases (a : Z) (now : Q) (c : Client.t) :
  Client.file c = input ->
  System.start_transmit a now c = System.PCrashed StructError \/
  System.start_transmit a now c = System.PTransmit (Client.tx_init cs a now).
Proof.
  intros Hfile. unfold System.start_transmit, Client.read_file_chunks, input_chunks.
  rewrite Hfile. destruct input; [by right | by left].
Qed.

(* The sender from the return of a wait to its next loop test. *)
Lemma client_recv_inv (stage : nat) (s : Server.t) (c : Client.t)
    (ph ph' : System.phase) (ev : Client.tx_event) :
  client_inv Pc input stage (high_water Pc s) c ph ->
  server_inv Pc Ps input stage s ->
  match Client.rx ev with
  | Some d => legit Pc Ps input stage (high_water Pc s) d
  | None => True
  end ->
  System.client_recv ev ph c = Some ph' ->
  exists stage', (stage <= stage')%nat /\
    client_inv Pc input stage' (high_water Pc s) c ph' /\
    server_inv Pc Ps input stage' s.
Proof.
  intros (Hport & Hfile & Hph) Hs Hrx Hstep.
  assert (Hresp : match Client.wait_for_packet (Client.rx ev) with
                  | Some p => legit_pkt Pc Ps input stage (high_water Pc s) p
                  | None => True
                  end).
  { destruct (Client.rx ev) as [d|]; [|done].
    destruct (wait_for_legit _ _ _ Hrx) as (p & -> & Hp). done. }
  destruct ph as [st|st|x|x|fs n|fs n| |e]; cbn [System.client_recv] in Hstep;
    try discriminate.
  - (* handshake: the outcome of the wait *)
    destruct (Client.handshake_accepts _) eqn:Hacc;
      [|injection Hstep as <-; exists stage; split; [lia|]; done].
    destruct (Client.wait_for_packet (Client.rx ev)) as [r|];
      [|injection Hstep as <-; exists stage; split; [lia|]; done].
    destruct (handshake_accepts_stage _ _ _ Hresp Hacc) as (Hpos & Hack).
    assert (stage = 1%nat) as -> by lia.
    injection Hstep as <-.
    destruct (start_transmit_cases (ack r) (Client.t_reset ev) c Hfile) as [-> | ->].
    + exists 1%nat. split; [lia|]. split; [|done].
      split; [done|]. split; [congruence | done].
    + exists 2%nat. split; [lia|]. split; [|by apply server_inv_stage_2].
      split; [done|]. split; [congruence|]. split; [done|].
      rewrite Hack. split; [apply tx_init_wf|].
      cbn. apply high_water_ge.
  - (* transmit: the outcome of the poll *)
    destruct Hph as (-> & Hwf & Hbs).
    assert (Hx : forall x', Client.process_ack (Client.wait_for_packet (Client.rx ev))
                              (Client.t_ack ev) x = Ok x' ->
                 tx_wf cs 101 x' /\ Client.base_seq x' <= high_water Pc s).
    { intros x' Hrun.
      destruct (Client.wait_for_packet (Client.rx ev)) as [r|];
        [|by injection Hrun as <-].
      destruct (process_ack_spec cs 101 x r (Client.t_ack ev) Hwf)
        as (x'' & Hrun' & Hwf' & _ & _ & Hadv & Hsame).
      rewrite Hrun in Hrun'. injection Hrun' as <-.
      split; [done|].
      destruct (has_flag (flags r) FLAG_ACK && (Client.base_seq x <? ack r)) eqn:Hc;
        [|unfold Client.process_ack in Hrun;
          destruct (has_flag (flags r) FLAG_ACK);
          [destruct (Client.base_seq x <? ack r); [discriminate|]|];
          injection Hrun as <-; done].
      destruct (Hadv eq_refl) as (Hiff & Hseq & _).
      destruct (decide (Client.base_idx x' = Client.base_idx x)) as [He|Hne];
        [by rewrite (Hsame He)|].
      pose proof (legit_ack_bound _ _ _ Hresp ltac:(lia)) as Hb.
      destruct (decide (Client.base_idx x' = 0%nat)) as [Hz|Hnz].
      { rewrite Hseq, Hz. unfold seq_of. rewrite take_0. cbn.
        pose proof (high_water_ge s). lia. }
      destruct Hwf' as (_ & _ & Hle & _).
      pose proof (proj1 (Hiff (Client.base_idx x' - 1)%nat ltac:(lia)) ltac:(lia))
        as Hcov.
      replace (S (Client.base_idx x' - 1)) with (Client.base_idx x') in Hcov by lia.
      lia. }
    destruct (Client.process_ack _ _ x) as [x'|e] eqn:Hrun; injection Hstep as <-.
    + destruct (Hx x' eq_refl) as (Hwf' & Hbs').
      destruct (check_timeout_cases (Client.t_check ev) (Client.t_reset ev) x')
        as (H1 & H2 & H3 & H4 & _).
      exists 2%nat. split; [lia|]. split; [|done].
      split; [done|]. split; [done|]. split; [done|]. split; [|by rewrite H4].
      destruct Hwf' as (I1 & I2 & I3 & I4).
      unfold tx_wf. by rewrite H1, H2, H3, H4.
    + exists 2%nat. split; [lia|]. done.
  - (* teardown: the outcome of the wait *)
    destruct Hph as (-> & ->).
    destruct (Client.teardown_accepts _ _); injection Hstep as <-;
      exists 3%nat; (split; [lia|]); done.
Qed.

(* -------------------------- the mediator's steps --------------------- *)

(* The mediator sends and queues only the datagram it was given. *)
Lemma simulate_contents (P : list byte -> Prop) (now : Q) (d : list byte)
    (target : Net.addr) (n : Net.t) :
  P d ->
  Forall (fun e => P (fst e)) (Net.wire n) ->
  Forall (fun e => P (snd (fst e))) (Net.delayed_packets n) ->
  let n' := snd (Net.handle_simulation_and_forward now d target n) in
  Forall (fun e => P (fst e)) (Net.wire n') /\
  Forall (fun e => P (snd (fst e))) (Net.delayed_packets n').
Proof.
  intros Hd Hw Hq. cbn zeta. unfold Net.handle_simulation_and_forward.
  unfold Net.uniform.
  unfold mbind, M_bind, Net.random, Net.send_packet, modify,
    Net.set_wire, Net.set_delayed, mret, M_ret.
  cbn -[Qlt_bool Qplus Qmult Qminus].
  destruct (Qlt_bool (Net.rng n (Net.drawn n)) _); [done|].
  cbn -[Qlt_bool Qplus Qmult Qminus].
  destruct (Qlt_bool (Net.rng n (S (Net.drawn n))) _).
  { cbn. split; [|done]. rewrite !Forall_app. repeat split; try done;
      by constructor. }
  cbn -[Qlt_bool Qplus Qmult Qminus].
  destruct (Qlt_bool (Net.rng n (S (S (Net.drawn n)))) _).
  - cbn -[Qlt_bool Qplus Qmult Qminus]. split; [done|].
    rewrite Forall_app. split; [done | by constructor].
  - cbn. split; [|done]. rewrite Forall_app. split; [done | by constructor].
Qed.

Lemma register_contents (virtual_port : Z) (a : Net.addr) (n : Net.t) :
  let n' := snd (Net.register virtual_port a n) in
  Net.wire n' = Net.wire n /\ Net.delayed_packets n' = Net.delayed_packets n.
Proof.
  cbn zeta. unfold Net.register. monad_unfold.
  destruct (Net.mapping n !! virtual_port) as [a'|]; [|done].
  by destruct (decide (a' = a)).
Qed.

Lemma net_process_contents (P : list byte -> Prop) (now : Q) (d : list byte)
    (a : Net.addr) (n : Net.t) :
  P d ->
  Forall (fun e => P (fst e)) (Net.wire n) ->
  Forall (fun e => P (snd (fst e))) (Net.delayed_packets n) ->
  let n' := snd (Net.process_packet now d a n) in
  Forall (fun e => P (fst e)) (Net.wire n') /\
  Forall (fun e => P (snd (fst e))) (Net.delayed_packets n').
Proof.
  intros Hd Hw Hq. cbn zeta. unfold Net.process_packet.
  destruct (unpack d) as [pkt|e]; [|done].
  pose proof (register_contents (src_port pkt) a n) as Hreg. cbn zeta in Hreg.
  destruct (Net.register (src_port pkt) a n) as [[[]|e] n1] eqn:Hr;
    cbn [snd] in Hreg; destruct Hreg as (Hw1 & Hq1); rewrite <- Hw1, <- Hq1 in *.
  - rewrite (bind_Ok _ _ _ _ _ Hr). monad_unfold.
    destruct (Net.mapping n1 !! dst_port pkt) as [target|]; [|done].
    by apply simulate_contents.
  - by rewrite (bind_Raise _ _ _ _ _ Hr).
Qed.

Lemma drain_contents (P : list byte -> Prop) (now : Q)
    (q : list (Q * list byte * Net.addr)) :
  Forall (fun e => P (snd (fst e))) q ->
  Forall (fun e => P (fst e)) (fst (Net.drain now q)) /\
  Forall (fun e => P (snd (fst e))) (snd (Net.drain now q)).
Proof.
  induction 1 as [|[[t d] a] q Hd _ IH]; cbn [Net.drain]; [done|].
  destruct (Net.drain now q) as [out remaining]. cbn [fst snd] in *.
  destruct IH as (IH1 & IH2).
  destruct (Qle_bool t now); cbn [fst snd]; split; try done; by constructor.
Qed.

Lemma net_drain_contents (P : list byte -> Prop) (now : Q) (n : Net.t) :
  Forall (fun e => P (fst e)) (Net.wire n) ->
  Forall (fun e => P (snd (fst e))) (Net.delayed_packets n) ->
  let n' := snd (Net.send_delayed now n) in
  Forall (fun e => P (fst e)) (Net.wire n') /\
  Forall (fun e => P (snd (fst e))) (Net.delayed_packets n').
Proof.
  intros Hw Hq. cbn zeta. unfold Net.send_delayed. monad_unfold.
  destruct (drain_contents P now _ Hq) as (H1 & H2).
  destruct (Net.drain now (Net.delayed_packets n)) as [out remaining].
  cbn in *. split; [|done]. by apply Forall_app.
Qed.

(* ------------------------ the invariant holds ------------------------ *)

Variables cli_addr srv_addr : Net.addr.

Lemma system_inv_initial (w : System.world) :
  System.initial srv_addr w ->
  Client.port (System.cli w) = Pc -> Client.file (System.cli w) = input ->
  Server.port (System.srv w) = Ps ->
  system_inv Pc Ps input w.
Proof.
  intros (st & Hpc & _ & Hcw & Hcl & Hsw & Hm & Hq & Hnw & Htc & Hts & Htn)
         Hport Hfile Hsport.
  exists 0%nat. split; [|split].
  - split; [done|]. split; [done|]. rewrite Hpc. lia.
  - split; [done|]. split; [|split; [done|split; [lia|split; lia]]].
    intros cid st' fh. by rewrite Hcl, lookup_empty.
  - unfold datagrams_inv. rewrite Hcw, Hsw, Hnw, Hq, Htc, Hts, Htn.
    repeat split; try constructor.
    unfold Server.register_with_net. monad_unfold.
    set (reg := {| src_port := Server.port (System.srv w); dst_port := 0;
                   seq := 0; ack := 0; flags := 0; window := 1024;
                   data := [] |}).
    destruct (pack reg) as [d|e] eqn:Hpk.
    + rewrite (server_send_Ok _ reg d Hpk). cbn. rewrite Hsw. cbn.
      constructor; [|constructor]. cbn.
      exists reg. split; [exact Hpk|]. right. cbn.
      split; [done|]. split; [done|]. split; [done|]. by left.
    + rewrite (server_send_Raise _ reg e Hpk). cbn. rewrite Hsw. constructor.
Qed.

Lemma client_inv_server_step (stage stage' : nat) (hw hw' : Z) (c : Client.t)
    (ph : System.phase) :
  client_inv Pc input stage hw c ph ->
  (stage' = stage \/ (stage = 0%nat /\ stage' = 1%nat)) ->
  ((1 <= stage)%nat -> hw <= hw') ->
  client_inv Pc input stage' hw' c ph.
Proof.
  intros (Hport & Hfile & Hph) Hst Hhw. split; [done|]. split; [done|].
  destruct ph as [st|st|x|x|fs n|fs n| |e]; cbn in Hph |- *.
  - lia.
  - lia.
  - destruct Hph as (-> & Hwf & Hbs). split; [lia|]. split; [done|].
    specialize (Hhw ltac:(lia)). lia.
  - destruct Hph as (-> & Hwf & Hbs). split; [lia|]. split; [done|].
    specialize (Hhw ltac:(lia)). lia.
  - destruct Hph as (-> & ->). split; [lia | done].
  - destruct Hph as (-> & ->). split; [lia | done].
  - lia.
  - done.
Qed.

Lemma Forall_map_pair {A} (P : list byte -> Prop) (a : A) (l : list (list byte)) :
  Forall P l -> Forall (fun e : list byte * A => P (fst e)) (map (fun d => (d, a)) l).
Proof. induction 1; cbn; constructor; done. Qed.

(* Every step that is not a late SYN keeps the invariant. *)
Lemma system_inv_step (w w' : System.world) (l : System.label) :
  system_inv Pc Ps input w ->
  Client.port (System.cli w) = Pc ->
  System.step cli_addr srv_addr w l w' ->
  ~ System.late_syn w l ->
  system_inv Pc Ps input w'.
Proof.
  intros (stage & Hc & Hs & Hd) Hport Hstep Hlate.
  destruct Hstep as [w now ph c Hsend | w ev ph q Htk Hrecv | w d q Htk s
                    | w d a now q Htk n | w now n | w q1 q2 q3 x1 x2 x3 Ht1 Ht2 Ht3].
  - (* the sender sends *)
    destruct (client_send_inv _ _ _ _ _ _ _ Hc Hs Hsend)
      as (stage' & Hle & Hc' & Hs' & outs & Hw & Houts).
    apply (datagrams_inv_mono stage stage' _ (high_water Pc (System.srv w)))
      in Hd; [|lia|lia].
    destruct Hd as (D1 & D2 & D3 & D4 & D5 & D6 & D7).
    exists stage'. cbn [System.cli System.pc System.srv System.net
                        System.to_net System.to_cli System.to_srv].
    split; [|split; [done|]].
    + destruct Hc' as (? & ? & ?). done.
    + unfold datagrams_inv.
      cbn [System.cli System.pc System.srv System.net
           System.to_net System.to_cli System.to_srv].
      split; [constructor|]. repeat (split; [done|]). split; [|done].
      apply Forall_app. split; [done|]. apply Forall_map_pair.
      rewrite Hw. apply Forall_app. done.
  - (* the sender's wait returns *)
    destruct Hd as (D1 & D2 & D3 & D4 & D5 & D6 & D7).
    destruct (takes_Forall _ _ _ _ Htk D6) as (D6' & Hrx).
    destruct (client_recv_inv _ _ _ _ _ _ Hc Hs Hrx Hrecv)
      as (stage' & Hle & Hc' & Hs').
    exists stage'. split; [done|]. split; [done|].
    apply (datagrams_inv_mono stage stage' (high_water Pc (System.srv w)));
      [lia | intros _; cbn; lia |].
    unfold datagrams_inv. done.
  - (* the receiver handles a datagram *)
    destruct Hd as (D1 & D2 & D3 & D4 & D5 & D6 & D7).
    destruct (takes_Forall _ _ _ _ Htk D7) as (D7' & Hleg).
    assert (Hsyn : Server.syn_from Pc d -> (stage <= 1)%nat).
    { intros Hsf. destruct Hc as (_ & _ & Hph).
      destruct (System.pc w) as [st|st|x|x|fs n|fs n| |e] eqn:Hpc; try done;
        exfalso; apply Hlate; cbn; rewrite Hport, Hpc; split; try done; tauto. }
    destruct (server_step_inv stage (System.srv w) d Hs Hleg Hsyn)
      as (stage' & Hst & Hs' & Hhw & outs & Hw & Houts).
    fold s in Hs', Hhw, Hw, Houts.
    assert (Hhw' : high_water Pc (System.clear_server s) = high_water Pc s)
      by reflexivity.
    assert (Hle : (stage <= stage')%nat) by lia.
    exists stage'. cbn [System.cli System.pc System.srv System.net
                        System.to_net System.to_cli System.to_srv].
    rewrite Hhw'. split; [|split].
    + by apply (client_inv_server_step stage stage' (high_water Pc (System.srv w))).
    + by apply (server_inv_ext stage' s).
    + assert (Hm : forall d0, legit Pc Ps input stage (high_water Pc (System.srv w)) d0 ->
                              legit Pc Ps input stage' (high_water Pc s) d0).
      { intros d0. by apply legit_mono. }
      unfold datagrams_inv.
      cbn [System.cli System.pc System.srv System.net
           System.to_net System.to_cli System.to_srv].
      split; [eapply Forall_impl; [exact D1 | exact Hm]|].
      split; [constructor|].
      split; [eapply Forall_impl; [exact D3 | intros; by apply Hm]|].
      split; [eapply Forall_impl; [exact D4 | intros; by apply Hm]|].
      split.
      { apply Forall_app. split; [eapply Forall_impl; [exact D5 | intros; by apply Hm]|].
        apply Forall_map_pair. rewrite Hw. apply Forall_app.
        split; [eapply Forall_impl; [exact D2 | exact Hm] | done]. }
      split; [eapply Forall_impl; [exact D6 | exact Hm]|].
      eapply Forall_impl; [exact D7' | exact Hm].
  - (* the mediator handles a datagram *)
    destruct Hd as (D1 & D2 & D3 & D4 & D5 & D6 & D7).
    destruct (takes_Forall _ _ _ _ Htk D5) as (D5' & Hleg). cbn in Hleg.
    destruct (legit_receive _ _ _ Hleg) as (Hr & _).
    destruct (net_process_contents _ now (recvfrom d) a (System.net w)
                ltac:(rewrite Hr; exact Hleg) D3 D4) as (N1 & N2).
    fold n in N1, N2.
    exists stage. split; [done|]. split; [done|].
    unfold datagrams_inv.
    cbn [System.cli System.pc System.srv System.net
         System.to_net System.to_cli System.to_srv].
    split; [done|]. split; [done|]. split; [constructor|]. split; [done|].
    split; [done|].
    split; apply Forall_app; (split; [done|]); by apply delivered_to_Forall.
  - (* the mediator sends what is due *)
    destruct Hd as (D1 & D2 & D3 & D4 & D5 & D6 & D7).
    destruct (net_drain_contents _ now (System.net w) D3 D4) as (N1 & N2).
    fold n in N1, N2.
    exists stage. split; [done|]. split; [done|].
    unfold datagrams_inv.
    cbn [System.cli System.pc System.srv System.net
         System.to_net System.to_cli System.to_srv].
    split; [done|]. split; [done|]. split; [constructor|]. split; [done|].
    split; [done|].
    split; apply Forall_app; (split; [done|]); by apply delivered_to_Forall.
  - (* datagrams are lost *)
    destruct Hd as (D1 & D2 & D3 & D4 & D5 & D6 & D7).
    destruct (takes_Forall _ _ _ _ Ht1 D5) as (D5' & _).
    destruct (takes_Forall _ _ _ _ Ht2 D6) as (D6' & _).
    destruct (takes_Forall _ _ _ _ Ht3 D7) as (D7' & _).
    exists stage. split; [done|]. split; [done|]. unfold datagrams_inv. done.
Qed.

End SystemProof.

(* ------------- the sender's steps and the loops of client.py --------- *)

(* A send step and the following receive step of the system are one turn
   of the loop they belong to. *)
Lemma handshake_turn (start_time now : Q) (ev : Client.tx_event) (c : Client.t) :
  match System.client_send now (System.PHandshake start_time) c with
  | Some (System.PHandshakeWait _, c1) =>
      snd (Client.handshake_loop start_time [(now, Client.rx ev)] c) = c1 /\
      match fst (Client.handshake_loop start_time [(now, Client.rx ev)] c) with
      | Ok (Some a) =>
          System.client_recv ev (System.PHandshakeWait start_time) c1
          = Some (System.start_transmit a (Client.t_reset ev) c1)
      | Ok None =>
          System.client_recv ev (System.PHandshakeWait start_time) c1
          = Some (System.PHandshake start_time)
      | Raise _ => False
      end
  | Some (System.PCrashed e, c1) =>
      Client.handshake_loop start_time [(now, Client.rx ev)] c = (Raise e, c1)
  | _ => False
  end.
Proof.
  cbn [System.client_send Client.handshake_loop].
  destruct (Qlt_bool (now - start_time) 10); [|done].
  monad_unfold.
  destruct (pack (Client.syn_pkt c)) as [d|e] eqn:Hpk.
  - rewrite (client_send_Ok c _ d Hpk). cbn [System.client_recv].
    destruct (Client.handshake_accepts (Client.wait_for_packet (Client.rx ev))) eqn:Hacc.
    + destruct (Client.wait_for_packet (Client.rx ev)) as [r|]; [|discriminate].
      done.
    + done.
  - by rewrite (client_send_Raise c _ e Hpk).
Qed.

Lemma transmit_turn (now : Q) (ev : Client.tx_event) (x : Client.tx) (c : Client.t) :
  (Client.base_idx x <? Client.total_chunks x)%nat = true ->
  match System.client_send now (System.PTransmit x) c with
  | Some (System.PTransmitWait x1, c1) =>
      snd (Client.transmit_iter ev x c) = c1 /\
      System.client_recv ev (System.PTransmitWait x1) c1 =
      Some (match fst (Client.transmit_iter ev x c) with
            | Ok x' => System.PTransmit x'
            | Raise e => System.PCrashed e
            end)
  | Some (System.PCrashed e, c1) => Client.transmit_iter ev x c = (Raise e, c1)
  | _ => False
  end.
Proof.
  intros Hlt. cbn [System.client_send]. rewrite Hlt.
  unfold Client.transmit_iter. monad_unfold.
  destruct (Client.send_loop (Client.total_chunks x) x c) as [[x1|e] c1]; [|done].
  cbn [System.client_recv].
  by destruct (Client.process_ack _ _ x1).
Qed.

Lemma teardown_turn (now : Q) (ev : Client.tx_event) (final_seq : Z) (n : nat)
    (c : Client.t) :
  match System.client_send now (System.PTeardown final_seq (S n)) c with
  | Some (System.PTeardownWait _ _, c1) =>
      exists b, Client.teardown_iter final_seq (Client.rx ev) c = (Ok b, c1) /\
        System.client_recv ev (System.PTeardownWait final_seq n) c1 =
        Some (if b then System.PDone else System.PTeardown final_seq n)
  | Some (System.PCrashed e, c1) =>
      Client.teardown_iter final_seq (Client.rx ev) c = (Raise e, c1)
  | _ => False
  end.
Proof.
  cbn [System.client_send]. unfold Client.teardown_iter. monad_unfold.
  destruct (pack (Client.fin_pkt c final_seq)) as [d|e] eqn:Hpk.
  - rewrite (client_send_Ok c _ d Hpk). eexists. split; [reflexivity|].
    cbn [System.client_recv]. by destruct (Client.teardown_accepts _ _).
  - by rewrite (client_send_Raise c _ e Hpk).
Qed.

(* ------------------------- runs of the system ------------------------ *)

Lemma pick_takes {A} (i : nat) (q q' : list A) (a : A) :
  System.pick i q = Some (a, q') -> System.takes q (Some a) q'.
Proof.
  unfold System.pick. destruct (q !! i) as [a'|] eqn:Hi; [|discriminate].
  intros [= <- <-]. exists (take i q), (drop (S i) q).
  split; [|done]. symmetry. by apply take_drop_middle.
Qed.

Lemma act_step (cli_addr srv_addr : Net.addr) (a : System.action)
    (w w' : System.world) (l : System.label) :
  System.act cli_addr srv_addr a w = Some (l, w') ->
  System.step cli_addr srv_addr w l w'.
Proof.
  destruct a as [now | i t1 t2 t3 | i | i now | now]; cbn [System.act].
  - destruct (System.client_send now (System.pc w) (System.cli w))
      as [[ph c]|] eqn:Hs; [|discriminate].
    intros [= <- <-]. by apply System.step_client_send.
  - destruct i as [i|].
    + destruct (System.pick i (System.to_cli w)) as [[d q]|] eqn:Hp; [|discriminate].
      destruct (System.client_recv _ _ _) as [ph|] eqn:Hr; [|discriminate].
      intros [= <- <-]. apply System.step_client_recv; [|done].
      cbn. by apply pick_takes in Hp.
    + destruct (System.client_recv _ _ _) as [ph|] eqn:Hr; [|discriminate].
      intros [= <- <-]. by apply System.step_client_recv.
  - destruct (System.pick i (System.to_srv w)) as [[d q]|] eqn:Hp; [|discriminate].
    intros [= <- <-]. apply System.step_server_recv. by apply pick_takes in Hp.
  - destruct (System.pick i (System.to_net w)) as [[[d a] q]|] eqn:Hp; [|discriminate].
    intros [= <- <-]. apply System.step_net_recv. by apply pick_takes in Hp.
  - intros [= <- <-]. apply System.step_net_drain.
Qed.

Lemma late_syn_b_spec (w : System.world) (l : System.label) :
  System.late_syn w l -> System.late_syn_b w l = true.
Proof.
  destruct l as [| |d| | |]; cbn [System.late_syn System.late_syn_b]; try done.
  intros ((pkt & Hu & Hsrc & Hfl) & Hph). rewrite Hu, Hsrc, Hfl, Z.eqb_refl.
  cbn [andb]. destruct (System.pc w); cbn in *; try done; exfalso; by apply Hph.
Qed.

(* What the runner computes is reachable. *)
Lemma run_reachable (cli_addr srv_addr : Net.addr) (late_syns : bool)
    (actions : list System.action) (w w' : System.world) :
  System.reachable cli_addr srv_addr late_syns w ->
  System.run cli_addr srv_addr (negb late_syns) actions w = Some w' ->
  System.reachable cli_addr srv_addr late_syns w'.
Proof.
  revert w. induction actions as [|a rest IH]; intros w Hr Hrun.
  - cbn in Hrun. by injection Hrun as <-.
  - cbn [System.run] in Hrun.
    destruct (System.act cli_addr srv_addr a w) as [[l w1]|] eqn:Ha; [|discriminate].
    destruct (negb late_syns && System.late_syn_b w l) eqn:Hc; [discriminate|].
    apply (IH w1); [|done].
    apply (System.reachable_step _ _ _ w l w1); [done | by apply (act_step _ _ a) |].
    intros -> Hlate. apply late_syn_b_spec in Hlate. cbn in Hc. congruence.
Qed.

(* The invariant holds in every state reached without a late SYN. *)
Lemma reachable_inv (cli_addr srv_addr : Net.addr) (w : System.world) :
  System.reachable cli_addr srv_addr false w ->
  exists Ps, 0 <= Ps < 2^16 /\
    system_inv (Client.port (System.cli w)) Ps (Client.file (System.cli w)) w.
Proof.
  induction 1 as [w Hinit | w l w' Hr IH Hstep Hlate].
  - exists (Server.port (System.srv w)).
    pose proof Hinit as (st & _ & Hrange & _).
    split; [done|]. by apply system_inv_initial with (srv_addr := srv_addr).
  - destruct IH as (Ps & Hrange & Hinv).
    pose proof Hinv as (stage & (Hport & Hfile & _) & _).
    assert (Hinv' : system_inv (Client.port (System.cli w)) Ps
                      (Client.file (System.cli w)) w').
    { eapply system_inv_step; eauto. }
    exists Ps. split; [done|].
    destruct Hinv' as (stage' & (Hport' & Hfile' & Hph') & Hrest).
    rewrite Hport', Hfile'. exists stage'. done.
Qed.

(** C1 (amended): in every run of the three-process system in which the
    receiver handles no SYN of the sender after the sender has left its
    handshake, for every interleaving, every timing and every outcome of the
    mediator's drop/duplicate/delay trials (and any further loss of
    datagrams): once the sender has completed handshake, data transfer and
    teardown, the receiver's output file data/<src_port>.in holds exactly
    the bytes of the sender's input file. *)
Theorem transfer_delivers_input (cli_addr srv_addr : Net.addr)
    (w : System.world) (f : list byte) :
  System.reachable cli_addr srv_addr false w ->
  System.pc w = System.PDone ->
  Client.file (System.cli w) = Some f ->
  Server.disk (System.srv w) !! Client.port (System.cli w) = Some f.
Proof.
  intros Hr Hdone Hfile.
  destruct (reachable_inv _ _ _ Hr) as (Ps & Hrange & stage & Hc & Hs & _).
  destruct Hc as (_ & _ & Hph). rewrite Hdone in Hph. subst stage.
  destruct Hs as (_ & _ & _ & _ & _ & H3).
  rewrite (H3 ltac:(lia)). f_equal.
  by apply input_chunks_concat.
Qed.

Lemma world0_initial (rng : nat -> Q) : System.initial srv_a (world0 rng).
Proof.
  exists 0%Q. repeat split; try reflexivity; cbn; lia.
Qed.

Lemma transfer_delivers_input_witness :
  Server.disk (System.srv plain_final) !! Client.port (System.cli plain_final)
  = Some [x68; x69].
Proof.
  apply (transfer_delivers_input cli_a srv_a plain_final [x68; x69]).
  - apply (run_reachable cli_a srv_a false plain_actions (world0 (fun _ => 1 # 2))).
    + apply System.reachable_initial, world0_initial.
    + vm_compute. reflexivity.
  - vm_compute. reflexivity.
  - vm_compute. reflexivity.
Defined.

(** C1 (as stated) fails: in the run delayed_syn_actions the mediator
    delays the sender's first SYN; the sender completes handshake (on its
    second SYN), data transfer and teardown, then the delayed SYN arrives
    and handle_syn reopens data/40000.in with truncation.  The sender is
    done, its input is "hi", and the output file is empty. *)
Lemma delayed_syn_truncates_output :
  ~ (forall (cli_addr srv_addr : Net.addr) (w : System.world) (f : list byte),
       System.reachable cli_addr srv_addr true w ->
       System.pc w = System.PDone ->
       Client.file (System.cli w) = Some f ->
       Server.disk (System.srv w) !! Client.port (System.cli w) = Some f).
Proof.
  intros H.
  assert (Hr : System.reachable cli_a srv_a true delayed_syn_final).
  { apply (run_reachable cli_a srv_a true delayed_syn_actions (world0 delayed_syn_rng)).
    - apply System.reachable_initial, world0_initial.
    - vm_compute. reflexivity. }
  specialize (H cli_a srv_a delayed_syn_final [x68; x69] Hr).
  assert (Hd : Server.disk (System.srv delayed_syn_final)
               !! Client.port (System.cli delayed_syn_final) = Some [])
    by (vm_compute; reflexivity).
  rewrite Hd in H.
  assert (Some (@nil byte) = Some [x68; x69]) by (apply H; vm_compute; reflexivity).
  discriminate.
Qed.

(* ===================================================================== *)
(* Further properties of the wire codec                                   *)
(* ===================================================================== *)

Lemma byte_of_Z_of_byte (b : byte) : byte_of_Z (Z_of_byte b) = b.
Proof.
  unfold byte_of_Z. pose proof (Z_of_byte_range b) as Hr.
  rewrite Z.mod_small by lia. unfold Z_of_byte. rewrite N2Z.id.
  by rewrite Byte.of_to_N.
Qed.

Lemma be_decode_2 (a b : byte) :
  be_decode [a; b] = Z_of_byte a * 256 + Z_of_byte b.
Proof. unfold be_decode. cbn. lia. Qed.

Lemma be_decode_4 (a b c d : byte) :
  be_decode [a; b; c; d] =
  ((Z_of_byte a * 256 + Z_of_byte b) * 256 + Z_of_byte c) * 256 + Z_of_byte d.
Proof. unfold be_decode. cbn. lia. Qed.

Lemma be16_be_decode (a b : byte) :
  0 <= be_decode [a; b] < 2^16 /\ be16 (be_decode [a; b]) = [a; b].
Proof.
  rewrite be_decode_2.
  pose proof (Z_of_byte_range a) as Ha. pose proof (Z_of_byte_range b) as Hb.
  split; [lia|]. unfold be16. rewrite Z.shiftr_div_pow2 by lia.
  change (2^8) with 256.
  assert (H1 : (Z_of_byte a * 256 + Z_of_byte b) / 256 = Z_of_byte a).
  { rewrite Z.div_add_l by lia. rewrite Z.div_small by lia. lia. }
  assert (H2 : byte_of_Z (Z_of_byte a * 256 + Z_of_byte b) = b).
  { rewrite <- (byte_of_Z_of_byte b) at 2. unfold byte_of_Z.
    rewrite Z.add_comm, Z.mod_add by lia. reflexivity. }
  by rewrite H1, H2, byte_of_Z_of_byte.
Qed.

Lemma be32_be_decode (a b c d : byte) :
  0 <= be_decode [a; b; c; d] < 2^32 /\
  be32 (be_decode [a; b; c; d]) = [a; b; c; d].
Proof.
  rewrite be_decode_4.
  pose proof (Z_of_byte_range a) as Ha. pose proof (Z_of_byte_range b) as Hb.
  pose proof (Z_of_byte_range c) as Hc. pose proof (Z_of_byte_range d) as Hd.
  set (A := Z_of_byte a) in *. set (B := Z_of_byte b) in *.
  set (C := Z_of_byte c) in *. set (D := Z_of_byte d) in *.
  split; [lia|]. unfold be32. rewrite !Z.shiftr_div_pow2 by lia.
  change (2^8) with 256. change (2^16) with (256 * 256).
  change (2^24) with (256 * (256 * 256)).
  assert (E1 : (((A * 256 + B) * 256 + C) * 256 + D) / 256 = (A * 256 + B) * 256 + C).
  { rewrite Z.div_add_l by lia. rewrite (Z.div_small D) by lia. lia. }
  assert (E2 : ((A * 256 + B) * 256 + C) / 256 = A * 256 + B).
  { rewrite Z.div_add_l by lia. rewrite (Z.div_small C) by lia. lia. }
  assert (E3 : (A * 256 + B) / 256 = A).
  { rewrite Z.div_add_l by lia. rewrite (Z.div_small B) by lia. lia. }
  rewrite <- !Z.div_div by lia. rewrite !E1, !E2, E3.
  assert (M : forall x y, 0 <= y < 256 -> byte_of_Z (x * 256 + y) = byte_of_Z y).
  { intros x y Hy. unfold byte_of_Z. by rewrite Z.add_comm, Z.mod_add by lia. }
  rewrite (M _ D Hd), (M _ C Hc), (M _ B Hb).
  subst A B C D. by rewrite !byte_of_Z_of_byte.
Qed.

(* The fields Packet.unpack extracts fit their wire widths. *)
Lemma unpack_in_range (buffer : list byte) (p : Packet) :
  unpack buffer = Ok p -> in_range p.
Proof.
  unfold unpack. destruct (length buffer <? HEADER_SIZE)%nat eqn:E; [discriminate|].
  apply Nat.ltb_ge in E. intros [= <-]. unfold HEADER_SIZE in *.
  do 16 (destruct buffer as [|? buffer]; [cbn in E; lia|]).
  unfold in_range, slice. cbn [take drop src_port dst_port seq ack flags window Nat.sub].
  repeat split; first [apply be16_be_decode | apply be32_be_decode].
Qed.

(** X1: encoding what Packet.unpack decoded gives the buffer back: for
    every buffer of at least 16 bytes, unpack succeeds with a packet p and
    p.pack() returns exactly the buffer.  (Together with the round trip of
    C7, pack and unpack are inverse bijections between in-range packets and
    buffers of at least 16 bytes.) *)
Theorem pack_of_unpack (buffer : list byte) :
  (16 <= length buffer)%nat ->
  exists p, unpack buffer = Ok p /\ pack p = Ok buffer.
Proof.
  intros Hlen. unfold unpack. change HEADER_SIZE with 16%nat.
  destruct (length buffer <? 16)%nat eqn:E; [apply Nat.ltb_lt in E; lia|].
  eexists. split; [reflexivity|].
  do 16 (destruct buffer as [|? buffer]; [cbn in Hlen; lia|]).
  unfold slice. cbn [take drop Nat.sub].
  set (p := {| src_port := _ |}).
  assert (Hr : in_range p).
  { unfold in_range, p. cbn [src_port dst_port seq ack flags window].
    repeat split; first [apply be16_be_decode | apply be32_be_decode]. }
  rewrite (pack_in_range p Hr). unfold p.
  cbn [src_port dst_port seq ack flags window data].
  rewrite !(proj2 (be16_be_decode _ _)), !(proj2 (be32_be_decode _ _ _ _)).
  reflexivity.
Qed.

Lemma pack_of_unpack_witness :
  exists p, unpack (repeat xff 16 ++ [x41]) = Ok p /\
            pack p = Ok (repeat xff 16 ++ [x41]).
Proof. apply (pack_of_unpack (repeat xff 16 ++ [x41])). cbn. lia. Defined.

(** X2: a datagram longer than the 1024-byte receive buffer is cut by
    recvfrom and still decodes: what the receiving side sees of an encoded
    packet p is p with its payload cut to the first MAX_PAYLOAD_SIZE = 1008
    bytes (and p itself when the payload has at most 1008 bytes). *)
Theorem recvfrom_cuts_payload (p : Packet) (d : list byte) :
  pack p = Ok d ->
  unpack (recvfrom d) =
  Ok {| src_port := src_port p; dst_port := dst_port p; seq := seq p;
        ack := ack p; flags := flags p; window := window p;
        data := take MAX_PAYLOAD_SIZE (data p) |} /\
  ((length (data p) <= MAX_PAYLOAD_SIZE)%nat -> unpack (recvfrom d) = Ok p).
Proof.
  intros Hp. pose proof (pack_Ok_in_range p d Hp) as Hr.
  rewrite (pack_in_range p Hr) in Hp.
  assert (Hd : d = be16 (src_port p) ++ be16 (dst_port p) ++ be32 (seq p)
                   ++ be32 (ack p) ++ be16 (flags p) ++ be16 (window p) ++ data p)
    by congruence.
  rewrite Hd. clear Hd Hp.
  assert (Hcut : recvfrom (be16 (src_port p) ++ be16 (dst_port p) ++ be32 (seq p)
                   ++ be32 (ack p) ++ be16 (flags p) ++ be16 (window p) ++ data p)
                 = be16 (src_port p) ++ be16 (dst_port p) ++ be32 (seq p)
                   ++ be32 (ack p) ++ be16 (flags p) ++ be16 (window p)
                   ++ take MAX_PAYLOAD_SIZE (data p)).
  { unfold recvfrom. reflexivity. }
  rewrite Hcut.
  assert (H1 := unpack_header_payload p (take MAX_PAYLOAD_SIZE (data p)) Hr).
  split; [exact H1|]. intros Hlen. rewrite H1, take_ge by done. by destruct p.
Qed.

Lemma recvfrom_cuts_payload_witness :
  let p := {| src_port := 40000; dst_port := 9999; seq := 101; ack := 0;
              flags := FLAG_ACK; window := 1024; data := repeat x41 1010 |} in
  exists r, unpack (recvfrom (dgram p)) = Ok r /\ length (data r) = 1008%nat.
Proof.
  intros p.
  destruct (recvfrom_cuts_payload p (dgram p) ltac:(vm_compute; reflexivity))
    as (H & _).
  eexists. split; [exact H|]. vm_compute. reflexivity.
Defined.

(* ===================================================================== *)
(* Further properties of the sender                                       *)
(* ===================================================================== *)

Lemma read_loop_nil (fuel : nat) : Client.read_loop fuel [] = [].
Proof. by destruct fuel. Qed.

Lemma read_loop_cons (fuel : nat) (f : list byte) :
  f <> [] ->
  Client.read_loop (S fuel) f =
  take MAX_PAYLOAD_SIZE f :: Client.read_loop fuel (drop MAX_PAYLOAD_SIZE f).
Proof.
  intros Hne. cbn [Client.read_loop].
  destruct (take MAX_PAYLOAD_SIZE f) eqn:E; [|done].
  destruct f; [done | discriminate].
Qed.

Lemma read_loop_count (fuel : nat) (f : list byte) :
  (length f <= fuel)%nat ->
  length (Client.read_loop fuel f)
  = ((length f + (MAX_PAYLOAD_SIZE - 1)) / MAX_PAYLOAD_SIZE)%nat.
Proof.
  change MAX_PAYLOAD_SIZE with 1008%nat.
  revert f. induction fuel as [|fuel IH]; intros f Hf.
  - destruct f; [done | cbn in Hf; lia].
  - destruct (decide (f = [])) as [->|Hne]; [by rewrite read_loop_nil|].
    rewrite (read_loop_cons fuel f Hne). cbn [length].
    change MAX_PAYLOAD_SIZE with 1008%nat.
    assert (Hpos : (0 < length f)%nat) by (destruct f; [done | cbn; lia]).
    rewrite IH by (rewrite length_drop; lia). rewrite length_drop.
    destruct (decide (length f <= 1008)%nat) as [Hs|Hl].
    + replace (length f - 1008)%nat with 0%nat by lia. cbn -[Nat.div].
      rewrite (Nat.div_small 1007 1008) by lia.
      apply (Nat.div_unique _ _ 1 (length f - 1)); lia.
    + replace (length f + (1008 - 1))%nat
        with ((length f - 1008 + (1008 - 1)) + 1 * 1008)%nat by lia.
      rewrite Nat.div_add by lia. lia.
Qed.

Lemma read_loop_full (fuel : nat) (f : list byte) (i : nat) (ch : list byte) :
  (length f <= fuel)%nat ->
  Client.read_loop fuel f !! i = Some ch ->
  (S i < length (Client.read_loop fuel f))%nat ->
  length ch = MAX_PAYLOAD_SIZE.
Proof.
  revert f i. induction fuel as [|fuel IH]; intros f i Hf Hi Hlast.
  - cbn in Hi. by rewrite lookup_nil in Hi.
  - destruct (decide (f = [])) as [->|Hne];
      [rewrite read_loop_nil in Hi; by rewrite lookup_nil in Hi|].
    rewrite (read_loop_cons fuel f Hne) in Hi, Hlast.
    assert (Hpos : (0 < length f)%nat) by (destruct f; [done | cbn; lia]).
    destruct i as [|i].
    + cbn in Hi. injection Hi as <-. cbn [length] in Hlast.
      destruct (drop MAX_PAYLOAD_SIZE f) as [|b rest] eqn:Hd;
        [rewrite read_loop_nil in Hlast; cbn in Hlast; lia|].
      assert (MAX_PAYLOAD_SIZE < length f)%nat.
      { apply (f_equal length) in Hd. rewrite length_drop in Hd.
        cbn [length] in Hd. change MAX_PAYLOAD_SIZE with 1008%nat in *. lia. }
      rewrite length_take. change MAX_PAYLOAD_SIZE with 1008%nat in *. lia.
    + cbn [lookup] in Hi. apply (IH (drop MAX_PAYLOAD_SIZE f) i).
      * rewrite length_drop. change MAX_PAYLOAD_SIZE with 1008%nat. lia.
      * exact Hi.
      * cbn [length] in Hlast. lia.
Qed.

(** X3: read_file_chunks cuts the file into consecutive chunks.  For an
    existing file with content f it returns chunks whose concatenation is f,
    none empty and none longer than MAX_PAYLOAD_SIZE = 1008, every chunk but
    the last of exactly 1008 bytes, ceil(len(f) / 1008) chunks in all (none
    for an empty file); for a missing file it returns None. *)
Theorem read_file_chunks_partition (c : Client.t) :
  match Client.file c with
  | None => Client.read_file_chunks c = None
  | Some f =>
      exists cs, Client.read_file_chunks c = Some cs /\
        concat cs = f /\
        Forall (fun ch => ch <> [] /\ (length ch <= MAX_PAYLOAD_SIZE)%nat) cs /\
        (forall i ch, cs !! i = Some ch -> (S i < length cs)%nat ->
                      length ch = MAX_PAYLOAD_SIZE) /\
        length cs = ((length f + (MAX_PAYLOAD_SIZE - 1)) / MAX_PAYLOAD_SIZE)%nat
  end.
Proof.
  unfold Client.read_file_chunks. destruct (Client.file c) as [f|]; [|done].
  exists (Client.read_loop (length f) f). split; [done|].
  split; [by apply read_loop_concat|]. split; [|split].
  - pose proof (read_loop_nonempty (length f) f) as H1.
    pose proof (read_loop_max (length f) f) as H2.
    rewrite Forall_forall in H1, H2. apply Forall_forall. intros ch Hch.
    split; [by apply H1 | by apply H2].
  - intros i ch Hi Hlast. by apply (read_loop_full (length f) f i).
  - by apply read_loop_count.
Qed.

(* ------------------------------ the send loop ----------------------- *)

Lemma sendable_in_range (c : Client.t) (cs : list (list byte)) (start_seq : Z)
    (i : nat) (chunk : list byte) :
  sendable c cs start_seq -> (i <= length cs)%nat ->
  in_range (Client.data_pkt c (seq_of cs start_seq i) chunk).
Proof.
  intros (Hp & Hsp & H0 & Hmax) Hi.
  pose proof (seq_of_mono cs start_seq 0 i ltac:(lia)) as Hlo.
  pose proof (seq_of_mono cs start_seq i (length cs) Hi) as Hhi.
  assert (H00 : seq_of cs start_seq 0 = start_seq).
  { unfold seq_of. rewrite take_0. cbn. lia. }
  unfold in_range, Client.data_pkt. cbn [src_port dst_port seq ack flags window].
  unfold FLAG_ACK. lia.
Qed.

Lemma sendable_set_wire (f : list (list byte) -> list (list byte))
    (c : Client.t) (cs : list (list byte)) (start_seq : Z) :
  sendable c cs start_seq -> sendable (Client.set_wire f c) cs start_seq.
Proof. done. Qed.

Lemma chunk_dgrams_set_wire (f : list (list byte) -> list (list byte))
    (c : Client.t) (cs : list (list byte)) (start_seq : Z) (first : nat)
    (ds : list (list byte)) :
  chunk_dgrams (Client.set_wire f c) cs start_seq first ds <->
  chunk_dgrams c cs start_seq first ds.
Proof.
  revert first. induction ds as [|d ds IH]; intros first; [done|].
  cbn [chunk_dgrams]. by rewrite IH.
Qed.

Lemma chunk_dgrams_app (c : Client.t) (cs : list (list byte)) (start_seq : Z)
    (first : nat) (ds1 ds2 : list (list byte)) :
  chunk_dgrams c cs start_seq first ds1 ->
  chunk_dgrams c cs start_seq (first + length ds1) ds2 ->
  chunk_dgrams c cs start_seq first (ds1 ++ ds2).
Proof.
  revert first. induction ds1 as [|d ds1 IH]; intros first H1 H2.
  - cbn in *. by rewrite Nat.add_0_r in H2.
  - cbn [app chunk_dgrams] in *. destruct H1 as [Hd H1]. split; [done|].
    apply IH; [done|]. cbn [length] in H2.
    by replace (S first + length ds1)%nat with (first + S (length ds1))%nat by lia.
Qed.

Lemma chunk_dgrams_lookup (c : Client.t) (cs : list (list byte)) (start_seq : Z)
    (first : nat) (ds : list (list byte)) (k : nat) (d : list byte) :
  chunk_dgrams c cs start_seq first ds -> ds !! k = Some d ->
  exists chunk, cs !! (first + k)%nat = Some chunk /\
    unpack d = Ok (Client.data_pkt c (seq_of cs start_seq (first + k)) chunk).
Proof.
  revert first k. induction ds as [|d0 ds IH]; intros first k H Hk.
  - by rewrite lookup_nil in Hk.
  - cbn [chunk_dgrams] in H. destruct H as [(chunk & Hch & Hpk) H].
    destruct k as [|k].
    + cbn in Hk. injection Hk as <-. rewrite Nat.add_0_r.
      exists chunk. split; [done|]. by apply unpack_pack.
    + cbn [lookup] in Hk. destruct (IH (S first) k H Hk) as (ch & H1 & H2).
      replace (first + S k)%nat with (S first + k)%nat by lia. by exists ch.
Qed.

Lemma send_one_eq (x : Client.tx) (c : Client.t) (chunk d : list byte) (sq : Z) :
  Client.chunks x !! Client.next_idx x = Some chunk ->
  Client.seq_window x !! Client.next_idx x = Some sq ->
  pack (Client.data_pkt c sq chunk) = Ok d ->
  Client.send_one x c =
  (Ok (Client.set_next_idx (S (Client.next_idx x)) x),
   Client.set_wire (fun w => w ++ [d]) c).
Proof.
  intros Hch Hsq Hpk. unfold Client.send_one. rewrite Hch, Hsq.
  monad_unfold. by rewrite (client_send_Ok c _ d Hpk).
Qed.

Lemma client_set_wire_nil (c : Client.t) :
  Client.set_wire (fun w => w ++ []) c = c.
Proof. destruct c. unfold Client.set_wire. cbn. by rewrite app_nil_r. Qed.

Lemma set_next_idx_same (x : Client.tx) :
  Client.set_next_idx (Client.next_idx x) x = x.
Proof. by destruct x. Qed.

Lemma wf_set_next_idx (cs : list (list byte)) (start_seq : Z) (n : nat)
    (x : Client.tx) :
  tx_wf cs start_seq x -> tx_wf cs start_seq (Client.set_next_idx n x).
Proof. done. Qed.

Lemma send_loop_spec (cs : list (list byte)) (start_seq : Z) (fuel : nat)
    (x : Client.tx) (c : Client.t) :
  tx_wf cs start_seq x -> sendable c cs start_seq ->
  (length cs <= fuel + Client.next_idx x)%nat ->
  exists ds,
    Client.send_loop fuel x c =
      (Ok (Client.set_next_idx (Nat.max (Client.next_idx x) (window_end x)) x),
       Client.set_wire (fun w => w ++ ds) c) /\
    length ds = (window_end x - Client.next_idx x)%nat /\
    chunk_dgrams c cs start_seq (Client.next_idx x) ds.
Proof.
  revert x c. induction fuel as [|fuel IH]; intros x c Hwf Hs Hfuel.
  - assert (Hcs : Client.total_chunks x = length cs)
      by (unfold Client.total_chunks; by destruct Hwf as (-> & _)).
    exists []. cbn [Client.send_loop]. unfold window_end. rewrite Hcs.
    replace (Nat.max _ _) with (Client.next_idx x) by lia.
    rewrite set_next_idx_same. split; [|split; [cbn; lia | done]].
    unfold mret, M_ret. by rewrite client_set_wire_nil.
  - assert (Hcs : Client.total_chunks x = length cs)
      by (unfold Client.total_chunks; by destruct Hwf as (-> & _)).
    cbn [Client.send_loop]. destruct (Client.send_guard x) eqn:Hg.
    + unfold Client.send_guard in Hg. apply andb_true_iff in Hg as [Hg1 Hg2].
      apply Nat.ltb_lt in Hg1, Hg2. rewrite Hcs in Hg1.
      destruct (lookup_lt_is_Some_2 cs (Client.next_idx x) Hg1) as [chunk Hch].
      pose proof (tx_wf_window cs start_seq x _ Hwf Hg1) as Hsq.
      pose proof (pack_in_range _ (sendable_in_range c cs start_seq
                    (Client.next_idx x) chunk Hs ltac:(lia))) as Hpk.
      set (d := be16 _ ++ _) in Hpk.
      assert (Hch' : Client.chunks x !! Client.next_idx x = Some chunk)
        by (by destruct Hwf as (-> & _)).
      rewrite (bind_Ok _ _ _ _ _ (send_one_eq x c chunk d _ Hch' Hsq Hpk)).
      set (x1 := Client.set_next_idx _ x). set (c1 := Client.set_wire _ c).
      destruct (IH x1 c1 (wf_set_next_idx _ _ _ _ Hwf)
                  (sendable_set_wire _ _ _ _ Hs)) as (ds & Hrun & Hlen & Hds).
      { cbn. lia. }
      exists (d :: ds). split; [|split].
      * rewrite Hrun. f_equal.
        -- f_equal. unfold window_end, x1. cbn.
           fold (Client.total_chunks x). rewrite Hcs.
           unfold Client.set_next_idx. f_equal. lia.
        -- unfold c1, Client.set_wire. cbn. by rewrite <- app_assoc.
      * cbn [length]. rewrite Hlen. unfold window_end, x1. cbn.
        fold (Client.total_chunks x). rewrite Hcs. lia.
      * cbn [chunk_dgrams]. split; [by exists chunk|].
        by apply chunk_dgrams_set_wire in Hds.
    + unfold Client.send_guard in Hg. apply andb_false_iff in Hg.
      exists []. unfold window_end. 
      replace (Nat.max _ _) with (Client.next_idx x)
        by (destruct Hg as [Hg|Hg]; apply Nat.ltb_ge in Hg; lia).
      rewrite set_next_idx_same. split; [|split; [|done]].
      * unfold mret, M_ret. by rewrite client_set_wire_nil.
      * cbn. destruct Hg as [Hg|Hg]; apply Nat.ltb_ge in Hg; lia.
Qed.

(** X4: the send loop of transmit_file fills the window.  In a consistent
    state, and when the header fields fit their widths, the inner loop
    "while next_idx < total_chunks and next_idx < base_idx + WINDOW_SIZE"
    sends exactly the chunks next_idx, ..., min(total_chunks, base_idx + 5) - 1,
    each once, in order and with its precomputed sequence number, raises
    nothing, and leaves next_idx at the end of the window (unchanged when it
    was already there or beyond); nothing else of the state changes. *)
Theorem send_loop_fills_window (cs : list (list byte)) (start_seq : Z)
    (x : Client.tx) (c : Client.t) :
  tx_wf cs start_seq x -> sendable c cs start_seq ->
  exists ds,
    Client.send_loop (Client.total_chunks x) x c =
      (Ok (Client.set_next_idx (Nat.max (Client.next_idx x) (window_end x)) x),
       Client.set_wire (fun w => w ++ ds) c) /\
    length ds = (window_end x - Client.next_idx x)%nat /\
    chunk_dgrams c cs start_seq (Client.next_idx x) ds /\
    (forall k d, ds !! k = Some d ->
       exists chunk, cs !! (Client.next_idx x + k)%nat = Some chunk /\
         unpack d = Ok (Client.data_pkt c
                          (seq_of cs start_seq (Client.next_idx x + k)) chunk)).
Proof.
  intros Hwf Hs.
  destruct (send_loop_spec cs start_seq (Client.total_chunks x) x c Hwf Hs)
    as (ds & H1 & H2 & H3).
  { unfold Client.total_chunks. destruct Hwf as (-> & _). lia. }
  exists ds. repeat (split; [done|]).
  intros k d Hk. by apply (chunk_dgrams_lookup c cs start_seq _ ds k d).
Qed.

Lemma send_loop_fills_window_witness :
  tx_wf six_chunks 101 (Client.tx_init six_chunks 101 0) /\
  exists ds,
    Client.send_loop 6 (Client.tx_init six_chunks 101 0) (cli0 None) =
      (Ok (Client.set_next_idx 5 (Client.tx_init six_chunks 101 0)),
       Client.set_wire (fun w => w ++ ds) (cli0 None)) /\
    length ds = 5%nat.
Proof.
  split; [apply tx_init_wf|].
  destruct (send_loop_fills_window six_chunks 101
              (Client.tx_init six_chunks 101 0) (cli0 None))
    as (ds & H1 & H2 & _).
  - apply tx_init_wf.
  - unfold sendable. vm_compute. repeat split; congruence.
  - exists ds. split; [exact H1 | exact H2].
Defined.

(* ----------------------------- retransmission ----------------------- *)

Lemma check_timeout_wf (cs : list (list byte)) (start_seq : Z) (now reset_at : Q)
    (x : Client.tx) :
  tx_wf cs start_seq x -> tx_wf cs start_seq (Client.check_timeout now reset_at x).
Proof.
  intros Hwf. unfold Client.check_timeout.
  by destruct (Qlt_bool Client.TIMEOUT (now - Client.last_ack_time x)).
Qed.

(** X5: Go-Back-N retransmission.  When the timeout test of transmit_file
    finds more than TIMEOUT = 0.5 s since last_ack_time, next_idx goes back
    to base_idx and the timer is reset, so that the next send loop sends
    again every chunk of the window, base_idx, ..., min(total, base_idx + 5) - 1,
    in order, whether or not it had been sent before; when the test finds
    at most 0.5 s, the state is unchanged and nothing is sent again. *)
Theorem timeout_resends_window (cs : list (list byte)) (start_seq : Z)
    (x : Client.tx) (c : Client.t) (now reset_at : Q) :
  tx_wf cs start_seq x -> sendable c cs start_seq ->
  let x0 := Client.check_timeout now reset_at x in
  ((now - Client.last_ack_time x <= Client.TIMEOUT)%Q -> x0 = x) /\
  ((Client.TIMEOUT < now - Client.last_ack_time x)%Q ->
     Client.last_ack_time x0 = reset_at /\
     exists ds,
       Client.send_loop (Client.total_chunks x0) x0 c =
         (Ok (Client.set_next_idx (window_end x) x0),
          Client.set_wire (fun w => w ++ ds) c) /\
       length ds = (window_end x - Client.base_idx x)%nat /\
       chunk_dgrams c cs start_seq (Client.base_idx x) ds).
Proof.
  intros Hwf Hs x0. split.
  - intros Hle. unfold x0, Client.check_timeout.
    apply Qlt_bool_false_iff in Hle. by rewrite Hle.
  - intros Hlt.
    assert (Hx0 : x0 = {| Client.chunks := Client.chunks x;
                          Client.seq_window := Client.seq_window x;
                          Client.base_idx := Client.base_idx x;
                          Client.next_idx := Client.base_idx x;
                          Client.base_seq := Client.base_seq x;
                          Client.last_ack_time := reset_at |}).
    { unfold x0, Client.check_timeout. apply Qlt_bool_iff in Hlt. by rewrite Hlt. }
    split; [by rewrite Hx0|].
    assert (Hwf0 : tx_wf cs start_seq x0) by by apply check_timeout_wf.
    destruct (send_loop_spec cs start_seq (Client.total_chunks x0) x0 c Hwf0 Hs)
      as (ds & H1 & H2 & H3).
    { unfold Client.total_chunks. destruct Hwf0 as (-> & _). lia. }
    assert (Hwe : window_end x0 = window_end x) by by rewrite Hx0.
    assert (Hn : Client.next_idx x0 = Client.base_idx x) by by rewrite Hx0.
    rewrite Hwe, Hn in H1, H2. rewrite Hn in H3.
    exists ds. split; [|done].
    rewrite H1. f_equal. f_equal. f_equal.
    destruct Hwf as (Hcs & _ & Hb & _). unfold window_end, Client.total_chunks.
    rewrite Hcs. unfold WINDOW_SIZE. lia.
Qed.

Lemma timeout_resends_window_witness :
  let x := Client.set_next_idx 2 (Client.tx_init two_chunks 101 0) in
  exists ds,
    Client.send_loop 2 (Client.check_timeout 1 1 x) (cli0 None) =
      (Ok (Client.set_next_idx 2 (Client.check_timeout 1 1 x)),
       Client.set_wire (fun w => w ++ ds) (cli0 None)) /\
    length ds = 2%nat.
Proof.
  intros x.
  destruct (timeout_resends_window two_chunks 101 x (cli0 None) 1 1) as [_ H].
  - apply wf_set_next_idx, tx_init_wf.
  - unfold sendable. vm_compute. repeat split; congruence.
  - destruct H as (_ & ds & H1 & H2 & _); [reflexivity|].
    exists ds. split; [exact H1 | exact H2].
Defined.

(* ------------------------ runs of transmit_file --------------------- *)

Lemma transmit_iter_eq (ev : Client.tx_event) (x x1 x2 : Client.tx)
    (c c1 : Client.t) :
  Client.send_loop (Client.total_chunks x) x c = (Ok x1, c1) ->
  Client.process_ack (Client.wait_for_packet (Client.rx ev)) (Client.t_ack ev) x1
    = Ok x2 ->
  Client.transmit_iter ev x c =
  (Ok (Client.check_timeout (Client.t_check ev) (Client.t_reset ev) x2), c1).
Proof.
  intros H1 H2. unfold Client.transmit_iter.
  rewrite (bind_Ok _ _ _ _ _ H1). monad_unfold. by rewrite H2.
Qed.

Lemma transmit_loop_done (env : list Client.tx_event) (x : Client.tx)
    (c : Client.t) :
  (Client.total_chunks x <= Client.base_idx x)%nat ->
  Client.transmit_loop env x c = (Ok (Some (Client.base_seq x)), c).
Proof.
  intros H. apply Nat.ltb_ge in H.
  destruct env; cbn [Client.transmit_loop]; by rewrite H.
Qed.

Lemma transmit_loop_cons (ev : Client.tx_event) (env : list Client.tx_event)
    (x x' : Client.tx) (c c' : Client.t) :
  (Client.base_idx x < Client.total_chunks x)%nat ->
  Client.transmit_iter ev x c = (Ok x', c') ->
  Client.transmit_loop (ev :: env) x c = Client.transmit_loop env x' c'.
Proof.
  intros H Hit. apply Nat.ltb_lt in H.
  cbn [Client.transmit_loop]. rewrite H. by rewrite (bind_Ok _ _ _ _ _ Hit).
Qed.

Lemma client_set_wire_app (c : Client.t) (ds1 ds2 : list (list byte)) :
  Client.set_wire (fun w => w ++ ds2) (Client.set_wire (fun w => w ++ ds1) c)
  = Client.set_wire (fun w => w ++ (ds1 ++ ds2)) c.
Proof. unfold Client.set_wire. cbn. by rewrite <- app_assoc. Qed.

Lemma lossless_loop (cs : list (list byte)) (start_seq : Z)
    (env : list Client.tx_event) (x : Client.tx) (c : Client.t) :
  tx_wf cs start_seq x -> sendable c cs start_seq ->
  Forall (fun ch => ch <> []) cs ->
  Client.next_idx x = Client.base_idx x ->
  prompt_acks cs start_seq (Client.base_idx x) env ->
  (length cs <= Client.base_idx x + WINDOW_SIZE * length env)%nat ->
  exists ds,
    Client.transmit_loop env x c =
      (Ok (Some (seq_of cs start_seq (length cs))),
       Client.set_wire (fun w => w ++ ds) c) /\
    length ds = (length cs - Client.base_idx x)%nat /\
    chunk_dgrams c cs start_seq (Client.base_idx x) ds.
Proof.
  intros Hwf Hs Hne. revert x c Hwf Hs.
  induction env as [|ev env IH]; intros x c Hwf Hs Hnext Hacks Hlen.
  - pose proof Hwf as (Hcs & _ & Hb & Hbs).
    assert (Hb' : Client.base_idx x = length cs) by (cbn in Hlen; lia).
    exists []. rewrite transmit_loop_done
      by (unfold Client.total_chunks; rewrite Hcs; lia).
    rewrite Hbs, Hb', client_set_wire_nil. split; [done|]. split; [cbn; lia|done].
  - pose proof Hwf as (Hcs & _ & Hb & Hbs).
    assert (Htot : Client.total_chunks x = length cs)
      by (unfold Client.total_chunks; by rewrite Hcs).
    destruct (decide (Client.base_idx x = length cs)) as [Hb'|Hb'].
    { exists []. rewrite transmit_loop_done by lia.
      rewrite Hbs, Hb', client_set_wire_nil. split; [done|].
      split; [cbn; lia|done]. }
    cbn [prompt_acks] in Hacks.
    destruct Hacks as ((r & Hrx & Hfl & Hack) & Hto & Hacks).
    set (e := Nat.min (length cs) (Client.base_idx x + WINDOW_SIZE)) in *.
    assert (He : window_end x = e) by (unfold window_end; by rewrite Htot).
    assert (Hbe : (Client.base_idx x < e)%nat)
      by (unfold e, WINDOW_SIZE; lia).
    destruct (send_loop_spec cs start_seq (Client.total_chunks x) x c Hwf Hs)
      as (ds1 & Hsend & Hlen1 & Hds1); [lia|].
    rewrite He, Hnext in Hsend, Hlen1. rewrite Hnext in Hds1.
    replace (Nat.max (Client.base_idx x) e) with e in Hsend by lia.
    set (x1 := Client.set_next_idx e x) in *.
    assert (Hwf1 : tx_wf cs start_seq x1) by by apply wf_set_next_idx.
    destruct (process_ack_spec cs start_seq x1 r (Client.t_ack ev) Hwf1)
      as (x2 & Hpa & Hwf2 & Hn2 & _ & Hadv & _).
    assert (Hgt : has_flag (flags r) FLAG_ACK && (Client.base_seq x1 <? ack r) = true).
    { rewrite Hfl. cbn [andb]. apply Z.ltb_lt. rewrite Hack.
      change (Client.base_seq x1) with (Client.base_seq x). rewrite Hbs.
      apply seq_of_strict; [done|done|unfold e; lia]. }
    destruct (Hadv Hgt) as (Hiff & Hbs2 & Hlast).
    pose proof Hwf2 as (_ & _ & Hb2 & _).
    assert (Hb2e : Client.base_idx x2 = e).
    { destruct (Nat.lt_trichotomy (Client.base_idx x2) e) as [Hlt|[Heq|Hgt']];
        [|done|].
      - exfalso.
        assert (Hi : (Client.base_idx x2 < length cs)%nat) by (unfold e in Hlt; lia).
        pose proof (proj2 (Hiff _ Hi)) as Hc.
        rewrite Hack in Hc.
        assert (Hm : seq_of cs start_seq (S (Client.base_idx x2))
                     <= seq_of cs start_seq e) by (apply seq_of_mono; lia).
        pose proof (Hc Hm). lia.
      - exfalso.
        assert (Hi : (e < length cs)%nat) by lia.
        pose proof (proj1 (Hiff _ Hi) Hgt') as Hc. rewrite Hack in Hc.
        pose proof (seq_of_strict cs start_seq e (S e) Hne ltac:(lia) ltac:(lia)).
        lia. }
    assert (Hlast2 : Client.last_ack_time x2 = Client.t_ack ev).
    { apply Hlast. change (Client.base_idx x1) with (Client.base_idx x). lia. }
    rewrite (transmit_loop_cons ev env x x2 c
               (Client.set_wire (fun w => w ++ ds1) c)); [|lia|].
    2:{ rewrite (transmit_iter_eq ev x x1 x2 c _ Hsend).
        - f_equal. f_equal. unfold Client.check_timeout. rewrite Hlast2.
          apply Qlt_bool_false_iff in Hto. by rewrite Hto.
        - by rewrite Hrx. }
    destruct (IH x2 (Client.set_wire (fun w => w ++ ds1) c) Hwf2
                (sendable_set_wire _ _ _ _ Hs)) as (ds2 & Hrun & Hlen2 & Hds2).
    { rewrite Hn2, Hb2e. done. }
    { by rewrite Hb2e. }
    { rewrite Hb2e. cbn [length] in Hlen. unfold e, WINDOW_SIZE in *. lia. }
    exists (ds1 ++ ds2). split; [|split].
    + by rewrite Hrun, client_set_wire_app.
    + rewrite length_app, Hlen1, Hlen2, Hb2e. unfold e. lia.
    + apply chunk_dgrams_app; [done|]. rewrite Hlen1.
      replace (Client.base_idx x + (e - Client.base_idx x))%nat with e by lia.
      rewrite Hb2e in Hds2. by apply chunk_dgrams_set_wire in Hds2.
Qed.

(** X6: a transfer without loss.  When every poll of transmit_file returns
    the acknowledgement of all that was sent so far and the timeout test
    comes within 0.5 s of it, a file of n non-empty chunks is sent within
    ceil(n / 5) turns: every chunk exactly once, in order, each with its
    sequence number, nothing else; transmit_file then returns the sequence
    number after the last byte. *)
Theorem lossless_transfer_sends_each_chunk_once (cs : list (list byte))
    (start_seq : Z) (now : Q) (env : list Client.tx_event) (c : Client.t) :
  sendable c cs start_seq ->
  Forall (fun ch => ch <> []) cs ->
  prompt_acks cs start_seq 0 env ->
  (length cs <= WINDOW_SIZE * length env)%nat ->
  exists ds,
    Client.transmit_loop env (Client.tx_init cs start_seq now) c =
      (Ok (Some (start_seq + Z.of_nat (length (concat cs)))),
       Client.set_wire (fun w => w ++ ds) c) /\
    length ds = length cs /\
    chunk_dgrams c cs start_seq 0 ds.
Proof.
  intros Hs Hne Hacks Hlen.
  destruct (lossless_loop cs start_seq env (Client.tx_init cs start_seq now) c
              (tx_init_wf cs start_seq now) Hs Hne eq_refl Hacks Hlen)
    as (ds & H1 & H2 & H3).
  exists ds. cbn [Client.tx_init Client.base_idx] in H2, H3.
  rewrite Nat.sub_0_r in H2. split; [|done].
  rewrite H1. unfold seq_of. by rewrite firstn_all.
Qed.

Lemma lossless_transfer_sends_each_chunk_once_witness :
  exists ds,
    Client.transmit_loop [turn_ack104] (Client.tx_init two_chunks 101 0) (cli0 None) =
      (Ok (Some (101 + Z.of_nat (length (concat two_chunks)))),
       Client.set_wire (fun w => w ++ ds) (cli0 None)) /\
    length ds = length two_chunks /\
    chunk_dgrams (cli0 None) two_chunks 101 0 ds.
Proof.
  apply (lossless_transfer_sends_each_chunk_once two_chunks 101 0 [turn_ack104]
           (cli0 None)).
  - unfold sendable. vm_compute. repeat split; congruence.
  - repeat constructor; discriminate.
  - cbn [prompt_acks]. split; [|split; [|exact I]].
    + exists ack104. split; [reflexivity|]. split; reflexivity.
    + vm_compute. congruence.
  - cbn. lia.
Defined.

Lemma seq_of_0 (cs : list (list byte)) (start_seq : Z) :
  seq_of cs start_seq 0 = start_seq.
Proof. unfold seq_of. rewrite take_0. cbn. lia. Qed.

Lemma stalled_loop (cs : list (list byte)) (start_seq : Z)
    (env : list Client.tx_event) (x : Client.tx) (c : Client.t) :
  tx_wf cs start_seq x -> sendable c cs start_seq -> cs <> [] ->
  Client.base_idx x = 0%nat ->
  Forall (no_progress start_seq) env ->
  exists ds,
    Client.transmit_loop env x c =
      (Ok None, Client.set_wire (fun w => w ++ ds) c) /\
    Forall (fun d => exists i chunk, (i < WINDOW_SIZE)%nat /\ cs !! i = Some chunk /\
              unpack d = Ok (Client.data_pkt c (seq_of cs start_seq i) chunk)) ds.
Proof.
  intros Hwf Hs Hne Hb Hall. revert x c Hwf Hs Hb.
  induction Hall as [|ev env Hev _ IH]; intros x c Hwf Hs Hb.
  - pose proof Hwf as (Hcs & _).
    assert (Hlt : (Client.base_idx x <? Client.total_chunks x)%nat = true).
    { apply Nat.ltb_lt. unfold Client.total_chunks. rewrite Hcs, Hb.
      destruct cs; [done | cbn; lia]. }
    exists []. cbn [Client.transmit_loop]. rewrite Hlt.
    by rewrite client_set_wire_nil.
  - pose proof Hwf as (Hcs & _ & _ & Hbs).
    assert (Htot : Client.total_chunks x = length cs)
      by (unfold Client.total_chunks; by rewrite Hcs).
    assert (Hlt : (Client.base_idx x < Client.total_chunks x)%nat).
    { rewrite Htot, Hb. destruct cs; [done | cbn; lia]. }
    destruct (send_loop_spec cs start_seq (Client.total_chunks x) x c Hwf Hs)
      as (ds1 & Hsend & Hlen1 & Hds1); [lia|].
    set (x1 := Client.set_next_idx _ x) in *.
    assert (Hwf1 : tx_wf cs start_seq x1) by by apply wf_set_next_idx.
    assert (Hpa : Client.process_ack (Client.wait_for_packet (Client.rx ev))
                    (Client.t_ack ev) x1 = Ok x1).
    { destruct (Client.wait_for_packet (Client.rx ev)) as [r|] eqn:Hrx;
        [|apply process_ack_None].
      destruct (process_ack_spec cs start_seq x1 r (Client.t_ack ev) Hwf1)
        as (x2 & Hpa & _ & _ & Hsame & _).
      rewrite Hpa. f_equal. apply Hsame.
      change (Client.base_seq x1) with (Client.base_seq x).
      rewrite Hbs, Hb, seq_of_0. by apply Hev. }
    rewrite (transmit_loop_cons ev env x _ c _ Hlt
               (transmit_iter_eq ev x x1 x1 c _ Hsend Hpa)).
    set (x' := Client.check_timeout _ _ x1).
    destruct (IH x' (Client.set_wire (fun w => w ++ ds1) c)
                (check_timeout_wf _ _ _ _ _ Hwf1) (sendable_set_wire _ _ _ _ Hs))
      as (ds2 & Hrun & Hds2).
    { pose proof (check_timeout_cases (Client.t_check ev) (Client.t_reset ev) x1)
        as (_ & _ & Hb' & _). cbn zeta in Hb'. unfold x'. rewrite Hb'. exact Hb. }
    exists (ds1 ++ ds2). split; [by rewrite Hrun, client_set_wire_app|].
    apply Forall_app. split; [|exact Hds2].
    apply Forall_lookup. intros k d Hk.
    destruct (chunk_dgrams_lookup c cs start_seq _ ds1 k d Hds1 Hk)
      as (chunk & Hch & Hun).
    exists (Client.next_idx x + k)%nat, chunk. split; [|done].
    apply lookup_lt_Some in Hk. rewrite Hlen1 in Hk.
    unfold window_end in Hk. rewrite Hb in Hk. lia.
Qed.

(** X7: transmit_file never gives up.  As long as no poll brings an
    acknowledgement above start_seq (nothing arrives, or what arrives does
    not decode, has no ACK flag, or repeats the SYN-ACK), the loop of
    transmit_file for a non-empty file neither returns nor raises, however
    many turns it takes, and every datagram it sends is one of the first
    WINDOW_SIZE = 5 chunks with its sequence number: unlike the handshake
    (10 s) and the teardown (5 attempts) the transfer has no retry limit. *)
Theorem transmit_never_gives_up (cs : list (list byte)) (start_seq : Z)
    (now : Q) (env : list Client.tx_event) (c : Client.t) :
  sendable c cs start_seq -> cs <> [] ->
  Forall (no_progress start_seq) env ->
  exists ds,
    Client.transmit_loop env (Client.tx_init cs start_seq now) c =
      (Ok None, Client.set_wire (fun w => w ++ ds) c) /\
    Forall (fun d => exists i chunk, (i < WINDOW_SIZE)%nat /\ cs !! i = Some chunk /\
              unpack d = Ok (Client.data_pkt c (seq_of cs start_seq i) chunk)) ds.
Proof.
  intros Hs Hne Hall.
  exact (stalled_loop cs start_seq env (Client.tx_init cs start_seq now) c
           (tx_init_wf cs start_seq now) Hs Hne eq_refl Hall).
Qed.

Lemma transmit_never_gives_up_witness :
  exists ds,
    Client.transmit_loop [turn_silent; turn_silent]
      (Client.tx_init six_chunks 101 0) (cli0 None) =
      (Ok None, Client.set_wire (fun w => w ++ ds) (cli0 None)) /\
    Forall (fun d => exists i chunk, (i < WINDOW_SIZE)%nat /\
              six_chunks !! i = Some chunk /\
              unpack d = Ok (Client.data_pkt (cli0 None) (seq_of six_chunks 101 i) chunk))
           ds.
Proof.
  apply (transmit_never_gives_up six_chunks 101 0 [turn_silent; turn_silent]
           (cli0 None)).
  - unfold sendable. vm_compute. repeat split; congruence.
  - discriminate.
  - repeat constructor; intros r Hr; discriminate Hr.
Defined.

(** X8: the value of transmit_file.  For a missing file transmit_file
    returns at once without a value and sends nothing; for an existing file,
    whatever arrives and whenever, a value it returns is start_seq plus the
    length of the file, the sequence number after the last byte. *)
Theorem transmit_file_returns_end_of_file (start_seq : Z) (now : Q)
    (env : list Client.tx_event) (c : Client.t) :
  match Client.file c with
  | None => Client.transmit_file start_seq now env c = (Ok (Some None), c)
  | Some f =>
      forall r c', Client.transmit_file start_seq now env c = (Ok (Some r), c') ->
                   r = Some (start_seq + Z.of_nat (length f))
  end.
Proof.
  unfold Client.transmit_file, Client.read_file_chunks.
  destruct (Client.file c) as [f|] eqn:Hf; monad_unfold; rewrite Hf; [|done].
  intros r c' Hrun.
  destruct (Client.transmit_loop env _ c) as [[[b|]|e] c1] eqn:Hloop;
    cbn in Hrun; [|discriminate|discriminate].
  injection Hrun as <- _. f_equal.
  rewrite (transmit_loop_returns _ start_seq env _ c c1 b (reach_init _ _ _ now) Hloop).
  unfold seq_of. rewrite firstn_all.
  by rewrite (read_loop_concat (length f) f).
Qed.

(* ------------------------- handshake and teardown ------------------- *)

(** X9: the handshake stops at the first accepted response.  When the SYN
    can be encoded, every wait before turn k is within the 10 s budget and
    ends without an accepted datagram, and the wait of turn k is within the
    budget and ends with an accepted one, perform_handshake returns 101
    after having sent k + 1 identical SYNs and nothing else; what the
    environment holds after that turn is not looked at. *)
Theorem handshake_stops_at_first_accepted (start_time now : Q)
    (rx : option (list byte)) (env1 env2 : list (Q * option (list byte)))
    (c : Client.t) (d : list byte) :
  pack (Client.syn_pkt c) = Ok d ->
  Forall (fun ev => (fst ev - start_time < 10)%Q /\
                    Client.handshake_accepts (Client.wait_for_packet (snd ev)) = false)
         env1 ->
  (now - start_time < 10)%Q ->
  Client.handshake_accepts (Client.wait_for_packet rx) = true ->
  Client.perform_handshake start_time (env1 ++ (now, rx) :: env2) c =
  (Ok (Some 101),
   Client.set_wire (fun w => w ++ repeat d (S (length env1))) c).
Proof.
  intros Hd Hall Hnow Hacc. unfold Client.perform_handshake.
  revert c Hd. induction Hall as [|[t1 rx1] env1 [Ht Hacc1] _ IH]; intros c Hd.
  - cbn [app]. rewrite (handshake_loop_cons _ _ _ _ _ _ Hd).
    apply Qlt_bool_iff in Hnow. rewrite Hnow, Hacc.
    destruct (Client.wait_for_packet rx) as [r|]; [|discriminate].
    cbn [Client.handshake_accepts] in Hacc.
    apply andb_true_iff in Hacc as [_ Hack]. apply Z.eqb_eq in Hack.
    cbn. by rewrite Hack.
  - cbn [app]. rewrite (handshake_loop_cons _ _ _ _ _ _ Hd).
    cbn [fst snd] in Ht, Hacc1. apply Qlt_bool_iff in Ht. rewrite Ht, Hacc1.
    rewrite IH by exact Hd.
    unfold Client.set_wire; cbn. by rewrite <- app_assoc.
Qed.

Lemma handshake_stops_at_first_accepted_witness :
  Client.perform_handshake 0
    ([(1 # 10, None)] ++ (7 # 10, Some (dgram ack_only101)) :: [(9 # 10, None)])
    (cli0 None) =
  (Ok (Some 101),
   Client.set_wire (fun w => w ++ repeat (dgram syn100) 2) (cli0 None)).
Proof.
  apply (handshake_stops_at_first_accepted 0 (7 # 10) (Some (dgram ack_only101))
           [(1 # 10, None)] [(9 # 10, None)] (cli0 None) (dgram syn100)).
  - reflexivity.
  - repeat constructor.
  - reflexivity.
  - reflexivity.
Defined.

Lemma teardown_iter_eq (final_seq : Z) (rx : option (list byte)) (c : Client.t)
    (d : list byte) :
  pack (Client.fin_pkt c final_seq) = Ok d ->
  Client.teardown_iter final_seq rx c =
  (Ok (Client.teardown_accepts final_seq (Client.wait_for_packet rx)),
   Client.set_wire (fun w => w ++ [d]) c).
Proof.
  intros Hd. unfold Client.teardown_iter. monad_unfold.
  by rewrite (client_send_Ok c _ d Hd).
Qed.

Lemma teardown_loop_unacked (attempts : nat) (final_seq : Z)
    (env : list (option (list byte))) (c : Client.t) (d : list byte) :
  pack (Client.fin_pkt c final_seq) = Ok d ->
  Forall (fun rx => Client.teardown_accepts final_seq (Client.wait_for_packet rx)
                    = false) (take attempts env) ->
  Client.teardown_loop attempts final_seq env c =
  (Ok (if (attempts <=? length env)%nat then Some false else None),
   Client.set_wire (fun w => w ++ repeat d (Nat.min attempts (length env))) c).
Proof.
  revert env c. induction attempts as [|n IH]; intros env c Hd Hall.
  - cbn. by rewrite client_set_wire_nil.
  - destruct env as [|rx env].
    + cbn. by rewrite client_set_wire_nil.
    + cbn [take] in Hall. apply Forall_cons in Hall as [Hrx Hall].
      cbn [Client.teardown_loop].
      rewrite (bind_Ok _ _ _ _ _ (teardown_iter_eq final_seq rx c d Hd)).
      rewrite Hrx.
      rewrite (IH env (Client.set_wire (fun w => w ++ [d]) c) Hd Hall).
      cbn [length Nat.min repeat]. rewrite client_set_wire_app.
      change (S n <=? S (length env))%nat with (n <=? length env)%nat.
      done.
Qed.

Lemma teardown_loop_acked (attempts : nat) (final_seq : Z)
    (rx : option (list byte)) (env1 env2 : list (option (list byte)))
    (c : Client.t) (d : list byte) :
  pack (Client.fin_pkt c final_seq) = Ok d ->
  (length env1 < attempts)%nat ->
  Forall (fun rx => Client.teardown_accepts final_seq (Client.wait_for_packet rx)
                    = false) env1 ->
  Client.teardown_accepts final_seq (Client.wait_for_packet rx) = true ->
  Client.teardown_loop attempts final_seq (env1 ++ rx :: env2) c =
  (Ok (Some true), Client.set_wire (fun w => w ++ repeat d (S (length env1))) c).
Proof.
  intros Hd Hlt Hall Hacc. revert attempts c Hd Hlt.
  induction Hall as [|rx1 env1 Hrx1 _ IH]; intros attempts c Hd Hlt.
  - destruct attempts as [|n]; [cbn in Hlt; lia|].
    cbn [app Client.teardown_loop].
    rewrite (bind_Ok _ _ _ _ _ (teardown_iter_eq final_seq rx c d Hd)).
    by rewrite Hacc.
  - destruct attempts as [|n]; [cbn in Hlt; lia|].
    cbn [app Client.teardown_loop].
    rewrite (bind_Ok _ _ _ _ _ (teardown_iter_eq final_seq rx1 c d Hd)).
    rewrite Hrx1.
    rewrite (IH n (Client.set_wire (fun w => w ++ [d]) c) Hd)
      by (cbn in Hlt; lia).
    by rewrite client_set_wire_app.
Qed.

(** X10: the teardown sends at most five FINs.  When the FIN can be
    encoded, perform_teardown sends the same FIN once per attempt and stops
    at the first response with the ACK flag and ack = final_seq + 1
    ("FIN ACKed."); when none of the first five waits ends with such a
    response it returns after exactly five FINs ("No FIN-ACK received."),
    without raising: the receiver may never have seen the FIN. *)
Theorem teardown_sends_at_most_five (final_seq : Z) (c : Client.t) (d : list byte) :
  pack (Client.fin_pkt c final_seq) = Ok d ->
  (forall env1 rx env2,
     (length env1 < 5)%nat ->
     Forall (fun rx => Client.teardown_accepts final_seq (Client.wait_for_packet rx)
                       = false) env1 ->
     Client.teardown_accepts final_seq (Client.wait_for_packet rx) = true ->
     Client.perform_teardown final_seq (env1 ++ rx :: env2) c =
     (Ok (Some true),
      Client.set_wire (fun w => w ++ repeat d (S (length env1))) c)) /\
  (forall env,
     (5 <= length env)%nat ->
     Forall (fun rx => Client.teardown_accepts final_seq (Client.wait_for_packet rx)
                       = false) (take 5 env) ->
     Client.perform_teardown final_seq env c =
     (Ok (Some false), Client.set_wire (fun w => w ++ repeat d 5) c)).
Proof.
  intros Hd. split.
  - intros env1 rx env2 Hlt Hall Hacc.
    by apply teardown_loop_acked.
  - intros env Hlen Hall. unfold Client.perform_teardown.
    rewrite (teardown_loop_unacked 5 final_seq env c d Hd Hall).
    apply Nat.leb_le in Hlen. rewrite Hlen.
    apply Nat.leb_le in Hlen. by replace (Nat.min 5 (length env)) with 5%nat by lia.
Qed.

Lemma teardown_sends_at_most_five_witness :
  Client.perform_teardown 104 ([None] ++ Some (dgram ack105) :: [None]) (cli0 None) =
    (Ok (Some true),
     Client.set_wire (fun w => w ++ repeat (dgram (Client.fin_pkt (cli0 None) 104)) 2)
       (cli0 None)) /\
  Client.perform_teardown 104 [None; None; None; None; None; Some (dgram ack105)]
    (cli0 None) =
    (Ok (Some false),
     Client.set_wire (fun w => w ++ repeat (dgram (Client.fin_pkt (cli0 None) 104)) 5)
       (cli0 None)).
Proof.
  destruct (teardown_sends_at_most_five 104 (cli0 None)
              (dgram (Client.fin_pkt (cli0 None) 104)) eq_refl) as [H1 H2].
  split.
  - apply (H1 [None] (Some (dgram ack105)) [None]).
    + cbn. lia.
    + repeat constructor.
    + reflexivity.
  - apply (H2 [None; None; None; None; None; Some (dgram ack105)]).
    + cbn. lia.
    + repeat constructor.
Defined.

Lemma handshake_returns_witness :
  101 = 101 /\
  exists now rx r, In (now, rx) [(1 # 10, Some (dgram ack_only101))] /\
    Client.wait_for_packet rx = Some r /\
    (has_flag (flags r) FLAG_SYN = true \/ has_flag (flags r) FLAG_ACK = true) /\
    ack r = 101.
Proof.
  apply (handshake_returns 0 [(1 # 10, Some (dgram ack_only101))] (cli0 None) 101).
  reflexivity.
Defined.

Lemma handshake_times_out_witness :
  Client.perform_handshake 0
    ([(1 # 10, None); (5 # 1, None)] ++ (10 # 1, None) :: []) (cli0 None) =
  (Raise TimeoutError,
   Client.set_wire (fun w => w ++ repeat (dgram syn100) 2) (cli0 None)).
Proof.
  apply (handshake_times_out 0 (10 # 1) None [(1 # 10, None); (5 # 1, None)] []
           (cli0 None) (dgram syn100)).
  - reflexivity.
  - repeat constructor.
  - by vm_compute.
Defined.

(* ===================================================================== *)
(* Further properties of the receiver                                     *)
(* ===================================================================== *)

Lemma run_step_malformed (s : Server.t) (d : list byte) (e : exn) :
  unpack (recvfrom d) = Raise e -> Server.run_step d s = s.
Proof. intros Hu. unfold Server.run_step, Server.process_packet. by rewrite Hu. Qed.

Lemma run_step_syn (s : Server.t) (d : list byte) (pkt : Packet) :
  unpack (recvfrom d) = Ok pkt -> has_flag (flags pkt) FLAG_SYN = true ->
  Server.run_step d s = snd (Server.handle_syn (src_port pkt) pkt s).
Proof. intros Hu Hf. unfold Server.run_step. by rewrite (process_syn _ pkt). Qed.

Lemma run_step_fin (s : Server.t) (d : list byte) (pkt : Packet) :
  unpack (recvfrom d) = Ok pkt -> has_flag (flags pkt) FLAG_SYN = false ->
  has_flag (flags pkt) FLAG_FIN = true ->
  Server.run_step d s = snd (Server.handle_fin (src_port pkt) pkt s).
Proof. intros Hu Hf Hg. unfold Server.run_step. by rewrite (process_fin _ pkt). Qed.

Lemma run_step_data (s : Server.t) (d : list byte) (pkt : Packet) :
  unpack (recvfrom d) = Ok pkt -> has_flag (flags pkt) FLAG_SYN = false ->
  has_flag (flags pkt) FLAG_FIN = false ->
  Server.run_step d s = snd (Server.handle_data (src_port pkt) pkt s).
Proof. intros Hu Hf Hg. unfold Server.run_step. by rewrite (process_data _ pkt). Qed.

Lemma handle_fin_unknown (s : Server.t) (client_id : Z) (pkt : Packet) :
  Server.clients s !! client_id = None ->
  Server.handle_fin client_id pkt s = (Ok tt, s).
Proof. intros H. unfold Server.handle_fin. monad_unfold. by rewrite H. Qed.

Lemma handle_syn_effect (s : Server.t) (client_id : Z) (pkt : Packet) :
  let s' := snd (Server.handle_syn client_id pkt s) in
  Server.port s' = Server.port s /\
  ((exists d, pack (Server.syn_ack_pkt s client_id (seq pkt + 1)) = Ok d /\
      Server.clients s' =
        <[client_id := {| Server.expected_seq := seq pkt + 1;
                          Server.current_file :=
                            Some {| Server.path := client_id;
                                    Server.closed := false |} |}]>
          (Server.clients s) /\
      Server.disk s' = <[client_id := []]> (Server.disk s) /\
      Server.wire s' = Server.wire s ++ [d]) \/
   (Server.clients s' =
      <[client_id := {| Server.expected_seq := seq pkt + 1;
                        Server.current_file := None |}]> (Server.clients s) /\
    Server.disk s' = Server.disk s /\ Server.wire s' = Server.wire s)).
Proof.
  cbn zeta.
  destruct (pack (Server.syn_ack_pkt s client_id (seq pkt + 1))) as [d|e] eqn:Hd.
  - rewrite (handle_syn_Ok s client_id pkt d Hd). cbn. split; [done|].
    left. by exists d.
  - rewrite (handle_syn_Raise s client_id pkt e Hd). cbn. split; [done|].
    by right.
Qed.

(** X11: the receiver ignores what it cannot attribute.  A datagram shorter
    than the 16-byte header, and a datagram without the SYN flag whose
    source port has no connection state (never opened, or already closed by
    a FIN), leave the receiver exactly as it was: no state, no file, no
    reply. *)
Theorem server_ignores_strangers (s : Server.t) (d : list byte) :
  ((length d < 16)%nat -> Server.run_step d s = s) /\
  (forall pkt, unpack (recvfrom d) = Ok pkt ->
     has_flag (flags pkt) FLAG_SYN = false ->
     Server.clients s !! src_port pkt = None -> Server.run_step d s = s).
Proof.
  split.
  - intros Hlen. apply (run_step_malformed s d ValueError).
    unfold unpack, recvfrom.
    assert (H : (length (take SERVER_BUFFER_SIZE d) <? HEADER_SIZE)%nat = true).
    { apply Nat.ltb_lt. rewrite length_take. unfold HEADER_SIZE. lia. }
    by rewrite H.
  - intros pkt Hu Hsyn Hnone.
    destruct (has_flag (flags pkt) FLAG_FIN) eqn:Hfin.
    + rewrite (run_step_fin s d pkt Hu Hsyn Hfin).
      by rewrite handle_fin_unknown.
    + rewrite (run_step_data s d pkt Hu Hsyn Hfin).
      by rewrite handle_data_unknown.
Qed.

Lemma run_step_files_ok (s : Server.t) (d : list byte) :
  Server.files_ok s -> Server.files_ok (Server.run_step d s).
Proof.
  intros Hok.
  destruct (unpack (recvfrom d)) as [pkt|e] eqn:Hu;
    [|by rewrite (run_step_malformed s d e Hu)].
  destruct (has_flag (flags pkt) FLAG_SYN) eqn:Hsyn.
  - rewrite (run_step_syn s d pkt Hu Hsyn).
    destruct (handle_syn_effect s (src_port pkt) pkt)
      as (_ & [(dr & _ & Hc & _)|(Hc & _)]); cbn zeta in Hc;
      intros k st fh; rewrite Hc, lookup_insert; case_decide as Hk.
    + intros [= <-] [= <-]. by cbn.
    + apply Hok.
    + by intros [= <-].
    + apply Hok.
  - destruct (has_flag (flags pkt) FLAG_FIN) eqn:Hfin.
    + rewrite (run_step_fin s d pkt Hu Hsyn Hfin).
      destruct (handle_fin_effect s (src_port pkt) pkt)
        as (_ & _ & [(Hc & _)|[(st & dr & _ & _ & Hc & _)|(st & Hst & Hc & _)]]);
        cbn zeta in Hc; intros k st' fh; rewrite Hc.
      * apply Hok.
      * rewrite lookup_delete. case_decide; [done | apply Hok].
      * rewrite lookup_insert. case_decide as Hk; [|apply Hok].
        intros [= <-]. cbn [Server.current_file].
        destruct (Server.current_file st) as [fh0|] eqn:Hf0; [|done].
        intros [= <-]. cbn. subst k. by apply (Hok _ st fh0).
    + rewrite (run_step_data s d pkt Hu Hsyn Hfin).
      destruct (handle_data_effect s (src_port pkt) pkt)
        as (_ & [(Hc & _)|(st & fh0 & Hst & _ & _ & Hf0 & Hc & _)]);
        cbn zeta in Hc; intros k st' fh; rewrite Hc.
      * apply Hok.
      * rewrite lookup_insert. case_decide as Hk; [|apply Hok].
        intros [= <-] [= <-]. subst k. by apply (Hok _ st fh0).
Qed.

Lemma run_step_other_client (s : Server.t) (d : list byte) (k : Z) :
  Server.files_ok s ->
  (forall pkt, unpack (recvfrom d) = Ok pkt -> src_port pkt <> k) ->
  Server.clients (Server.run_step d s) !! k = Server.clients s !! k /\
  Server.disk (Server.run_step d s) !! k = Server.disk s !! k.
Proof.
  intros Hok Hk.
  destruct (unpack (recvfrom d)) as [pkt|e] eqn:Hu;
    [|by rewrite (run_step_malformed s d e Hu)].
  specialize (Hk pkt eq_refl).
  destruct (has_flag (flags pkt) FLAG_SYN) eqn:Hsyn.
  - rewrite (run_step_syn s d pkt Hu Hsyn).
    destruct (handle_syn_effect s (src_port pkt) pkt)
      as (_ & [(dr & _ & Hc & Hd & _)|(Hc & Hd & _)]); cbn zeta in Hc, Hd;
      rewrite Hc, Hd.
    + by rewrite !lookup_insert_ne.
    + by rewrite lookup_insert_ne.
  - destruct (has_flag (flags pkt) FLAG_FIN) eqn:Hfin.
    + rewrite (run_step_fin s d pkt Hu Hsyn Hfin).
      destruct (handle_fin_effect s (src_port pkt) pkt)
        as (_ & Hd & [(Hc & _)|[(st & dr & _ & _ & Hc & _)|(st & Hst & Hc & _)]]);
        cbn zeta in Hc, Hd; rewrite Hc, Hd.
      * done.
      * by rewrite lookup_delete_ne.
      * by rewrite lookup_insert_ne.
    + rewrite (run_step_data s d pkt Hu Hsyn Hfin).
      destruct (handle_data_effect s (src_port pkt) pkt)
        as (_ & [(Hc & Hd & _)|(st & fh0 & Hst & _ & _ & Hf0 & Hc & Hd & _)]);
        cbn zeta in Hc, Hd; rewrite Hc, Hd.
      * done.
      * rewrite (Hok _ st fh0 Hst Hf0). by rewrite !lookup_insert_ne.
Qed.

(** X12: a datagram touches one connection only.  In a receiver whose open
    files are those handle_syn opened (each entry of self.clients holds the
    file of its own client id, which every step keeps true), processing a
    datagram changes neither the connection state nor the file of any
    client other than the one named by the datagram's source port, and
    never the receiver's own port. *)
Theorem run_step_touches_one_client (s : Server.t) (d : list byte) :
  Server.files_ok s ->
  Server.files_ok (Server.run_step d s) /\
  (forall k, (forall pkt, unpack (recvfrom d) = Ok pkt -> src_port pkt <> k) ->
     Server.clients (Server.run_step d s) !! k = Server.clients s !! k /\
     Server.disk (Server.run_step d s) !! k = Server.disk s !! k).
Proof.
  intros Hok. split; [by apply run_step_files_ok|].
  intros k Hk. by apply run_step_other_client.
Qed.

Lemma files_ok_srv0 : Server.files_ok srv0.
Proof.
  intros k st fh H. unfold srv0 in H. cbn [Server.clients] in H.
  by rewrite lookup_empty in H.
Qed.

Lemma run_step_touches_one_client_witness :
  Server.files_ok (Server.run_step (dgram data101) srv_syn) /\
  Server.clients (Server.run_step (dgram data101) srv_syn) !! 40001
    = Server.clients srv_syn !! 40001 /\
  Server.disk (Server.run_step (dgram data101) srv_syn) !! 40001
    = Server.disk srv_syn !! 40001.
Proof.
  destruct (run_step_touches_one_client srv_syn (dgram data101)) as [H1 H2].
  - apply (run_step_files_ok srv0 (dgram syn100)), files_ok_srv0.
  - split; [exact H1|]. apply H2. intros pkt Hu.
    change (unpack (recvfrom (dgram data101))) with (Ok data101) in Hu.
    injection Hu as <-. discriminate.
Defined.

(** X13: what the receiver sends.  For each datagram it receives the
    receiver sends at most one datagram.  The reply is a bare 16-byte header
    from the receiver's port to the source port of the datagram, with seq 0,
    window 1024 and the ACK flag, together with SYN exactly when it answers
    a SYN; to a SYN or a FIN its ack is the received seq + 1, to a data
    segment its ack is the expected_seq the connection has after the
    segment was processed (the cumulative acknowledgement). *)
Theorem server_reply_shape (s : Server.t) (d : list byte) :
  let s' := Server.run_step d s in
  Server.wire s' = Server.wire s \/
  exists pkt r dr,
    unpack (recvfrom d) = Ok pkt /\ Server.wire s' = Server.wire s ++ [dr] /\
    pack r = Ok dr /\ length dr = HEADER_SIZE /\
    src_port r = Server.port s /\ dst_port r = src_port pkt /\
    seq r = 0 /\ window r = 1024 /\ data r = [] /\
    flags r = (if has_flag (flags pkt) FLAG_SYN
               then Z.lor FLAG_SYN FLAG_ACK else FLAG_ACK) /\
    (if has_flag (flags pkt) FLAG_SYN || has_flag (flags pkt) FLAG_FIN
     then ack r = seq pkt + 1
     else exists st', Server.clients s' !! src_port pkt = Some st' /\
                      ack r = Server.expected_seq st').
Proof.
  cbn zeta.
  destruct (unpack (recvfrom d)) as [pkt|e] eqn:Hu;
    [|left; by rewrite (run_step_malformed s d e Hu)].
  destruct (has_flag (flags pkt) FLAG_SYN) eqn:Hsyn.
  - rewrite (run_step_syn s d pkt Hu Hsyn).
    destruct (handle_syn_effect s (src_port pkt) pkt)
      as (_ & [(dr & Hpk & _ & _ & Hw)|(_ & _ & Hw)]); cbn zeta in Hw;
      [right | by left].
    exists pkt, (Server.syn_ack_pkt s (src_port pkt) (seq pkt + 1)), dr.
    rewrite Hsyn. cbn [orb]. split; [done|]. split; [done|]. split; [done|].
    split; [by rewrite (pack_length _ _ Hpk)|]. done.
  - destruct (has_flag (flags pkt) FLAG_FIN) eqn:Hfin.
    + rewrite (run_step_fin s d pkt Hu Hsyn Hfin).
      destruct (handle_fin_effect s (src_port pkt) pkt)
        as (_ & _ & [(_ & Hw)|[(st & dr & _ & Hpk & _ & Hw)|(st & _ & _ & Hw)]]);
        cbn zeta in Hw; [by left | right | by left].
      exists pkt, (Server.ack_pkt s (src_port pkt) (seq pkt + 1)), dr.
      rewrite Hsyn, Hfin. cbn [orb]. split; [done|]. split; [done|].
      split; [done|]. split; [by rewrite (pack_length _ _ Hpk)|]. done.
    + rewrite (run_step_data s d pkt Hu Hsyn Hfin).
      destruct (handle_data_effect s (src_port pkt) pkt)
        as (_ & [(Hc & _ & [Hw|(st & dr & Hst & Hpk & Hw)])
                |(st & fh & Hst & _ & _ & _ & Hc & _ & [Hw|(dr & Hpk & Hw)])]);
        cbn zeta in Hc, Hw; [by left | right | by left | right].
      * exists pkt, (Server.ack_pkt s (src_port pkt) (Server.expected_seq st)), dr.
        rewrite Hsyn, Hfin. cbn [orb]. split; [done|]. split; [done|].
        split; [done|]. split; [by rewrite (pack_length _ _ Hpk)|].
        repeat (split; [done|]). exists st. by rewrite Hc.
      * exists pkt, (Server.ack_pkt s (src_port pkt)
                       (Server.expected_seq st + Z.of_nat (length (data pkt)))), dr.
        rewrite Hsyn, Hfin. cbn [orb]. split; [done|]. split; [done|].
        split; [done|]. split; [by rewrite (pack_length _ _ Hpk)|].
        repeat (split; [done|]). eexists. rewrite Hc, lookup_insert_eq.
        split; [done|]. done.
Qed.

(* ------------------- duplicates, retransmissions, FIN ---------------- *)

Lemma server_set_wire_nil (s : Server.t) :
  Server.set_wire (fun w => w ++ []) s = s.
Proof. destruct s. unfold Server.set_wire. cbn. by rewrite app_nil_r. Qed.

Lemma server_set_wire_app (s : Server.t) (ds1 ds2 : list (list byte)) :
  Server.set_wire (fun w => w ++ ds2) (Server.set_wire (fun w => w ++ ds1) s)
  = Server.set_wire (fun w => w ++ (ds1 ++ ds2)) s.
Proof. unfold Server.set_wire. cbn. by rewrite <- app_assoc. Qed.

Lemma repeated_segment (n : nat) (s : Server.t) (d : list byte) (pkt : Packet)
    (st : Server.conn) (da : list byte) :
  unpack (recvfrom d) = Ok pkt ->
  has_flag (flags pkt) FLAG_SYN = false -> has_flag (flags pkt) FLAG_FIN = false ->
  Server.clients s !! src_port pkt = Some st ->
  seq pkt <> Server.expected_seq st ->
  pack (Server.ack_pkt s (src_port pkt) (Server.expected_seq st)) = Ok da ->
  Server.run_steps (repeat d n) s = Server.set_wire (fun w => w ++ repeat da n) s.
Proof.
  intros Hu Hsyn Hfin. revert s.
  induction n as [|n IH]; intros s Hst Hseq Hpk.
  - cbn. by rewrite server_set_wire_nil.
  - cbn [repeat]. unfold Server.run_steps. cbn [fold_left].
    fold (Server.run_steps (repeat d n) (Server.run_step d s)).
    rewrite (run_step_data s d pkt Hu Hsyn Hfin).
    rewrite (handle_data_out_of_order s _ pkt st da Hst Hseq Hpk). cbn [snd].
    rewrite (IH (Server.set_wire (fun w => w ++ [da]) s) Hst Hseq Hpk).
    by rewrite server_set_wire_app.
Qed.

(** X14: a retransmitted segment is harmless.  When an in-order data
    segment has been accepted (written to the file, expected_seq advanced,
    acknowledged), the same datagram arriving again any number of times
    writes nothing and changes no connection state: each copy is answered
    with the same cumulative acknowledgement again. *)
Theorem retransmission_is_idempotent (n : nat) (s : Server.t) (d : list byte)
    (pkt : Packet) (st : Server.conn) (fh : Server.file) (da : list byte) :
  unpack (recvfrom d) = Ok pkt ->
  has_flag (flags pkt) FLAG_SYN = false -> has_flag (flags pkt) FLAG_FIN = false ->
  Server.clients s !! src_port pkt = Some st ->
  seq pkt = Server.expected_seq st -> data pkt <> [] ->
  Server.current_file st = Some fh -> Server.closed fh = false ->
  pack (Server.ack_pkt s (src_port pkt)
          (Server.expected_seq st + Z.of_nat (length (data pkt)))) = Ok da ->
  let s1 := Server.run_step d s in
  Server.disk s1 =
    <[Server.path fh := default [] (Server.disk s !! Server.path fh) ++ data pkt]>
      (Server.disk s) /\
  Server.wire s1 = Server.wire s ++ [da] /\
  Server.run_steps (repeat d n) s1 = Server.set_wire (fun w => w ++ repeat da n) s1.
Proof.
  intros Hu Hsyn Hfin Hst Hseq Hne Hf Hcl Hpk s1.
  assert (Hs1 : s1 = snd (Server.handle_data (src_port pkt) pkt s))
    by apply (run_step_data s d pkt Hu Hsyn Hfin).
  rewrite (handle_data_in_order s _ pkt st fh da Hst Hseq Hne Hf Hcl Hpk) in Hs1.
  cbn [snd] in Hs1.
  split; [by rewrite Hs1|]. split; [by rewrite Hs1|].
  apply (repeated_segment n s1 d pkt
           {| Server.expected_seq :=
                Server.expected_seq st + Z.of_nat (length (data pkt));
              Server.current_file := Some fh |} da Hu Hsyn Hfin).
  - rewrite Hs1. cbn [Server.clients]. by rewrite lookup_insert_eq.
  - cbn [Server.expected_seq]. rewrite Hseq.
    destruct (data pkt); [done | cbn [length]; lia].
  - rewrite Hs1. exact Hpk.
Qed.

Lemma retransmission_is_idempotent_witness :
  Server.disk (Server.run_step (dgram data101) srv_syn) !! 40000 = Some [x68; x69] /\
  Server.run_steps (repeat (dgram data101) 3) (Server.run_step (dgram data101) srv_syn)
  = Server.set_wire (fun w => w ++ repeat (dgram ack103) 3)
      (Server.run_step (dgram data101) srv_syn).
Proof.
  destruct (retransmission_is_idempotent 3 srv_syn (dgram data101) data101
              {| Server.expected_seq := 101;
                 Server.current_file :=
                   Some {| Server.path := 40000; Server.closed := false |} |}
              {| Server.path := 40000; Server.closed := false |}
              (dgram ack103))
    as (H1 & _ & H3); try reflexivity; try discriminate.
  split; [|exact H3]. reflexivity.
Defined.

Lemma handle_fin_known (s : Server.t) (client_id : Z) (pkt : Packet)
    (st : Server.conn) (da : list byte) :
  Server.clients s !! client_id = Some st ->
  pack (Server.ack_pkt s client_id (seq pkt + 1)) = Ok da ->
  Server.handle_fin client_id pkt s =
  (Ok tt,
   {| Server.port := Server.port s;
      Server.clients := delete client_id (Server.clients s);
      Server.disk := Server.disk s;
      Server.wire := Server.wire s ++ [da] |}).
Proof.
  intros Hst Hpk. unfold Server.handle_fin. monad_unfold. rewrite Hst.
  unfold Server.close_file, Server.send_to_net. monad_unfold.
  cbn [fst snd]. rewrite Hpk.
  unfold Server.set_wire, Server.set_clients. cbn. f_equal. f_equal.
  apply map_eq; intros j.
  destruct (decide (client_id = j)) as [->|Hj].
  - by rewrite !lookup_delete_eq.
  - by rewrite !lookup_delete_ne, lookup_alter_ne.
Qed.

(** X15: a FIN ends the connection whatever its sequence number.  For a
    client with connection state, a FIN (without SYN) whose acknowledgement
    can be encoded is answered with one ACK of seq + 1 and the state of the
    client is deleted; handle_fin does not compare the FIN's seq with
    expected_seq, so this also happens while data is still missing.  The
    file is left as it is, and every later datagram from this client without
    the SYN flag is ignored. *)
Theorem fin_ends_connection (s : Server.t) (d : list byte) (pkt : Packet)
    (st : Server.conn) (da : list byte) :
  unpack (recvfrom d) = Ok pkt ->
  has_flag (flags pkt) FLAG_SYN = false -> has_flag (flags pkt) FLAG_FIN = true ->
  Server.clients s !! src_port pkt = Some st ->
  pack (Server.ack_pkt s (src_port pkt) (seq pkt + 1)) = Ok da ->
  let s1 := Server.run_step d s in
  Server.clients s1 = delete (src_port pkt) (Server.clients s) /\
  Server.disk s1 = Server.disk s /\
  Server.wire s1 = Server.wire s ++ [da] /\
  (forall d' pkt', unpack (recvfrom d') = Ok pkt' ->
     src_port pkt' = src_port pkt -> has_flag (flags pkt') FLAG_SYN = false ->
     Server.run_step d' s1 = s1).
Proof.
  intros Hu Hsyn Hfin Hst Hpk s1.
  assert (Hs1 : s1 = snd (Server.handle_fin (src_port pkt) pkt s))
    by apply (run_step_fin s d pkt Hu Hsyn Hfin).
  rewrite (handle_fin_known s _ pkt st da Hst Hpk) in Hs1. cbn [snd] in Hs1.
  split; [by rewrite Hs1|]. split; [by rewrite Hs1|]. split; [by rewrite Hs1|].
  intros d' pkt' Hu' Hsrc Hsyn'.
  assert (Hnone : Server.clients s1 !! src_port pkt' = None).
  { rewrite Hs1, Hsrc. cbn [Server.clients]. apply lookup_delete_eq. }
  destruct (has_flag (flags pkt') FLAG_FIN) eqn:Hfin'.
  - rewrite (run_step_fin s1 d' pkt' Hu' Hsyn' Hfin').
    by rewrite handle_fin_unknown.
  - rewrite (run_step_data s1 d' pkt' Hu' Hsyn' Hfin').
    by rewrite handle_data_unknown.
Qed.

Lemma fin_ends_connection_witness :
  let fin := Client.fin_pkt (cli0 None) 103 in
  let s1 := Server.run_step (dgram fin) srv_est in
  Server.clients s1 = delete 40000 (Server.clients srv_est) /\
  Server.disk s1 = Server.disk srv_est /\
  Server.wire s1 = Server.wire srv_est ++ [dgram ack104] /\
  Server.run_step (dgram data101) s1 = s1.
Proof.
  intros fin s1.
  destruct (fin_ends_connection srv_est (dgram fin) fin
              {| Server.expected_seq := 103;
                 Server.current_file :=
                   Some {| Server.path := 40000; Server.closed := false |} |}
              (dgram ack104))
    as (H1 & H2 & H3 & H4); try reflexivity.
  split; [exact H1|]. split; [exact H2|]. split; [exact H3|].
  apply (H4 (dgram data101) data101); reflexivity.
Defined.

(* ------------------------- the file and expected_seq ----------------- *)

Lemma run_step_accounting (s : Server.t) (d : list byte) (k : Z)
    (st' : Server.conn) :
  Server.files_ok s -> ~ Server.syn_from k d ->
  Server.clients (Server.run_step d s) !! k = Some st' ->
  exists st suffix,
    Server.clients s !! k = Some st /\
    Server.expected_seq st' = Server.expected_seq st + Z.of_nat (length suffix) /\
    default [] (Server.disk (Server.run_step d s) !! k)
      = default [] (Server.disk s !! k) ++ suffix.
Proof.
  intros Hok Hns.
  assert (Hsame : Server.clients (Server.run_step d s) !! k = Server.clients s !! k ->
                  Server.disk (Server.run_step d s) !! k = Server.disk s !! k ->
                  Server.clients (Server.run_step d s) !! k = Some st' ->
                  exists st suffix,
                    Server.clients s !! k = Some st /\
                    Server.expected_seq st' =
                      Server.expected_seq st + Z.of_nat (length suffix) /\
                    default [] (Server.disk (Server.run_step d s) !! k)
                      = default [] (Server.disk s !! k) ++ suffix).
  { intros Hc Hd Hst'. exists st', []. rewrite <- Hc, Hd, app_nil_r.
    split; [done|]. split; [cbn; lia | done]. }
  destruct (unpack (recvfrom d)) as [pkt|e] eqn:Hu;
    [|rewrite (run_step_malformed s d e Hu) in *; by apply Hsame].
  destruct (decide (src_port pkt = k)) as [Hk|Hk].
  2:{ destruct (run_step_other_client s d k Hok) as [Hc Hd].
      - intros pkt' Hu'. rewrite Hu in Hu'. by injection Hu' as <-.
      - by apply Hsame. }
  destruct (has_flag (flags pkt) FLAG_SYN) eqn:Hsyn;
    [exfalso; apply Hns; by exists pkt|].
  destruct (has_flag (flags pkt) FLAG_FIN) eqn:Hfin.
  - rewrite (run_step_fin s d pkt Hu Hsyn Hfin) in *. rewrite Hk in *.
    destruct (handle_fin_effect s k pkt)
      as (_ & Hd & [(Hc & _)|[(st & dr & _ & _ & Hc & _)|(st & Hst & Hc & _)]]);
      cbn zeta in Hc, Hd.
    + apply Hsame; [by rewrite Hc | by rewrite Hd].
    + rewrite Hc, lookup_delete_eq. discriminate.
    + rewrite Hc, lookup_insert_eq, Hd. intros [= <-].
      exists st, []. rewrite app_nil_r. split; [done|]. split; [cbn; lia | done].
  - rewrite (run_step_data s d pkt Hu Hsyn Hfin) in *. rewrite Hk in *.
    destruct (handle_data_effect s k pkt)
      as (_ & [(Hc & Hd & _)|(st & fh0 & Hst & _ & _ & Hf0 & Hc & Hd & _)]);
      cbn zeta in Hc, Hd.
    + apply Hsame; [by rewrite Hc | by rewrite Hd].
    + rewrite Hc, lookup_insert_eq, Hd. intros [= <-].
      exists st, (data pkt). split; [done|]. split; [done|].
      rewrite (Hok _ st fh0 Hst Hf0). by rewrite lookup_insert_eq.
Qed.

(** X16: the file grows with expected_seq.  Over any sequence of datagrams
    without a SYN from client k, in a receiver whose entries hold the files
    handle_syn opened, the file of k only grows at its end, and by as many
    bytes as expected_seq of k advances: when k has connection state
    afterwards it had state before, and the bytes appended to data/k.in are
    exactly expected_seq after minus expected_seq before.  Datagrams of
    other clients, duplicates, out-of-order segments and failed writes add
    and remove nothing. *)
Theorem file_grows_with_expected_seq (ds : list (list byte)) (s : Server.t)
    (k : Z) (st' : Server.conn) :
  Server.files_ok s ->
  Forall (fun d => ~ Server.syn_from k d) ds ->
  Server.clients (Server.run_steps ds s) !! k = Some st' ->
  exists st suffix,
    Server.clients s !! k = Some st /\
    Server.expected_seq st' = Server.expected_seq st + Z.of_nat (length suffix) /\
    default [] (Server.disk (Server.run_steps ds s) !! k)
      = default [] (Server.disk s !! k) ++ suffix.
Proof.
  intros Hok Hall. revert s Hok st'.
  induction Hall as [|d ds Hd _ IH]; intros s Hok st' Hst'.
  - exists st', []. cbn in *. rewrite app_nil_r.
    split; [done|]. split; [lia | done].
  - unfold Server.run_steps in *. cbn [fold_left] in *.
    destruct (IH (Server.run_step d s) (run_step_files_ok s d Hok) st' Hst')
      as (st1 & suf2 & Hst1 & He2 & Hd2).
    destruct (run_step_accounting s d k st1 Hok Hd Hst1)
      as (st & suf1 & Hst & He1 & Hd1).
    exists st, (suf1 ++ suf2). split; [done|]. split.
    + rewrite He2, He1, length_app. lia.
    + by rewrite Hd2, Hd1, app_assoc.
Qed.

Lemma file_grows_with_expected_seq_witness :
  exists st suffix,
    Server.clients srv_syn !! 40000 = Some st /\
    103 = Server.expected_seq st + Z.of_nat (length suffix) /\
    default [] (Server.disk (Server.run_steps [dgram data101; dgram data101] srv_syn)
                  !! 40000)
      = default [] (Server.disk srv_syn !! 40000) ++ suffix.
Proof.
  apply (file_grows_with_expected_seq [dgram data101; dgram data101] srv_syn 40000
           {| Server.expected_seq := 103;
              Server.current_file :=
                Some {| Server.path := 40000; Server.closed := false |} |}).
  - apply (run_step_files_ok srv0 (dgram syn100)), files_ok_srv0.
  - repeat constructor; intros (pkt & Hu & _ & Hf);
      change (unpack (recvfrom (dgram data101))) with (Ok data101) in Hu;
      injection Hu as <-; discriminate Hf.
  - reflexivity.
Defined.

(** X29: a SYN starts the connection afresh.  Whatever state and file the
    receiver holds for a client, a datagram with the SYN flag from that
    client whose acknowledgement can be encoded replaces the connection
    state by expected_seq = seq + 1 with a newly opened file, truncates
    data/<client>.in to empty, so that what had been received is gone, and
    is answered with one SYN-ACK carrying ack = seq + 1; the other flags,
    the payload and the previous expected_seq play no part. *)
Theorem syn_restarts_connection (s : Server.t) (d : list byte) (pkt : Packet)
    (dr : list byte) :
  unpack (recvfrom d) = Ok pkt -> has_flag (flags pkt) FLAG_SYN = true ->
  pack (Server.syn_ack_pkt s (src_port pkt) (seq pkt + 1)) = Ok dr ->
  let s' := Server.run_step d s in
  Server.clients s' !! src_port pkt =
    Some {| Server.expected_seq := seq pkt + 1;
            Server.current_file :=
              Some {| Server.path := src_port pkt; Server.closed := false |} |} /\
  Server.disk s' !! src_port pkt = Some [] /\
  Server.wire s' = Server.wire s ++ [dr] /\
  unpack dr = Ok (Server.syn_ack_pkt s (src_port pkt) (seq pkt + 1)) /\
  (forall k, k <> src_port pkt ->
     Server.clients s' !! k = Server.clients s !! k /\
     Server.disk s' !! k = Server.disk s !! k).
Proof.
  intros Hu Hsyn Hpk s'.
  assert (Hs' : s' = snd (Server.handle_syn (src_port pkt) pkt s))
    by apply (run_step_syn s d pkt Hu Hsyn).
  rewrite (handle_syn_Ok s _ pkt dr Hpk) in Hs'. cbn [snd] in Hs'.
  rewrite Hs'. cbn [Server.clients Server.disk Server.wire].
  rewrite !lookup_insert_eq. repeat (split; [done|]).
  split; [by apply unpack_pack|].
  intros k Hk. by rewrite !lookup_insert_ne.
Qed.

Lemma syn_restarts_connection_witness :
  Server.disk srv_est !! 40000 = Some [x68; x69] /\
  Server.disk (Server.run_step (dgram syn100) srv_est) !! 40000 = Some [] /\
  Server.clients (Server.run_step (dgram syn100) srv_est) !! 40000 =
    Some {| Server.expected_seq := 101;
            Server.current_file :=
              Some {| Server.path := 40000; Server.closed := false |} |}.
Proof.
  destruct (syn_restarts_connection srv_est (dgram syn100) syn100
              (dgram (Server.syn_ack_pkt srv_est 40000 101)))
    as (H1 & H2 & _); [reflexivity | reflexivity | reflexivity |].
  split; [reflexivity|]. split; [exact H2 | exact H1].
Defined.

(* ===================================================================== *)
(* Further properties of the mediator                                     *)
(* ===================================================================== *)

Lemma register_effect (virtual_port : Z) (a : Net.addr) (n : Net.t) :
  Net.register virtual_port a n =
  (Ok tt, Net.set_mapping (insert virtual_port a) n).
Proof.
  unfold Net.register. monad_unfold.
  destruct (Net.mapping n !! virtual_port) as [a'|] eqn:Hm; [|done].
  destruct (decide (a' = a)) as [->|]; [|done].
  f_equal. destruct n. unfold Net.set_mapping. cbn in *.
  f_equal. symmetry. by apply insert_id.
Qed.

Lemma simulate_effect (now : Q) (d : list byte) (target : Net.addr) (n : Net.t) :
  let n' := snd (Net.handle_simulation_and_forward now d target n) in
  Net.mapping n' = Net.mapping n /\
  ((exists copies, (copies <= 2)%nat /\
      Net.wire n' = Net.wire n ++ repeat (d, target) copies /\
      Net.delayed_packets n' = Net.delayed_packets n) \/
   (Net.wire n' = Net.wire n /\
    exists delivery_time,
      Net.delayed_packets n' = Net.delayed_packets n ++ [(delivery_time, d, target)])).
Proof.
  cbn zeta. unfold Net.handle_simulation_and_forward.
  unfold Net.uniform.
  unfold mbind, M_bind, Net.random, Net.send_packet, modify,
    Net.set_wire, Net.set_delayed, mret, M_ret.
  cbn -[Qlt_bool Qplus Qmult Qminus].
  destruct (Qlt_bool (Net.rng n (Net.drawn n)) _).
  { cbn. split; [done|]. left. exists 0%nat. cbn. rewrite app_nil_r.
    split; [lia | done]. }
  cbn -[Qlt_bool Qplus Qmult Qminus].
  destruct (Qlt_bool (Net.rng n (S (Net.drawn n))) _).
  { cbn. split; [done|]. left. exists 2%nat. cbn. rewrite <- app_assoc.
    split; [lia | done]. }
  cbn -[Qlt_bool Qplus Qmult Qminus].
  destruct (Qlt_bool (Net.rng n (S (S (Net.drawn n)))) _).
  - cbn -[Qlt_bool Qplus Qmult Qminus]. split; [done|]. right.
    split; [done|]. by eexists.
  - cbn. split; [done|]. left. exists 1%nat. split; [lia | done].
Qed.

(** X17: the mediator routes by the latest registration and never alters a
    datagram.  A datagram shorter than the header changes nothing.
    Otherwise the sender's address is recorded under the datagram's source
    port, replacing an older one, and no other port's entry changes; the
    destination is looked up after this registration, so a datagram
    addressed to its own source port goes back to its sender.  For an
    unregistered destination nothing is sent or queued and no random number
    is drawn; for a registered one the mediator sends zero, one or two
    copies of exactly the bytes it received to the registered address, or
    queues exactly these bytes for it. *)
Theorem net_routes_by_latest_registration (now : Q) (d : list byte)
    (a : Net.addr) (n : Net.t) :
  let n' := snd (Net.process_packet now d a n) in
  match unpack d with
  | Raise _ => n' = n
  | Ok pkt =>
      Net.mapping n' = <[src_port pkt := a]> (Net.mapping n) /\
      match <[src_port pkt := a]> (Net.mapping n) !! dst_port pkt with
      | None =>
          Net.wire n' = Net.wire n /\
          Net.delayed_packets n' = Net.delayed_packets n /\
          Net.drawn n' = Net.drawn n
      | Some target =>
          (exists copies, (copies <= 2)%nat /\
             Net.wire n' = Net.wire n ++ repeat (d, target) copies /\
             Net.delayed_packets n' = Net.delayed_packets n) \/
          (Net.wire n' = Net.wire n /\
           exists delivery_time,
             Net.delayed_packets n' =
               Net.delayed_packets n ++ [(delivery_time, d, target)])
      end
  end.
Proof.
  cbn zeta. unfold Net.process_packet.
  destruct (unpack d) as [pkt|e]; [|done].
  rewrite (bind_Ok _ _ _ _ _ (register_effect (src_port pkt) a n)).
  monad_unfold. cbn [Net.mapping Net.set_mapping].
  destruct (<[src_port pkt := a]> (Net.mapping n) !! dst_port pkt) as [target|].
  - destruct (simulate_effect now d target
                (Net.set_mapping (insert (src_port pkt) a) n)) as (Hm & Hrest).
    cbn zeta in Hm, Hrest. split; [by rewrite Hm|]. exact Hrest.
  - done.
Qed.

(* ------------------------------ the queue --------------------------- *)

Lemma drain_filter (now : Q) (q : list (Q * list byte * Net.addr)) :
  Net.drain now q =
  (map (fun e => (snd (fst e), snd e))
       (List.filter (fun e => Qle_bool (fst (fst e)) now) q),
   List.filter (fun e => negb (Qle_bool (fst (fst e)) now)) q).
Proof.
  induction q as [|[[t d] a] q IH]; [done|].
  cbn [Net.drain List.filter fst snd]. rewrite IH.
  by destruct (Qle_bool t now).
Qed.

(** X18: the delayed queue loses, repeats and reorders nothing.  Step 1 of
    the mediator's loop sends, in queue order, exactly the queued datagrams
    whose delivery time is at or before the clock reading, each to the
    address it was queued for, and keeps exactly the others, in queue
    order; the port mapping and the random generator are not touched. *)
Theorem send_delayed_partitions_queue (now : Q) (n : Net.t) :
  let n' := snd (Net.send_delayed now n) in
  Net.wire n' =
    Net.wire n ++ map (fun e => (snd (fst e), snd e))
                      (List.filter (fun e => Qle_bool (fst (fst e)) now)
                                   (Net.delayed_packets n)) /\
  Net.delayed_packets n' =
    List.filter (fun e => negb (Qle_bool (fst (fst e)) now)) (Net.delayed_packets n) /\
  (length (Net.wire n') + length (Net.delayed_packets n')
   = length (Net.wire n) + length (Net.delayed_packets n))%nat /\
  Net.mapping n' = Net.mapping n /\ Net.drawn n' = Net.drawn n.
Proof.
  cbn zeta. unfold Net.send_delayed. monad_unfold.
  rewrite drain_filter. cbn. split; [done|]. split; [done|]. split; [|done].
  rewrite length_app, length_map.
  induction (Net.delayed_packets n) as [|e q IH]; [cbn; lia|].
  cbn [List.filter]. destruct (Qle_bool (fst (fst e)) now); cbn [negb length]; lia.
Qed.

Lemma drain_app (now : Q) (q1 q2 : list (Q * list byte * Net.addr)) :
  Net.drain now (q1 ++ q2) =
  (fst (Net.drain now q1) ++ fst (Net.drain now q2),
   snd (Net.drain now q1) ++ snd (Net.drain now q2)).
Proof.
  rewrite !drain_filter. cbn [fst snd].
  by rewrite !List.filter_app, map_app.
Qed.

(** X19: how long a delayed datagram waits.  When the three trials of the
    mediator choose the delay branch for a datagram at clock reading now
    (with random.random() in [0, 1]), the datagram is queued, not sent, and
    step 1 of a later loop turn treats the rest of the queue as it would
    have without it; a turn whose clock reads less than now + 0.5 keeps the
    datagram queued, and a turn whose clock reads now + 2 or more sends it,
    once, to its target, after the older queued datagrams that are due. *)
Theorem delayed_datagram_timing (now t : Q) (d : list byte) (target : Net.addr)
    (n : Net.t) :
  let r1 := Net.rng n (Net.drawn n) in
  let r2 := Net.rng n (S (Net.drawn n)) in
  let r3 := Net.rng n (S (S (Net.drawn n))) in
  let u := Net.rng n (S (S (S (Net.drawn n)))) in
  ~ (r1 < Net.DROP_PROBABILITY)%Q -> ~ (r2 < Net.DUPLICATE_PROBABILITY)%Q ->
  (r3 < Net.DELAY_PROBABILITY)%Q -> (0 <= u)%Q -> (u <= 1)%Q ->
  let n1 := snd (Net.handle_simulation_and_forward now d target n) in
  Net.wire n1 = Net.wire n /\
  ((t < now + Net.MIN_DELAY)%Q ->
     Net.wire (snd (Net.send_delayed t n1)) = Net.wire (snd (Net.send_delayed t n)) /\
     exists delivery_time,
       Net.delayed_packets (snd (Net.send_delayed t n1)) =
       Net.delayed_packets (snd (Net.send_delayed t n)) ++ [(delivery_time, d, target)]) /\
  ((now + Net.MAX_DELAY <= t)%Q ->
     Net.wire (snd (Net.send_delayed t n1)) =
       Net.wire (snd (Net.send_delayed t n)) ++ [(d, target)] /\
     Net.delayed_packets (snd (Net.send_delayed t n1)) =
       Net.delayed_packets (snd (Net.send_delayed t n))).
Proof.
  intros r1 r2 r3 u H1 H2 H3 Hu0 Hu1 n1.
  set (delay := (Net.MIN_DELAY + (Net.MAX_DELAY - Net.MIN_DELAY) * u)%Q).
  assert (Hn1 : Net.wire n1 = Net.wire n /\
                Net.delayed_packets n1 =
                  Net.delayed_packets n ++ [((now + delay)%Q, d, target)]).
  { unfold n1, Net.handle_simulation_and_forward, Net.uniform.
    unfold mbind, M_bind, Net.random, Net.send_packet, modify,
      Net.set_wire, Net.set_delayed, mret, M_ret.
    cbn -[Qlt_bool Qplus Qmult Qminus].
    fold r1. rewrite (proj2 (Qlt_bool_false_iff _ _) (Qnot_lt_le _ _ H1)).
    cbn -[Qlt_bool Qplus Qmult Qminus].
    fold r2. rewrite (proj2 (Qlt_bool_false_iff _ _) (Qnot_lt_le _ _ H2)).
    cbn -[Qlt_bool Qplus Qmult Qminus].
    fold r3. rewrite (proj2 (Qlt_bool_iff _ _) H3).
    cbn -[Qlt_bool Qplus Qmult Qminus]. done. }
  destruct Hn1 as (Hw1 & Hq1).
  assert (Hb : (Net.MIN_DELAY <= delay)%Q /\ (delay <= Net.MAX_DELAY)%Q).
  { apply uniform_bounds; [|done|done]. by vm_compute. }
  destruct Hb as (Hlo & Hhi).
  assert (Hsd : forall m, Net.wire (snd (Net.send_delayed t m)) =
                  Net.wire m ++ fst (Net.drain t (Net.delayed_packets m)) /\
                Net.delayed_packets (snd (Net.send_delayed t m)) =
                  snd (Net.drain t (Net.delayed_packets m))).
  { intros m. unfold Net.send_delayed. monad_unfold.
    by destruct (Net.drain t (Net.delayed_packets m)). }
  destruct (Hsd n1) as (Ha1 & Hb1). destruct (Hsd n) as (Ha0 & Hb0).
  rewrite Ha1, Hb1, Ha0, Hb0, Hw1, Hq1, drain_app. cbn [fst snd].
  split; [done|]. split.
  - intros Ht.
    assert (Hd : Qle_bool (now + delay) t = false).
    { apply not_true_is_false. intros Hc. apply Qle_bool_iff in Hc.
      apply (Qlt_irrefl t). eapply Qlt_le_trans; [exact Ht|].
      eapply Qle_trans; [|exact Hc]. by apply Qplus_le_r. }
    cbn [Net.drain]. rewrite Hd. cbn [fst snd]. rewrite app_nil_r.
    split; [done|]. by eexists.
  - intros Ht.
    assert (Hd : Qle_bool (now + delay) t = true).
    { apply Qle_bool_iff. eapply Qle_trans; [|exact Ht]. by apply Qplus_le_r. }
    cbn [Net.drain]. rewrite Hd. cbn [fst snd]. rewrite app_nil_r.
    by rewrite app_assoc.
Qed.

Lemma delayed_datagram_timing_witness :
  let d := [x01; x02] in
  let target : Net.addr := ("127.0.0.1"%string, 9999) in
  let n1 := snd (Net.handle_simulation_and_forward 7 d target
                   (net0 [1#2; 1#2; 1#20; 1#3])) in
  Net.wire n1 = [] /\
  Net.wire (snd (Net.send_delayed (7 + (2#5)) n1)) = [] /\
  Net.wire (snd (Net.send_delayed 9 n1)) = [(d, target)].
Proof.
  intros d target n1.
  destruct (delayed_datagram_timing 7 (7 + (2#5)) d target
              (net0 [1#2; 1#2; 1#20; 1#3])) as (H1 & H2 & _);
    [by vm_compute | by vm_compute | by vm_compute | by vm_compute
    | by vm_compute |].
  destruct (delayed_datagram_timing 7 9 d target
              (net0 [1#2; 1#2; 1#20; 1#3])) as (_ & _ & H3);
    [by vm_compute | by vm_compute | by vm_compute | by vm_compute
    | by vm_compute |].
  split; [exact H1|]. split.
  - destruct H2 as [H2 _]; [by vm_compute|]. exact H2.
  - destruct H3 as [H3 _]; [by vm_compute|]. exact H3.
Defined.

(* ===================================================================== *)
(* Properties of the variant without mediator (py/)                       *)
(* ===================================================================== *)

Lemma py_pack_in_range (p : Py.Packet) :
  Py.in_range p ->
  Py.pack p = Ok (be32 (Py.seq p) ++ be32 (Py.ack p) ++ be16 (Py.flags p)
                  ++ be16 (Py.window p) ++ Py.data p).
Proof.
  intros (H1 & H2 & H3 & H4). unfold Py.pack, Py.struct_pack.
  apply fits32_spec in H1, H2. apply fits16_spec in H3, H4.
  rewrite H1, H2, H3, H4. cbn [andb]. by rewrite <- !app_assoc.
Qed.

Lemma py_pack_Ok_in_range (p : Py.Packet) (d : list byte) :
  Py.pack p = Ok d -> Py.in_range p.
Proof.
  unfold Py.pack, Py.struct_pack.
  destruct (fits32 (Py.seq p)) eqn:E1; [|discriminate].
  destruct (fits32 (Py.ack p)) eqn:E2; [|discriminate].
  destruct (fits16 (Py.flags p)) eqn:E3; [|discriminate].
  destruct (fits16 (Py.window p)) eqn:E4; [|discriminate].
  intros _. apply fits32_spec in E1, E2. apply fits16_spec in E3, E4.
  by repeat split; lia.
Qed.

Lemma py_pack_Raise (p : Py.Packet) (e : exn) :
  Py.pack p = Raise e -> e = StructError.
Proof.
  unfold Py.pack, Py.struct_pack.
  destruct (_ && _); [discriminate|]. by intros [= <-].
Qed.

Lemma py_unpack_header_payload (p : Py.Packet) (payload : list byte) :
  Py.in_range p ->
  Py.unpack (be32 (Py.seq p) ++ be32 (Py.ack p) ++ be16 (Py.flags p)
             ++ be16 (Py.window p) ++ payload)
  = Ok {| Py.seq := Py.seq p; Py.ack := Py.ack p; Py.flags := Py.flags p;
          Py.window := Py.window p; Py.data := payload |}.
Proof.
  intros (H1 & H2 & H3 & H4). unfold Py.unpack.
  change (be32 (Py.seq p) ++ be32 (Py.ack p) ++ be16 (Py.flags p)
          ++ be16 (Py.window p) ++ payload)
    with ((be32 (Py.seq p) ++ be32 (Py.ack p) ++ be16 (Py.flags p)
           ++ be16 (Py.window p)) ++ payload).
  set (h := be32 (Py.seq p) ++ be32 (Py.ack p) ++ be16 (Py.flags p)
            ++ be16 (Py.window p)).
  assert (Hl : length h = Py.HEADER_SIZE) by reflexivity.
  rewrite length_app, Hl.
  destruct (Py.HEADER_SIZE + length payload <? Py.HEADER_SIZE)%nat eqn:E;
    [apply Nat.ltb_lt in E; lia|].
  rewrite <- Hl at 1 2 3 4 5. rewrite take_app_length, drop_app_length.
  f_equal. subst h.
  change (slice 0 4 _) with (be32 (Py.seq p)).
  change (slice 4 8 _) with (be32 (Py.ack p)).
  change (slice 8 10 _) with (be16 (Py.flags p)).
  change (slice 10 12 _) with (be16 (Py.window p)).
  rewrite !be16_decode, !be32_decode by assumption. reflexivity.
Qed.

Lemma py_unpack_pack (p : Py.Packet) (d : list byte) :
  Py.pack p = Ok d -> Py.unpack d = Ok p.
Proof.
  intros H. pose proof (py_pack_Ok_in_range p d H) as Hr.
  rewrite (py_pack_in_range p Hr) in H. injection H as H. subst d.
  etransitivity; [apply (py_unpack_header_payload p (Py.data p) Hr)|].
  by destruct p.
Qed.

Lemma py_pack_length (p : Py.Packet) (d : list byte) :
  Py.pack p = Ok d -> length d = (Py.HEADER_SIZE + length (Py.data p))%nat.
Proof.
  intros H. pose proof (py_pack_Ok_in_range p d H) as Hr.
  rewrite (py_pack_in_range p Hr) in H.
  assert (Hd : d = (be32 (Py.seq p) ++ be32 (Py.ack p) ++ be16 (Py.flags p)
                    ++ be16 (Py.window p)) ++ Py.data p)
    by (rewrite <- !app_assoc; congruence).
  rewrite Hd, length_app. reflexivity.
Qed.

(** X20: the 12-byte codec of the variant without mediator.  For every
    packet whose four header fields fit their widths (seq and ack 32 bits,
    flags and window 16 bits) Packet.pack of py/shared.py succeeds with
    12 + len(data) bytes and Packet.unpack gives the packet back; with a
    payload of at most MAX_PAYLOAD_SIZE = 1012 bytes the datagram also
    survives recvfrom(1024) unchanged.  When a field does not fit, pack
    raises struct.error. *)
Theorem py_codec_round_trip (p : Py.Packet) :
  (Py.in_range p ->
     exists d, Py.pack p = Ok d /\ Py.unpack d = Ok p /\
       length d = (12 + length (Py.data p))%nat /\
       ((length (Py.data p) <= Py.MAX_PAYLOAD_SIZE)%nat ->
          Py.unpack (recvfrom d) = Ok p)) /\
  (~ Py.in_range p -> Py.pack p = Raise StructError).
Proof.
  split.
  - intros Hr. pose proof (py_pack_in_range p Hr) as Hpk.
    eexists. split; [exact Hpk|].
    split; [by apply py_unpack_pack|].
    split; [by rewrite (py_pack_length _ _ Hpk)|].
    intros Hlen. unfold recvfrom. rewrite take_ge; [by apply py_unpack_pack|].
    rewrite (py_pack_length _ _ Hpk).
    unfold Py.MAX_PAYLOAD_SIZE, SERVER_BUFFER_SIZE, Py.HEADER_SIZE in *. lia.
  - intros Hn. destruct (Py.pack p) as [d|e] eqn:Hpk.
    + exfalso. apply Hn. by apply (py_pack_Ok_in_range p d).
    + by rewrite (py_pack_Raise p e Hpk).
Qed.

(** X21: the malformed-datagram threshold of the variant without
    mediator.  Packet.unpack of py/shared.py raises ValueError exactly when
    the buffer is shorter than 12 bytes; on every other buffer it succeeds,
    the payload is the buffer without its first 12 bytes, and the four
    header fields it yields fit their widths. *)
Theorem py_unpack_malformed_iff (buffer : list byte) :
  (Py.unpack buffer = Raise ValueError <-> (length buffer < 12)%nat) /\
  ((12 <= length buffer)%nat ->
     exists p, Py.unpack buffer = Ok p /\ Py.data p = drop 12 buffer /\
               Py.in_range p).
Proof.
  unfold Py.unpack. change Py.HEADER_SIZE with 12%nat.
  destruct (length buffer <? 12)%nat eqn:E.
  - apply Nat.ltb_lt in E. split; [tauto | lia].
  - apply Nat.ltb_ge in E. split; [split; [discriminate | lia]|].
    intros _. eexists. split; [reflexivity|]. split; [reflexivity|].
    unfold Py.in_range. cbn [Py.seq Py.ack Py.flags Py.window].
    assert (H4 : forall bs, length bs = 4%nat -> 0 <= be_decode bs < 2^32).
    { intros [|a [|b [|c [|e [|? ?]]]]] Hl; try discriminate Hl.
      unfold be_decode. cbn [fold_left].
      pose proof (Z_of_byte_range a). pose proof (Z_of_byte_range b).
      pose proof (Z_of_byte_range c). pose proof (Z_of_byte_range e). lia. }
    assert (H2 : forall bs, length bs = 2%nat -> 0 <= be_decode bs < 2^16).
    { intros [|a [|b [|? ?]]] Hl; try discriminate Hl.
      unfold be_decode. cbn [fold_left].
      pose proof (Z_of_byte_range a). pose proof (Z_of_byte_range b). lia. }
    assert (Hs : forall i j, (j <= 12)%nat -> (i <= j)%nat ->
                   length (slice i j (take 12 buffer)) = (j - i)%nat).
    { intros i j Hj Hi. unfold slice.
      rewrite length_take, length_drop, length_take. lia. }
    split; [apply H4; by rewrite Hs by lia|].
    split; [apply H4; by rewrite Hs by lia|].
    split; apply H2; by rewrite Hs by lia.
Qed.

(* ------------------------------ client.py --------------------------- *)

Lemma py_sendto_Ok (w : list (list byte)) (pkt : Py.Packet) (d : list byte) :
  Py.pack pkt = Ok d -> Py.sendto pkt w = (Ok tt, w ++ [d]).
Proof. intros H. unfold Py.sendto. monad_unfold. by rewrite H. Qed.

Lemma py_sendto_Raise (w : list (list byte)) (pkt : Py.Packet) (e : exn) :
  Py.pack pkt = Raise e -> Py.sendto pkt w = (Raise e, w).
Proof. intros H. unfold Py.sendto. monad_unfold. by rewrite H. Qed.

Lemma py_handshake_cons (rx : option (list byte))
    (env : list (option (list byte))) (w : list (list byte)) (d : list byte) :
  Py.pack Py.syn_pkt = Ok d ->
  Py.perform_handshake (rx :: env) w =
  match Py.receive rx with
  | Some pkt =>
      if has_flag (Py.flags pkt) (Z.lor FLAG_SYN FLAG_ACK)
      then (Ok (Some (Py.ack pkt)), w ++ [d])
      else Py.perform_handshake env (w ++ [d])
  | None => Py.perform_handshake env (w ++ [d])
  end.
Proof.
  intros Hd. cbn [Py.perform_handshake].
  rewrite (bind_Ok _ _ _ _ _ (py_sendto_Ok w _ d Hd)).
  destruct (Py.receive rx) as [pkt|]; [|done].
  by destruct (has_flag (Py.flags pkt) _).
Qed.

(** X22: the handshake of the variant without mediator takes any flagged
    response and never gives up.  perform_handshake of py/client.py sends
    the same SYN (seq 100) once per turn; it returns the ack field of the
    first datagram that decodes and has the SYN or the ACK flag, whatever
    that ack field is (it is not compared with 101); and as long as no such
    datagram arrives it neither returns nor raises: there is no time
    budget. *)
Theorem py_handshake_takes_first_flagged_response :
  exists dsyn, Py.pack Py.syn_pkt = Ok dsyn /\
  (forall env1 rx env2 pkt w,
     Forall (fun rx => py_syn_acked rx = false) env1 ->
     Py.receive rx = Some pkt ->
     has_flag (Py.flags pkt) (Z.lor FLAG_SYN FLAG_ACK) = true ->
     Py.perform_handshake (env1 ++ rx :: env2) w =
     (Ok (Some (Py.ack pkt)), w ++ repeat dsyn (S (length env1)))) /\
  (forall env w,
     Forall (fun rx => py_syn_acked rx = false) env ->
     Py.perform_handshake env w = (Ok None, w ++ repeat dsyn (length env))).
Proof.
  eexists. split; [reflexivity|]. set (dsyn := _ ++ _). split.
  - intros env1 rx env2 pkt w Hall Hrx Hfl. revert w.
    induction Hall as [|rx1 env1 Hrx1 _ IH]; intros w.
    + cbn [app]. rewrite (py_handshake_cons rx env2 w dsyn eq_refl).
      by rewrite Hrx, Hfl.
    + cbn [app]. rewrite (py_handshake_cons rx1 _ w dsyn eq_refl).
      unfold py_syn_acked in Hrx1.
      destruct (Py.receive rx1) as [p1|]; [rewrite Hrx1|];
        rewrite IH; cbn [length repeat]; by rewrite <- app_assoc.
  - intros env w Hall. revert w.
    induction Hall as [|rx1 env Hrx1 _ IH]; intros w.
    + cbn. by rewrite app_nil_r.
    + rewrite (py_handshake_cons rx1 _ w dsyn eq_refl).
      unfold py_syn_acked in Hrx1.
      destruct (Py.receive rx1) as [p1|]; [rewrite Hrx1|];
        rewrite IH; cbn [length repeat]; by rewrite <- app_assoc.
Qed.

Lemma py_teardown_cons (n : nat) (final_seq : Z) (rx : option (list byte))
    (env : list (option (list byte))) (w : list (list byte)) (d : list byte) :
  Py.pack (Py.fin_pkt final_seq) = Ok d ->
  Py.teardown_loop (S n) final_seq (rx :: env) w =
  if py_fin_acked rx then (Ok (Some true), w ++ [d])
  else Py.teardown_loop n final_seq env (w ++ [d]).
Proof.
  intros Hd. cbn [Py.teardown_loop].
  rewrite (bind_Ok _ _ _ _ _ (py_sendto_Ok w _ d Hd)).
  unfold py_fin_acked. destruct (Py.receive rx) as [pkt|]; [|done].
  by destruct (has_flag (Py.flags pkt) _).
Qed.

Lemma py_teardown_unacked (n : nat) (final_seq : Z)
    (env : list (option (list byte))) (w : list (list byte)) (d : list byte) :
  Py.pack (Py.fin_pkt final_seq) = Ok d ->
  (n <= length env)%nat ->
  Forall (fun rx => py_fin_acked rx = false) (take n env) ->
  Py.teardown_loop n final_seq env w = (Ok (Some false), w ++ repeat d n).
Proof.
  intros Hd. revert env w. induction n as [|n IH]; intros env w Hlen Hall.
  - destruct env; cbn; by rewrite app_nil_r.
  - destruct env as [|rx env]; [cbn in Hlen; lia|].
    cbn [take] in Hall. apply Forall_cons in Hall as [Hrx Hall].
    rewrite (py_teardown_cons n final_seq rx env w d Hd), Hrx.
    rewrite IH; [|cbn in Hlen; lia|done].
    cbn [repeat]. by rewrite <- app_assoc.
Qed.

Lemma py_teardown_acked (n : nat) (final_seq : Z) (rx : option (list byte))
    (env1 env2 : list (option (list byte))) (w : list (list byte)) (d : list byte) :
  Py.pack (Py.fin_pkt final_seq) = Ok d ->
  (length env1 < n)%nat ->
  Forall (fun rx => py_fin_acked rx = false) env1 ->
  py_fin_acked rx = true ->
  Py.teardown_loop n final_seq (env1 ++ rx :: env2) w =
  (Ok (Some true), w ++ repeat d (S (length env1))).
Proof.
  intros Hd Hlt Hall Hacc. revert n w Hlt.
  induction Hall as [|rx1 env1 Hrx1 _ IH]; intros n w Hlt.
  - destruct n as [|n]; [cbn in Hlt; lia|]. cbn [app].
    by rewrite (py_teardown_cons n final_seq rx env2 w d Hd), Hacc.
  - destruct n as [|n]; [cbn in Hlt; lia|]. cbn [app].
    rewrite (py_teardown_cons n final_seq rx1 _ w d Hd), Hrx1.
    rewrite IH by (cbn in Hlt; lia).
    cbn [length repeat]. by rewrite <- app_assoc.
Qed.

(** X23: the teardown of the variant without mediator.  When the FIN can
    be encoded, perform_teardown of py/client.py sends the same FIN once
    per attempt and returns at the first datagram that decodes and has the
    ACK flag, whatever its ack field is (a late acknowledgement of data is
    taken for the FIN-ACK); when none of the first five waits brings such a
    datagram it returns after exactly five FINs. *)
Theorem py_teardown_takes_any_ack (final_seq : Z) (w : list (list byte))
    (d : list byte) :
  Py.pack (Py.fin_pkt final_seq) = Ok d ->
  (forall env1 rx env2,
     (length env1 < 5)%nat ->
     Forall (fun rx => py_fin_acked rx = false) env1 ->
     py_fin_acked rx = true ->
     Py.perform_teardown final_seq (env1 ++ rx :: env2) w =
     (Ok (Some true), w ++ repeat d (S (length env1)))) /\
  (forall env,
     (5 <= length env)%nat ->
     Forall (fun rx => py_fin_acked rx = false) (take 5 env) ->
     Py.perform_teardown final_seq env w = (Ok (Some false), w ++ repeat d 5)).
Proof.
  intros Hd. split.
  - intros env1 rx env2 Hlt Hall Hacc. by apply py_teardown_acked.
  - intros env Hlen Hall. by apply py_teardown_unacked.
Qed.

(* --------------------------- transmit_file -------------------------- *)

Lemma py_tx_init_inv (cs : list (list byte)) (initial_seq : Z) (now : Q) :
  py_tx_inv cs initial_seq (Py.tx_init cs initial_seq now).
Proof.
  unfold py_tx_inv, Py.tx_init. cbn. rewrite seq_of_0.
  repeat split; try lia.
Qed.

Lemma py_current_seq_inv (cs : list (list byte)) (initial_seq : Z) (x : Py.tx) :
  py_tx_inv cs initial_seq x -> (Py.next_idx x < length cs)%nat ->
  Py.current_seq x = Ok (seq_of cs initial_seq (Py.next_idx x)).
Proof.
  intros (Hcs & Hbn & Hw & Hn & Hbs & Htab) Hlt. unfold Py.current_seq.
  destruct (Py.base_idx x <? Py.next_idx x)%nat eqn:E.
  - apply Nat.ltb_lt in E. rewrite Hcs.
    destruct (lookup_lt_is_Some_2 cs (Py.next_idx x - 1)) as [prev Hprev]; [lia|].
    rewrite Hprev, (Htab (Py.next_idx x - 1)%nat) by lia.
    rewrite <- (seq_of_S cs initial_seq _ prev Hprev).
    by replace (S (Py.next_idx x - 1)) with (Py.next_idx x) by lia.
  - apply Nat.ltb_ge in E. rewrite Hbs. f_equal. f_equal. lia.
Qed.

Lemma py_send_one_inv (cs : list (list byte)) (initial_seq : Z) (x : Py.tx)
    (w : list (list byte)) :
  py_tx_inv cs initial_seq x -> Py.send_guard x = true ->
  (exists chunk d x',
     cs !! Py.next_idx x = Some chunk /\
     Py.pack (Py.data_pkt (seq_of cs initial_seq (Py.next_idx x)) chunk) = Ok d /\
     Py.send_one x w = (Ok x', w ++ [d]) /\
     py_tx_inv cs initial_seq x' /\
     Py.base_idx x' = Py.base_idx x /\ Py.base_seq x' = Py.base_seq x /\
     Py.next_idx x' = S (Py.next_idx x)) \/
  Py.send_one x w = (Raise StructError, w).
Proof.
  intros Hinv Hg. pose proof Hinv as (Hcs & Hbn & Hw & Hn & Hbs & Htab).
  unfold Py.send_guard, Py.total_chunks in Hg. rewrite Hcs in Hg.
  apply andb_true_iff in Hg as [Hg1 Hg2]. apply Nat.ltb_lt in Hg1, Hg2.
  unfold Py.send_one. rewrite (py_current_seq_inv cs initial_seq x Hinv Hg1).
  monad_unfold. rewrite Hcs.
  destruct (lookup_lt_is_Some_2 cs (Py.next_idx x) Hg1) as [chunk Hch].
  rewrite Hch.
  destruct (Py.pack (Py.data_pkt (seq_of cs initial_seq (Py.next_idx x)) chunk))
    as [d|e] eqn:Hpk.
  - left. eexists chunk, d, _. split; [done|]. split; [done|].
    rewrite (py_sendto_Ok w _ d Hpk). cbn [fst snd]. split; [done|].
    split; [|done].
    unfold py_tx_inv. cbn [Py.chunks Py.base_idx Py.next_idx Py.base_seq Py.seq_window].
    split; [done|]. split; [lia|]. split; [lia|]. split; [lia|]. split; [done|].
    intros i Hi. rewrite lookup_insert. case_decide as Hc; [by subst|].
    apply Htab. lia.
  - right. rewrite (py_sendto_Raise w _ e Hpk). cbn [fst snd].
    by rewrite (py_pack_Raise _ e Hpk).
Qed.

Lemma py_send_loop_inv (cs : list (list byte)) (initial_seq : Z) (fuel : nat)
    (x : Py.tx) (w : list (list byte)) :
  py_tx_inv cs initial_seq x ->
  exists ds,
    snd (Py.send_loop fuel x w) = w ++ ds /\
    Forall (fun d => exists i chunk,
              (Py.base_idx x <= i < Py.base_idx x + WINDOW_SIZE)%nat /\
              cs !! i = Some chunk /\
              Py.unpack d = Ok (Py.data_pkt (seq_of cs initial_seq i) chunk)) ds /\
    match fst (Py.send_loop fuel x w) with
    | Ok x' => py_tx_inv cs initial_seq x' /\
               Py.base_idx x' = Py.base_idx x /\ Py.base_seq x' = Py.base_seq x
    | Raise e => e = StructError
    end.
Proof.
  revert x w. induction fuel as [|fuel IH]; intros x w Hinv.
  - exists []. cbn. by rewrite app_nil_r.
  - cbn [Py.send_loop]. destruct (Py.send_guard x) eqn:Hg;
      [|exists []; cbn; by rewrite app_nil_r].
    destruct (py_send_one_inv cs initial_seq x w Hinv Hg)
      as [(chunk & d & x' & Hch & Hpk & Hrun & Hinv' & Hb & Hbs & Hn)|Hrun].
    + rewrite (bind_Ok _ _ _ _ _ Hrun).
      destruct (IH x' (w ++ [d]) Hinv') as (ds & Hw & Hds & Hres).
      exists (d :: ds). split; [by rewrite Hw, <- app_assoc|]. split.
      * constructor.
        -- exists (Py.next_idx x), chunk.
           destruct Hinv as (_ & Hbn & _).
           unfold Py.send_guard in Hg. apply andb_true_iff in Hg as [_ Hg2].
           apply Nat.ltb_lt in Hg2.
           split; [lia|]. split; [done|]. by apply py_unpack_pack.
        -- rewrite Hb in Hds. exact Hds.
      * destruct (fst (Py.send_loop fuel x' (w ++ [d]))) as [x''|e]; [|done].
        destruct Hres as (H1 & H2 & H3). rewrite H2, H3. done.
    + rewrite (bind_Raise _ _ _ _ _ Hrun). exists []. cbn.
      by rewrite app_nil_r.
Qed.

Lemma py_advance_loop_inv (cs : list (list byte)) (initial_seq : Z) (fuel : nat)
    (ack_num : Z) (now : Q) (x : Py.tx) :
  py_tx_inv cs initial_seq x ->
  py_tx_inv cs initial_seq (Py.advance_loop fuel ack_num now x).
Proof.
  revert x. induction fuel as [|fuel IH]; intros x Hinv; [done|].
  cbn [Py.advance_loop].
  destruct (Py.base_idx x <? Py.next_idx x)%nat eqn:E; [|done].
  apply Nat.ltb_lt in E.
  destruct (Py.chunks x !! Py.base_idx x) as [chunk|] eqn:Hch; [|done].
  cbn zeta. destruct (_ <=? ack_num); [|done].
  apply IH. destruct Hinv as (Hcs & Hbn & Hw & Hn & Hbs & Htab).
  unfold py_tx_inv. cbn [Py.chunks Py.base_idx Py.next_idx Py.base_seq Py.seq_window].
  rewrite Hcs in Hch.
  split; [done|]. split; [lia|]. split; [lia|]. split; [done|]. split.
  - by rewrite (seq_of_S cs initial_seq _ chunk Hch), Hbs.
  - intros i Hi. apply Htab. lia.
Qed.

Lemma py_check_timeout_inv (cs : list (list byte)) (initial_seq : Z)
    (now reset_at : Q) (x : Py.tx) :
  py_tx_inv cs initial_seq x ->
  py_tx_inv cs initial_seq (Py.check_timeout now reset_at x).
Proof.
  intros Hinv. unfold Py.check_timeout.
  destruct (Qlt_bool Py.TIMEOUT (now - Py.last_ack_time x)); [|done].
  destruct Hinv as (Hcs & Hbn & Hw & Hn & Hbs & Htab).
  unfold py_tx_inv. cbn [Py.chunks Py.base_idx Py.next_idx Py.base_seq Py.seq_window].
  split; [done|]. split; [lia|]. split; [lia|]. split; [lia|]. split; [done|].
  intros i Hi. lia.
Qed.

Lemma py_process_ack_inv (cs : list (list byte)) (initial_seq : Z)
    (resp : option Py.Packet) (now : Q) (x : Py.tx) :
  py_tx_inv cs initial_seq x ->
  py_tx_inv cs initial_seq (Py.process_ack resp now x).
Proof.
  intros Hinv. unfold Py.process_ack. destruct resp; [|done].
  by apply py_advance_loop_inv.
Qed.

Lemma py_transmit_iter_inv (cs : list (list byte)) (initial_seq : Z)
    (ev : Py.tx_event) (x : Py.tx) (w : list (list byte)) :
  py_tx_inv cs initial_seq x ->
  (exists ds,
     snd (Py.transmit_iter ev x w) = w ++ ds /\
     Forall (fun d => exists i chunk,
               (Py.base_idx x <= i < Py.base_idx x + WINDOW_SIZE)%nat /\
               cs !! i = Some chunk /\
               Py.unpack d = Ok (Py.data_pkt (seq_of cs initial_seq i) chunk)) ds) /\
  match fst (Py.transmit_iter ev x w) with
  | Ok x' => py_tx_inv cs initial_seq x'
  | Raise e => e = StructError
  end.
Proof.
  intros Hinv. unfold Py.transmit_iter.
  destruct (py_send_loop_inv cs initial_seq (Py.total_chunks x) x w Hinv)
    as (ds & Hw & Hds & Hres).
  destruct (Py.send_loop (Py.total_chunks x) x w) as [[x1|e] w1] eqn:Hrun;
    cbn [fst snd] in Hw, Hres.
  - rewrite (bind_Ok _ _ _ _ _ Hrun). cbn [fst snd mret M_ret].
    split; [by exists ds|].
    destruct Hres as (Hinv1 & _).
    by apply py_check_timeout_inv, py_process_ack_inv.
  - rewrite (bind_Raise _ _ _ _ _ Hrun). cbn [fst snd].
    split; [by exists ds | done].
Qed.

(** X24: the window of the variant without mediator.  In transmit_file of
    py/client.py, whatever arrives and whenever, every turn of the loop
    keeps 0 <= base_idx <= next_idx <= base_idx + WINDOW_SIZE and next_idx
    <= total_chunks (the acknowledgement loop stops at next_idx, so base_idx
    never passes it); the sequence numbers computed while sending agree
    with the positions in the file, so every datagram sent is a chunk of the
    window with the sequence number at which it begins; and no lookup in
    chunks or seq_window fails: a turn can only raise struct.error, when a
    sequence number no longer fits 32 bits. *)
Theorem py_window_invariant (cs : list (list byte)) (initial_seq : Z) :
  (forall now, py_tx_inv cs initial_seq (Py.tx_init cs initial_seq now)) /\
  (forall ev x w, py_tx_inv cs initial_seq x ->
     (exists ds,
        snd (Py.transmit_iter ev x w) = w ++ ds /\
        Forall (fun d => exists i chunk,
                  (Py.base_idx x <= i < Py.base_idx x + WINDOW_SIZE)%nat /\
                  cs !! i = Some chunk /\
                  Py.unpack d = Ok (Py.data_pkt (seq_of cs initial_seq i) chunk)) ds) /\
     match fst (Py.transmit_iter ev x w) with
     | Ok x' => py_tx_inv cs initial_seq x'
     | Raise e => e = StructError
     end).
Proof.
  split; [apply py_tx_init_inv|]. intros ev x w Hinv.
  by apply py_transmit_iter_inv.
Qed.

Lemma py_transmit_loop_returns (cs : list (list byte)) (initial_seq : Z)
    (env : list Py.tx_event) (x : Py.tx) (w : list (list byte)) :
  py_tx_inv cs initial_seq x ->
  match fst (Py.transmit_loop env x w) with
  | Ok (Some b) => b = initial_seq + Z.of_nat (length (concat cs))
  | Ok None => True
  | Raise e => e = StructError
  end.
Proof.
  revert x w. induction env as [|ev env IH]; intros x w Hinv.
  - cbn [Py.transmit_loop].
    destruct (Py.base_idx x <? Py.total_chunks x)%nat eqn:E; [done|].
    apply Nat.ltb_ge in E. destruct Hinv as (Hcs & Hbn & Hw & Hn & Hbs & Htab).
    unfold Py.total_chunks in E. rewrite Hcs in E. cbn. rewrite Hbs.
    replace (Py.base_idx x) with (length cs) by lia.
    unfold seq_of. by rewrite firstn_all.
  - cbn [Py.transmit_loop].
    destruct (Py.base_idx x <? Py.total_chunks x)%nat eqn:E.
    + destruct (py_transmit_iter_inv cs initial_seq ev x w Hinv) as (_ & Hres).
      destruct (Py.transmit_iter ev x w) as [[x'|e] w'] eqn:Hit; cbn [fst] in Hres.
      * rewrite (bind_Ok _ _ _ _ _ Hit). by apply IH.
      * by rewrite (bind_Raise _ _ _ _ _ Hit).
    + apply Nat.ltb_ge in E. destruct Hinv as (Hcs & Hbn & Hw & Hn & Hbs & Htab).
      unfold Py.total_chunks in E. rewrite Hcs in E. cbn. rewrite Hbs.
      replace (Py.base_idx x) with (length cs) by lia.
      unfold seq_of. by rewrite firstn_all.
Qed.

(** X25: the value of transmit_file in the variant without mediator.
    Whatever arrives and whenever, transmit_file of py/client.py can only
    end in two ways: it returns initial_seq plus the total length of the
    chunks, the sequence number after the last byte, or it raises
    struct.error. *)
Theorem py_transmit_file_returns_end (cs : list (list byte)) (initial_seq : Z)
    (now : Q) (env : list Py.tx_event) (w : list (list byte)) :
  match fst (Py.transmit_file cs initial_seq now env w) with
  | Ok (Some b) => b = initial_seq + Z.of_nat (length (concat cs))
  | Ok None => True
  | Raise e => e = StructError
  end.
Proof.
  unfold Py.transmit_file. apply py_transmit_loop_returns, py_tx_init_inv.
Qed.

Lemma py_teardown_takes_any_ack_witness :
  Py.perform_teardown 104 ([None] ++ Some (py_dgram py_stale_ack) :: [None]) [] =
  (Ok (Some true), [] ++ repeat (py_dgram (Py.fin_pkt 104)) 2).
Proof.
  destruct (py_teardown_takes_any_ack 104 [] (py_dgram (Py.fin_pkt 104)) eq_refl)
    as [H _].
  apply (H [None] (Some (py_dgram py_stale_ack)) [None]).
  - cbn. lia.
  - repeat constructor.
  - reflexivity.
Defined.

(* ===================================================================== *)
(* The receiver's registration at the mediator                            *)
(* ===================================================================== *)

(** X26: the receiver's registration.  register_with_net sends one bare
    header with the receiver's port as source and destination port 0.  When
    the mediator gets it from address a, with port 0 unregistered and the
    receiver's port not 0, it records a for the receiver's port, so that
    datagrams for that port are routed to a from then on, and it forwards
    and queues nothing and draws no random number for the registration
    itself. *)
Theorem registration_reaches_mediator (s : Server.t) (n : Net.t) (a : Net.addr)
    (now : Q) :
  0 < Server.port s < 2^16 -> Net.mapping n !! 0 = None ->
  exists d,
    Server.register_with_net s = (Ok tt, Server.set_wire (fun w => w ++ [d]) s) /\
    length d = HEADER_SIZE /\
    let n' := snd (Net.process_packet now (recvfrom d) a n) in
    Net.mapping n' = <[Server.port s := a]> (Net.mapping n) /\
    Net.wire n' = Net.wire n /\
    Net.delayed_packets n' = Net.delayed_packets n /\
    Net.drawn n' = Net.drawn n.
Proof.
  intros Hport H0.
  set (pkt := {| src_port := Server.port s; dst_port := 0; seq := 0; ack := 0;
                 flags := 0; window := 1024; data := [] |}).
  assert (Hr : in_range pkt) by (unfold in_range, pkt; cbn; lia).
  pose proof (pack_in_range pkt Hr) as Hpk. set (d := be16 _ ++ _) in Hpk.
  exists d. split; [|split].
  - unfold Server.register_with_net. monad_unfold. fold pkt.
    by rewrite (server_send_Ok s pkt d Hpk).
  - by rewrite (pack_length pkt d Hpk).
  - assert (Hrecv : recvfrom d = d).
    { unfold recvfrom. apply take_ge. rewrite (pack_length pkt d Hpk).
      cbn. unfold SERVER_BUFFER_SIZE. lia. }
    rewrite Hrecv. cbn zeta. unfold Net.process_packet.
    rewrite (unpack_pack pkt d Hpk).
    rewrite (bind_Ok _ _ _ _ _ (register_effect (src_port pkt) a n)).
    monad_unfold. cbn [Net.mapping Net.set_mapping src_port dst_port pkt].
    rewrite lookup_insert_ne by lia. rewrite H0. done.
Qed.

Lemma registration_reaches_mediator_witness :
  exists d,
    Server.register_with_net srv0 = (Ok tt, Server.set_wire (fun w => w ++ [d]) srv0) /\
    length d = HEADER_SIZE /\
    Net.mapping (snd (Net.process_packet 0 (recvfrom d) ("127.0.0.1"%string, 9999)
                        (net0 [])))
      = <[9999 := ("127.0.0.1"%string, 9999)]> ∅.
Proof.
  destruct (registration_reaches_mediator srv0 (net0 []) ("127.0.0.1"%string, 9999) 0)
    as (d & H1 & H2 & H3 & _).
  - cbn. lia.
  - reflexivity.
  - exists d. split; [exact H1|]. split; [exact H2 | exact H3].
Defined.

(* ===================================================================== *)
(* The acknowledgement step on files as read_file_chunks cuts them         *)
(* ===================================================================== *)

Lemma py_chunks_5061_read :
  Py.read_file_chunks (Some file_5061) = Some py_chunks_5061.
Proof. reflexivity. Qed.

Lemma py_tx_5061_after_inv (p : Py.Packet) :
  py_tx_inv py_chunks_5061 101 (py_tx_5061_after p).
Proof.
  unfold py_tx_5061_after.
  pose proof (py_transmit_iter_inv py_chunks_5061 101 (py_turn_with p)
                (Py.tx_init py_chunks_5061 101 0) []
                (py_tx_init_inv py_chunks_5061 101 0)) as (_ & H).
  destruct (fst (Py.transmit_iter _ _ _)) as [x|e];
    [exact H | apply py_tx_init_inv].
Qed.

Lemma ack_advances_over_covered_chunks_witness :
  (exists x', Client.process_ack (Some ack2117) (1 # 100) tx_5041_sent = Ok x' /\
              Client.base_idx tx_5041_sent = 0%nat /\
              Client.base_idx x' = 2%nat /\ Client.next_idx x' = 5%nat /\
              Client.base_seq x' = 2117) /\
  (let x := py_tx_5061_after py_noflag_2125 in
   let x' := Py.process_ack (Some py_ack5162) (3 # 100) x in
   Py.base_idx x = 2%nat /\ Py.next_idx x = 5%nat /\
   Py.base_idx x' = 5%nat /\ Py.next_idx x' = 5%nat /\ Py.base_seq x' = 5161 /\
   py_tx_inv py_chunks_5061 101 x').
Proof.
  destruct ack_advances_over_covered_chunks as [Hmed Hpy]. split.
  - destruct (Hmed chunks_5041 101 tx_5041_sent ack2117 (1 # 100)
                (tx_reachable_wf _ _ _ _ (tx_5041_sent_reachable false)))
      as (x' & Hrun & _).
    exists x'. split; [exact Hrun|].
    vm_compute in Hrun. injection Hrun as <-. repeat split; reflexivity.
  - destruct (Hpy py_chunks_5061 101 (py_tx_5061_after py_noflag_2125)
                py_ack5162 (3 # 100) (py_tx_5061_after_inv py_noflag_2125))
      as (Hinv & _).
    cbn zeta. split; [by vm_compute|]. split; [by vm_compute|].
    split; [by vm_compute|]. split; [by vm_compute|].
    split; [by vm_compute | exact Hinv].
Defined.

(** C5 (as stated) fails on py/client.py.  For a file of 5061 bytes
    read_file_chunks gives six chunks (five of 1012 bytes and one of a
    single byte); the first turn of the loop of transmit_file sends chunks
    0 to 4 (next_idx = 5).  When the poll of that turn returns a datagram
    without the ACK flag whose ack field is 2125 = 101 + 2 * 1012, base_idx
    advances to 2 although no ACK was received; and when it returns an
    acknowledgement with ack = 5162 = 101 + 5061, which covers all six
    chunks, base_idx advances to 5 only: chunk 5, whose end sequence is
    5162 <= ack, is not passed. *)
Lemma py_ack_step_ignores_flag_and_stops_at_next_idx :
  Py.read_file_chunks (Some file_5061) = Some py_chunks_5061 /\
  length py_chunks_5061 = 6%nat /\
  (Py.receive (Some (py_dgram py_noflag_2125)) = Some py_noflag_2125 /\
   has_flag (Py.flags py_noflag_2125) FLAG_ACK = false /\
   fst (Py.transmit_iter (py_turn_with py_noflag_2125)
          (Py.tx_init py_chunks_5061 101 0) [])
     = Ok (py_tx_5061_after py_noflag_2125) /\
   Py.base_idx (py_tx_5061_after py_noflag_2125) = 2%nat /\
   Py.base_seq (py_tx_5061_after py_noflag_2125) = 2125) /\
  (Py.receive (Some (py_dgram py_ack5162)) = Some py_ack5162 /\
   has_flag (Py.flags py_ack5162) FLAG_ACK = true /\
   seq_of py_chunks_5061 101 6 <= Py.ack py_ack5162 /\
   fst (Py.transmit_iter (py_turn_with py_ack5162)
          (Py.tx_init py_chunks_5061 101 0) [])
     = Ok (py_tx_5061_after py_ack5162) /\
   Py.base_idx (py_tx_5061_after py_ack5162) = 5%nat /\
   Py.next_idx (py_tx_5061_after py_ack5162) = 5%nat).
Proof.
  split; [reflexivity|]. split; [by vm_compute|]. split.
  - split; [by vm_compute|]. split; [by vm_compute|].
    split; [by vm_compute|]. split; by vm_compute.
  - split; [by vm_compute|]. split; [by vm_compute|].
    split; [by vm_compute|]. split; [by vm_compute|]. split; by vm_compute.
Qed.
